(** * selenium-base: driver installers and browser option factories

    A shallow embedding of [driverutils/installer.py] and
    [driverutils/helper.py], and the properties of the two components
    that the specification states.

    Python [str] values are modelled as [string]; a character is a code
    point below 256, which is the range in which the driver and browser
    banners live and in which the regular-expression class [\d] is exactly
    the ten ASCII digits. The Korean texts of the exceptions and notices
    are data only and are kept as their UTF-8 bytes. *)

From Stdlib Require Import ZArith Ascii String Lia.
From stdpp Require Import base option list gmap strings.

Local Open Scope Z_scope.

#[local] Arguments Ascii.eqb : simpl never.
#[local] Arguments String.eqb : simpl never.

(** ** Python values: exceptions and outcomes *)

Module Py.

(** The exception classes that the two modules raise or let through.
    [Other cls] is an exception of class [cls] raised inside a library call
    (a missing executable, a malformed archive, a failed request). *)
Inductive exn : Type :=
  | RuntimeError (msg : string)
  | Exception (msg : string)
  | URLError (msg : string)
  | KeyError (key : string)
  | Other (cls : string)
  | IndexError
  | TypeError
  | AttributeError.

(** The result of evaluating an expression: a value or a raised exception. *)
Inductive outcome (A : Type) : Type :=
  | Ret (a : A)
  | Raise (e : exn).
Arguments Ret {A} a.
Arguments Raise {A} e.

(** Code that reads and writes a state [S] and may raise: the state is kept
    when an exception is raised, as the effects before a [raise] are. *)
Definition M (S A : Type) : Type := S -> outcome A * S.

Definition ret {S A} (a : A) : M S A := fun w => (Ret a, w).

Definition raise {S A} (e : exn) : M S A := fun w => (Raise e, w).

Definition bind {S A B} (m : M S A) (k : A -> M S B) : M S B :=
  fun w =>
    match m w with
    | (Ret a, w') => k a w'
    | (Raise e, w') => (Raise e, w')
    end.

Definition lift {S A} (o : outcome A) : M S A := fun w => (o, w).

Definition gets {S A} (f : S -> A) : M S A := fun w => (Ret (f w), w).

Definition modify {S} (f : S -> S) : M S unit := fun w => (Ret tt, f w).

Definition when {S} (b : bool) (m : M S unit) : M S unit :=
  if b then m else ret tt.

Notation "'let*' x ':=' m 'in' k" := (bind m (fun x => k))
  (at level 10, x name, m at level 200, k at level 200).

(** [P] survives every run of [m], also one that raises. *)
Definition stable {S A} (P : S -> Prop) (m : M S A) : Prop :=
  forall w r w', P w -> m w = (r, w') -> P w'.

(** [Q] holds of the value and the state of every run of [m] that returns. *)
Definition ensures {S A} (m : M S A) (Q : A -> S -> Prop) : Prop :=
  forall w a w', m w = (Ret a, w') -> Q a w'.

(** Truth value of a [str]: the empty string is false. *)
Definition truthy (s : string) : bool := negb (String.eqb s "").

(** ** [str] methods *)

(** [s.startswith(p)] *)
Fixpoint startswith (s p : string) {struct p} : bool :=
  match p with
  | "" => true
  | String a p' =>
      match s with
      | "" => false
      | String b s' => if Ascii.eqb a b then startswith s' p' else false
      end
  end.

(** [s.endswith(p)]: some suffix of [s] is [p]. *)
Fixpoint endswith (s p : string) : bool :=
  if String.eqb s p then true
  else match s with
       | "" => false
       | String _ s' => endswith s' p
       end.

(** [s.find(sub)]: the lowest index at which [sub] occurs, or -1. *)
Fixpoint find_from (s sub : string) (i : Z) : Z :=
  if startswith s sub then i
  else match s with
       | "" => -1
       | String _ s' => find_from s' sub (i + 1)
       end.

Definition find (s sub : string) : Z := find_from s sub 0.

(** [sub in s] *)
Definition contains (s sub : string) : bool := 0 <=? find s sub.

(** [s.split(sep)] for a one-character separator, which is what every call
    site passes (['.'] and ['/']). *)
Fixpoint split (sep : ascii) (s : string) : list string :=
  match s with
  | "" => [""]
  | String c s' =>
      if Ascii.eqb c sep then "" :: split sep s'
      else match split sep s' with
           | [] => [String c ""]
           | x :: xs => String c x :: xs
           end
  end.

(** [l[0]] and [l[-1]]: both raise [IndexError] on the empty list. *)
Definition first {A} (l : list A) : outcome A :=
  match l with
  | [] => Raise IndexError
  | x :: _ => Ret x
  end.

Fixpoint last {A} (l : list A) : outcome A :=
  match l with
  | [] => Raise IndexError
  | [x] => Ret x
  | _ :: l' => last l'
  end.

(** [l[1]] *)
Definition second {A} (l : list A) : outcome A :=
  match l with
  | _ :: x :: _ => Ret x
  | _ => Raise IndexError
  end.

(** [s[:n]] for [n >= 0]. *)
Fixpoint take (n : nat) (s : string) : string :=
  match n, s with
  | S n', String c s' => String c (take n' s')
  | _, _ => ""
  end.

(** [s[:-n]] for [n > 0]: all but the last [n] characters, and the empty
    string when there are not that many. *)
Definition drop_last (n : nat) (s : string) : string :=
  take (String.length s - n)%nat s.

(** [str.isspace] on one character: the whitespace code points below 256. *)
Definition isspace (c : ascii) : bool :=
  let n := nat_of_ascii c in
  ((9 <=? n) && (n <=? 13) || (28 <=? n) && (n <=? 32)
   || (n =? 133) || (n =? 160))%nat.

Fixpoint lstrip (s : string) : string :=
  match s with
  | "" => ""
  | String c s' => if isspace c then lstrip s' else s
  end.

Definition rstrip (s : string) : string :=
  String.rev (lstrip (String.rev s)).

(** [s.strip()] *)
Definition strip (s : string) : string := rstrip (lstrip s).

(** [s.split()]: the maximal runs of non-whitespace characters. [cur] is
    the run being read, in reverse. *)
Fixpoint words_from (cur : string) (s : string) : list string :=
  match s with
  | "" => match cur with "" => [] | _ => [String.rev cur] end
  | String c s' =>
      if isspace c
      then match cur with
           | "" => words_from "" s'
           | _ => String.rev cur :: words_from "" s'
           end
      else words_from (String c cur) s'
  end.

Definition words (s : string) : list string := words_from "" s.

(** [s.replace(old, new)] for a non-empty [old], as at every call site:
    occurrences are replaced left to right without overlap. [skip] counts
    the characters of a replaced occurrence still to be passed over. *)
Fixpoint replace_from (old new : string) (skip : nat) (s : string) : string :=
  match s with
  | "" => ""
  | String c s' =>
      match skip with
      | S k => replace_from old new k s'
      | O =>
          if startswith s old
          then new +:+ replace_from old new (String.length old - 1)%nat s'
          else String c (replace_from old new 0%nat s')
      end
  end.

Definition replace (s old new : string) : string := replace_from old new 0%nat s.

End Py.

(** ** The fragment of [re] that the installers use

    Both patterns of [installer.py] are a sequence of literals and of
    repeated character classes around one capture group. The matcher is a
    backtracking one that tries alternatives in the order of Python's [re]:
    a greedy repetition takes one more character before it tries to stop, a
    lazy one tries to stop first. *)

Module Re.
Import Py.

Inductive atom : Type :=
  | Lit (c : ascii)
  | Rep (cls : ascii -> bool) (min : nat) (greedy : bool).

(** A pattern with one group: what stands before, inside and after it. *)
Record pattern : Type := Pattern {
  before : list atom;
  group : list atom;
  after : list atom
}.

(** [.] matches everything but a newline. *)
Definition dot (c : ascii) : bool := negb (Ascii.eqb c "010").

(** [\d] *)
Definition digit (c : ascii) : bool :=
  let n := nat_of_ascii c in ((48 <=? n) && (n <=? 57))%nat.

(** [[\d.]] *)
Definition digit_or_dot (c : ascii) : bool := digit c || Ascii.eqb c ".".

Definition stop {R} (min : nat) (s : string)
    (k : string -> string -> option R) : option R :=
  match min with
  | O => k "" s
  | S _ => None
  end.

Fixpoint rep_greedy {R} (cls : ascii -> bool) (min : nat) (s : string)
    (k : string -> string -> option R) : option R :=
  match s with
  | String c s' =>
      if cls c then
        match rep_greedy cls (Nat.pred min) s' (fun m r => k (String c m) r) with
        | Some x => Some x
        | None => stop min s k
        end
      else stop min s k
  | "" => stop min s k
  end.

Fixpoint rep_lazy {R} (cls : ascii -> bool) (min : nat) (s : string)
    (k : string -> string -> option R) : option R :=
  match stop min s k with
  | Some x => Some x
  | None =>
      match s with
      | String c s' =>
          if cls c
          then rep_lazy cls (Nat.pred min) s' (fun m r => k (String c m) r)
          else None
      | "" => None
      end
  end.

(** [run p s k]: match the atoms [p] at the start of [s]; [k] receives the
    matched text and what follows it, and answers [None] to ask for the next
    alternative. *)
Fixpoint run {R} (p : list atom) (s : string)
    (k : string -> string -> option R) : option R :=
  match p with
  | [] => k "" s
  | Lit c :: p' =>
      match s with
      | String c' s' =>
          if Ascii.eqb c c' then run p' s' (fun m r => k (String c m) r) else None
      | "" => None
      end
  | Rep cls min g :: p' =>
      let rest m1 r1 := run p' r1 (fun m2 r2 => k (m1 +:+ m2) r2) in
      if g then rep_greedy cls min s rest else rep_lazy cls min s rest
  end.

(** A match anchored at the start of [s]: the text of group 1 and the input
    left after the whole match. *)
Definition match_here (p : pattern) (s : string) : option (string * string) :=
  run (before p) s (fun _ r0 =>
    run (group p) r0 (fun g r1 =>
      run (after p) r1 (fun _ r2 => Some (g, r2)))).

(** [re.match(p, s)[1]]: subscripting the [None] of a failed match is a
    [TypeError]. *)
Definition match_group1 (p : pattern) (s : string) : outcome string :=
  match match_here p s with
  | Some (g, _) => Ret g
  | None => Raise TypeError
  end.

Definition advance (s : string) : option string :=
  match s with
  | "" => None
  | String _ s' => Some s'
  end.

(** [re.findall(p, s)]: the group of each match, scanning left to right
    and resuming after a match. The patterns here cannot match the empty
    string; a match that consumed nothing would resume one character on. *)
Fixpoint findall_from (fuel : nat) (p : pattern) (s : string) : list string :=
  match fuel with
  | O => []
  | S fuel' =>
      let next s1 :=
        match advance s1 with
        | Some s2 => findall_from fuel' p s2
        | None => []
        end in
      match match_here p s with
      | Some (g, r) =>
          g :: (if (String.length r <? String.length s)%nat
                then findall_from fuel' p r else next s)
      | None => next s
      end
  end.

Definition findall (p : pattern) (s : string) : list string :=
  findall_from (S (String.length s)) p s.

Definition lits (s : string) : list atom :=
  (fix go (s : string) : list atom :=
     match s with
     | "" => []
     | String c s' => Lit c :: go s'
     end) s.

(** [r'.*?([\d.]+).*?'] *)
Definition chrome_version_re : pattern :=
  Pattern [Rep dot 0 false] [Rep digit_or_dot 1 true] [Rep dot 0 false].

(** [r"gecko.*(\d+\.\d+\.\d+)"] *)
Definition gecko_version_re : pattern :=
  Pattern (lits "gecko" ++ [Rep dot 0 true])
          [Rep digit 1 true; Lit "."; Rep digit 1 true; Lit "."; Rep digit 1 true]
          [].

End Re.

(** ** [installer.py] *)

Module Installer.
Import Py.

(** *** The machine the installers run on *)

(** A regular file of the file system, as far as the installers look at it:
    its execute permission, and what [subprocess.check_output] gives, decoded,
    when the file is run with its version flag. *)
Record file : Type := File {
  f_exec : bool;
  f_version : outcome string
}.

(** What a fetched URL holds: the text of the [Key] elements of an S3 bucket
    listing in document order ([None] for an element without text), a zip or
    a gzipped tar archive with its members by name, or something else. *)
Inductive body : Type :=
  | Listing (keys : list (option string))
  | Zip (members : gmap string file)
  | TarGz (members : gmap string file)
  | Unknown.

(** The response object of [urllib.request.urlopen]. *)
Record response : Type := Response {
  getcode : Z;
  geturl : string;
  read : body
}.

(** What the process cannot change: the interpreter's constants, the two
    directories [driver_dir] chooses from, already absolute, and the world
    outside (commands other than the driver, the network).
    [ntpath_join] is [os.path.join] of a Windows interpreter. *)
Record host : Type := Host {
  sys_platform : string;
  sys_maxsize : Z;
  platform_machine : string;
  cwd_abspath : string;
  module_abspath : string;
  ntpath_join : string -> string -> string;
  popen : list string -> outcome string;
  urlopen : string -> outcome response
}.

(** What [install] and [download] read and write: [os.environ], the regular
    files by path, the installer instance ([self.cwd] and the attributes
    [getattr]/[setattr] address by name), and the log of the URLs passed to
    [urlopen], latest first. *)
Record world : Type := World {
  environ : gmap string string;
  files : gmap string file;
  self_cwd : bool;
  self_dict : gmap string string;
  fetched : list string
}.

Definition set_environ (f : gmap string string -> gmap string string) (w : world) : world :=
  World (f (environ w)) (files w) (self_cwd w) (self_dict w) (fetched w).

Definition set_files (f : gmap string file -> gmap string file) (w : world) : world :=
  World (environ w) (f (files w)) (self_cwd w) (self_dict w) (fetched w).

Definition set_self_dict (f : gmap string string -> gmap string string) (w : world) : world :=
  World (environ w) (files w) (self_cwd w) (f (self_dict w)) (fetched w).

Definition log_fetch (url : string) (w : world) : world :=
  World (environ w) (files w) (self_cwd w) (self_dict w) (url :: fetched w).

(** [InstallInterface.__init__] *)
Definition init (cwd : bool) (env : gmap string string) (fs : gmap string file) : world :=
  World env fs cwd ∅ [].

(** [posixpath.join(a, b)] *)
Definition posixpath_join (a b : string) : string :=
  if startswith b "/" then b
  else if negb (truthy a) || endswith a "/" then a +:+ b
  else a +:+ "/" +:+ b.

Section Machine.

Variable h : host.

Definition is_win : bool := startswith (sys_platform h) "win".

(** [os.path.join]: [ntpath] on Windows, [posixpath] elsewhere. *)
Definition os_path_join (a b : string) : string :=
  if is_win then ntpath_join h a b else posixpath_join a b.

(** [getattr(self, name, False)], with [None] for the default. *)
Definition getattr (name : string) : M world (option string) :=
  gets (fun w => self_dict w !! name).

Definition setattr (name value : string) : M world unit :=
  modify (set_self_dict <[name := value]>).

(** [urllib.request.urlopen(url)] *)
Definition urlopen_ (url : string) : M world response :=
  fun w => (urlopen h url, log_fetch url w).

(** A path that ends in a separator names a directory, not a regular
    file. *)
Definition names_dir (path : string) : bool :=
  endswith path "/" || is_win && endswith path "\".

(** [subprocess.check_output([path, flag])] on [binary_path], the one path
    the installers run. Where that path ends in a separator it is the driver
    directory, which exists and cannot be executed: the call raises
    [PermissionError] on every platform. Otherwise the regular file there,
    if any, is run; Windows has no execute permission to refuse. *)
Definition check_output (path : string) : M world string :=
  fun w =>
    if names_dir path then (Raise (Other "PermissionError"), w)
    else
      match files w !! path with
      | None => (Raise (Other "FileNotFoundError"), w)
      | Some f =>
          if is_win || f_exec f then (f_version f, w)
          else (Raise (Other "PermissionError"), w)
      end.

(** [os.path.isfile(path)] *)
Definition isfile (path : string) : M world bool :=
  gets (fun w => bool_decide (is_Some (files w !! path))).

(** [os.access(path, os.X_OK)] *)
Definition access_x (path : string) : M world bool :=
  gets (fun w =>
    match files w !! path with
    | None => false
    | Some f => is_win || f_exec f
    end).

(** [os.chmod(path, 0o744)] *)
Definition chmod_x (path : string) : M world unit :=
  fun w =>
    match files w !! path with
    | None => (Raise (Other "FileNotFoundError"), w)
    | Some f => (Ret tt, set_files <[path := File true (f_version f)]> w)
    end.

(** [zipfile.ZipFile(archive).extract(member, dir)]: the member is written
    under [dir]; [zipfile] does not restore permissions. *)
Definition zip_extract (archive : body) (member dir : string) : M world unit :=
  match archive with
  | Zip ms =>
      match ms !! member with
      | None => raise (KeyError member)
      | Some f =>
          modify (set_files <[os_path_join dir member := File false (f_version f)]>)
      end
  | _ => raise (Other "BadZipFile")
  end.

(** [tarfile.open(fileobj=archive, mode='r:gz').extract(member, dir)]:
    [tarfile] restores the member's mode. *)
Definition tar_extract (archive : body) (member dir : string) : M world unit :=
  match archive with
  | TarGz ms =>
      match ms !! member with
      | None => raise (KeyError member)
      | Some f => modify (set_files <[os_path_join dir member := f]>)
      end
  | _ => raise (Other "ReadError")
  end.

(** *** [InstallInterface] *)

(** The methods a family overrides. [get_platform_architecture] is a static
    method; [None] is Python's [None]. *)
Record InstallInterface : Type := {
  binary_name : string;
  require_version : M world string;
  current_version : M world string;
  get_download_url : M world string;
  download : M world string;
  has_require_version : M world bool;
  get_platform_architecture : outcome (option (string * string))
}.

Definition driver_dir : M world string :=
  gets (fun w => if self_cwd w then cwd_abspath h else module_abspath h).

(** [binary_path], for the [binary_name] of the class of [self]. *)
Definition binary_path (name : string) : M world string :=
  let* d := driver_dir in
  ret (os_path_join d name).

(** The assignment of [install]: the conditional expression takes the
    whole of [self.driver_dir + ";"] as its first branch and
    [":" + os.environ['PATH']] as its second. *)
Definition extend_path (d : string) : M world unit :=
  modify (set_environ (fun env =>
    match env !! "PATH" with
    | None => <["PATH" := d]> env
    | Some path =>
        if negb (contains path d)
        then <["PATH" := if is_win then d +:+ ";" else ":" +:+ path]> env
        else env
    end)).

Definition install (self : InstallInterface) : M world string :=
  let* _ := download self in
  let* d := driver_dir in
  let* _ := extend_path d in
  binary_path (binary_name self).

End Machine.

(** *** [ChromeInstaller] *)

Module ChromeInstaller.
Section Methods.

Variable h : host.

Definition get_platform_architecture : outcome (string * string) :=
  if startswith (sys_platform h) "linux" && (2 ^ 32 <? sys_maxsize h)
  then Ret ("linux", "64")
  else if String.eqb (sys_platform h) "darwin" then Ret ("mac", "64")
  else if startswith (sys_platform h) "win" then Ret ("win", "32")
  else Raise (RuntimeError "Could not determine chromedriver download URL for this platform.").

(** ['chromedriver' + '.exe' if sys.platform.startswith('win') else '']:
    the conditional expression binds weaker than [+]. *)
Definition binary_name : string :=
  if startswith (sys_platform h) "win" then "chromedriver" +:+ ".exe" else "".

Definition binary_path : M world string := Installer.binary_path h binary_name.

(** The version text each platform's query gives. The last branch is the
    [return ''] of the source; it leaves through the same [return version]
    here, which the empty string passes without being cached. *)
Definition query_browser (platform : string) : M world string :=
  if String.eqb platform "linux" then
    let* out := lift (popen h ["chromium-browser"; "--version"]) in
    let version := strip (replace out "Chromium" "") in
    ret (strip (replace version "Google Chrome" ""))
  else if String.eqb platform "mac" then
    let* out := lift (popen h
      ["/Applications/Google Chrome.app/Contents/MacOS/Google Chrome"; "--version"]) in
    ret (strip (replace out "Google Chrome" ""))
  else if String.eqb platform "win" then
    let* out := lift (popen h
      ["reg"; "query"; "HKEY_CURRENT_USER\Software\Google\Chrome\BLBeacon";
       "/v"; "version"]) in
    lift (last (words (strip out)))
  else ret "".

Definition require_version : M world string :=
  let* cache_version := getattr "_require_version" in
  match cache_version with
  | Some v => ret v
  | None =>
      let* pa := lift get_platform_architecture in
      let* version := query_browser (fst pa) in
      let* _ := when (truthy version) (setattr "_require_version" version) in
      ret version
  end.

Definition base_url : string := "https://chromedriver.storage.googleapis.com/".

(** The [for ... else] over the [Key] elements of the listing. *)
Fixpoint scan_keys (major_version platform architecture : string)
    (keys : list (option string)) : outcome string :=
  match keys with
  | [] => Raise (Exception "not found match driver")
  | None :: _ => Raise AttributeError
  | Some text :: keys' =>
      if find text (major_version +:+ ".") =? 0
      then match first (split "/" text) with
           | Ret d => Ret (base_url +:+ d +:+ "/chromedriver_" +:+ platform
                           +:+ architecture +:+ ".zip")
           | Raise e => Raise e
           end
      else scan_keys major_version platform architecture keys'
  end.

Definition get_download_url : M world string :=
  let* pa := lift get_platform_architecture in
  let* v := require_version in
  let* major_version := lift (first (split "." v)) in
  let* doc := urlopen_ h "https://chromedriver.storage.googleapis.com" in
  match read doc with
  | Listing keys => lift (scan_keys major_version (fst pa) (snd pa) keys)
  | _ => raise (Other "ParseError")
  end.

Definition current_version : M world string :=
  let* cache_version := getattr "_current_version" in
  match cache_version with
  | Some v => ret v
  | None =>
      let* path := binary_path in
      let* out := check_output h path in
      let* version := lift (Re.match_group1 Re.chrome_version_re out) in
      let* _ := when (truthy version) (setattr "_current_version" version) in
      ret version
  end.

Definition has_require_version : M world bool :=
  let* r := require_version in
  let* a := lift (first (split "." r)) in
  let* c := current_version in
  let* b := lift (first (split "." c)) in
  ret (String.eqb a b).

Definition download : M world string :=
  let* v := require_version in
  if negb (truthy v) then raise (Exception "크롬이 설치되어 있는지 확인하세요.")
  else
    let* path := binary_path in
    let* present := isfile path in
    let* fetch :=
      (if negb present then ret true
       else let* ok := has_require_version in ret (negb ok)) in
    let* _ :=
      (if fetch then
         let* url := get_download_url in
         let* response := urlopen_ h url in
         if negb (getcode response =? 200) then raise (URLError "Not Found")
         else
           let* d := driver_dir h in
           zip_extract h (read response) binary_name d
       else ret tt) in
    let* path := binary_path in
    let* x := access_x h path in
    let* _ := when (negb x) (chmod_x path) in
    binary_path.

Definition self : InstallInterface := {|
  Installer.binary_name := binary_name;
  Installer.require_version := require_version;
  Installer.current_version := current_version;
  Installer.get_download_url := get_download_url;
  Installer.download := download;
  Installer.has_require_version := has_require_version;
  Installer.get_platform_architecture :=
    match get_platform_architecture with
    | Ret pa => Ret (Some pa)
    | Raise e => Raise e
    end
|}.

End Methods.
End ChromeInstaller.

(** *** [IeInstaller] *)

Module IeInstaller.
Section Methods.

Variable h : host.

(** The body is [pass]: the call returns [None] on every platform. *)
Definition get_platform_architecture : outcome (option (string * string)) :=
  Ret None.

Definition binary_name : string := "IEDriverServer.exe".

Definition binary_path : M world string := Installer.binary_path h binary_name.

Definition require_version : M world string := ret "3.150.1".

Definition current_version : M world string :=
  let* path := binary_path in
  let* out := check_output h path in
  lift (second (words out)).

Definition get_download_url : M world string :=
  let* v1 := require_version in
  let* v2 := require_version in
  ret ("https://selenium-release.storage.googleapis.com/" +:+ drop_last 2 v1
       +:+ "/IEDriverServer_Win32_" +:+ v2 +:+ ".zip").

Definition has_require_version : M world bool :=
  let* r := require_version in
  let* c := current_version in
  ret (String.eqb r (drop_last 2 c)).

Definition download : M world string :=
  let* path := binary_path in
  let* present := isfile path in
  let* fetch :=
    (if negb present then ret true
     else let* ok := has_require_version in ret (negb ok)) in
  let* _ :=
    (if fetch then
       let* url := get_download_url in
       let* response := urlopen_ h url in
       if negb (getcode response =? 200) then raise (URLError "Not Found")
       else
         let* d := driver_dir h in
         zip_extract h (read response) binary_name d
     else ret tt) in
  let* path := binary_path in
  let* x := access_x h path in
  let* _ := when (negb x) (chmod_x path) in
  binary_path.

Definition self : InstallInterface := {|
  Installer.binary_name := binary_name;
  Installer.require_version := require_version;
  Installer.current_version := current_version;
  Installer.get_download_url := get_download_url;
  Installer.download := download;
  Installer.has_require_version := has_require_version;
  Installer.get_platform_architecture := get_platform_architecture
|}.

End Methods.
End IeInstaller.

(** *** [FireFoxInstaller] *)

Module FireFoxInstaller.
Section Methods.

Variable h : host.

Definition binary_name : string :=
  if startswith (sys_platform h) "win" then "geckodriver" +:+ ".exe" else "".

Definition binary_path : M world string := Installer.binary_path h binary_name.

Definition require_version : M world string :=
  let* cache_version := getattr "_require_version" in
  match cache_version with
  | Some v => ret v
  | None =>
      let* response := urlopen_ h "https://github.com/mozilla/geckodriver/releases/latest" in
      let url := geturl response in
      if negb (contains url "/tag/")
      then raise (Exception "게코 드라이버 버전을 찾을 수 없음")
      else
        let* tag := lift (last (split "/" url)) in
        let* _ := setattr "_require_version" tag in
        lift (last (split "/" url))
  end.

Definition current_version : M world string :=
  let* cache_version := getattr "_current_version" in
  match cache_version with
  | Some v => ret v
  | None =>
      let* path := binary_path in
      let* out := check_output h path in
      let version := Re.findall Re.gecko_version_re out in
      if (length version =? 0)%nat
      then raise (Exception "설치된 드라이버 버전을 찾을 수 없음")
      else
        let* v0 := lift (first version) in
        let* _ := when (truthy v0) (setattr "_current_version" ("v" +:+ v0)) in
        let* v0' := lift (first version) in
        ret ("v" +:+ v0')
  end.

Definition get_platform_architecture : outcome (string * string) :=
  if startswith (sys_platform h) "linux" && (2 ^ 32 <? sys_maxsize h)
  then Ret ("linux", "64")
  else if String.eqb (sys_platform h) "darwin" then Ret ("mac", "os")
  else if startswith (sys_platform h) "win" then
    Ret ("win", if endswith (platform_machine h) "64" then "64" else "32")
  else Raise (RuntimeError "Could not determine geckodriver download URL for this platform.").

Definition get_download_url : M world string :=
  let* pa := lift get_platform_architecture in
  let compression := if String.eqb (fst pa) "win" then "zip" else "tar.gz" in
  let* v1 := require_version in
  let* v2 := require_version in
  ret ("https://github.com/mozilla/geckodriver/releases/download/" +:+ v1
       +:+ "/geckodriver-" +:+ v2 +:+ "-" +:+ fst pa +:+ snd pa +:+ "."
       +:+ compression).

Definition has_require_version : M world bool :=
  let* c := current_version in
  let* r := require_version in
  ret (String.eqb c r).

Definition download : M world string :=
  let* path := binary_path in
  let* present := isfile path in
  let* fetch :=
    (if negb present then ret true
     else let* ok := has_require_version in ret (negb ok)) in
  let* _ :=
    (if fetch then
       let* url := get_download_url in
       let* response := urlopen_ h url in
       if negb (getcode response =? 200) then raise (URLError "Not Found")
       else
         let* d := driver_dir h in
         if startswith (sys_platform h) "win"
         then zip_extract h (read response) binary_name d
         else tar_extract h (read response) binary_name d
     else ret tt) in
  let* path := binary_path in
  let* x := access_x h path in
  let* _ := when (negb x) (chmod_x path) in
  binary_path.

Definition self : InstallInterface := {|
  Installer.binary_name := binary_name;
  Installer.require_version := require_version;
  Installer.current_version := current_version;
  Installer.get_download_url := get_download_url;
  Installer.download := download;
  Installer.has_require_version := has_require_version;
  Installer.get_platform_architecture :=
    match get_platform_architecture with
    | Ret pa => Ret (Some pa)
    | Raise e => Raise e
    end
|}.

End Methods.
End FireFoxInstaller.

(** The three families. *)
Inductive family : Type := Chrome | Ie | FireFox.

Definition installer (h : host) (f : family) : InstallInterface :=
  match f with
  | Chrome => ChromeInstaller.self h
  | Ie => IeInstaller.self h
  | FireFox => FireFoxInstaller.self h
  end.

End Installer.

(** ** [helper.py] *)

Module Helper.
Import Py.

(** The values the factories store in a selenium options object. *)
Inductive value : Type :=
  | VBool (b : bool)
  | VInt (n : Z)
  | VStr (s : string)
  | VList (l : list string).

(** A selenium options object, as far as the factories touch it: the
    command-line arguments and experimental options of [ChromeOptions], the
    properties assigned on an [IeOptions], and, for [FirefoxOptions], the
    preferences of its profile and those last written to the profile's
    [user.js] by [update_preferences]. *)
Record options : Type := Options {
  arguments : list string;
  experimental_options : gmap string value;
  properties : gmap string value;
  preferences : gmap string value;
  user_js : gmap string value
}.

Definition empty_options : options := Options [] ∅ ∅ ∅ ∅.

(** The interpreter state the factories act on: each factory object, by
    address, with the options object its [_options] attribute holds; the
    lines printed; the timeout of [RemoteConnection] in seconds; and the two
    tables of preferences selenium ships for [FirefoxProfile], which are not
    part of this repository: those a new profile starts with, and the frozen
    ones that [update_preferences] puts back.

    Every factory a constructor makes holds an options object of its own,
    and the setters and [build] keep it so. Only an assignment through the
    [options] property could make two factories hold one object; the
    property is left out of this model, which holds the options by value. *)
Record world : Type := World {
  heap : gmap nat options;
  stdout : list string;
  remote_timeout : option Z;
  profile_defaults : gmap string value;
  profile_frozen : gmap string value
}.

Definition set_heap (f : gmap nat options -> gmap nat options) (w : world) : world :=
  World (f (heap w)) (stdout w) (remote_timeout w)
    (profile_defaults w) (profile_frozen w).

Definition print (line : string) : M world unit :=
  modify (fun w => World (heap w) (stdout w ++ [line]) (remote_timeout w)
                     (profile_defaults w) (profile_frozen w)).

Definition set_timeout (seconds : Z) : M world unit :=
  modify (fun w => World (heap w) (stdout w) (Some seconds)
                     (profile_defaults w) (profile_frozen w)).

(** [OptionInterface.__init__]: a new factory object whose [_options] is [o]. *)
Definition alloc (o : options) : M world nat :=
  fun w => let self := fresh (dom (heap w)) in (Ret self, set_heap <[self := o]> w).

(** [self._options], for [build]. *)
Definition read_options (self : nat) : M world options :=
  fun w =>
    match heap w !! self with
    | Some o => (Ret o, w)
    | None => (Raise AttributeError, w)
    end.

(** A call on [self._options] that updates the options object in place. *)
Definition on_options (self : nat) (f : options -> outcome options) : M world unit :=
  fun w =>
    match heap w !! self with
    | Some o =>
        match f o with
        | Ret o' => (Ret tt, set_heap <[self := o']> w)
        | Raise e => (Raise e, w)
        end
    | None => (Raise AttributeError, w)
    end.

(** selenium's [add_argument] refuses an empty argument. *)
Definition add_argument (argument : string) (o : options) : outcome options :=
  if truthy argument
  then Ret (Options (arguments o ++ [argument]) (experimental_options o)
                    (properties o) (preferences o) (user_js o))
  else Raise (Other "ValueError").

Definition add_experimental_option (name : string) (v : value) (o : options)
    : outcome options :=
  Ret (Options (arguments o) (<[name := v]> (experimental_options o))
               (properties o) (preferences o) (user_js o)).

(** An assignment to a property of an [IeOptions]. *)
Definition set_property (name : string) (v : value) (o : options) : outcome options :=
  Ret (Options (arguments o) (experimental_options o)
               (<[name := v]> (properties o)) (preferences o) (user_js o)).

(** [profile.set_preference(key, value)] *)
Definition set_preference (key : string) (v : value) (o : options) : outcome options :=
  Ret (Options (arguments o) (experimental_options o) (properties o)
               (<[key := v]> (preferences o)) (user_js o)).

(** [profile.update_preferences()]: the frozen preferences of selenium are
    put back over those of the profile, and the result is written to
    [user.js]. *)
Definition update_preferences (frozen : gmap string value) (o : options)
    : outcome options :=
  Ret (Options (arguments o) (experimental_options o) (properties o)
               (frozen ∪ preferences o) (frozen ∪ preferences o)).

Definition and_then {A B} (o : outcome A) (k : A -> outcome B) : outcome B :=
  match o with
  | Ret a => k a
  | Raise e => Raise e
  end.

(** The methods of [OptionInterface]; the setters return an object. *)
Record OptionInterface : Type := {
  new : M world nat;
  set_user_agent : nat -> string -> M world nat;
  set_start_url : nat -> string -> M world nat;
  build : nat -> M world options
}.

Module IeOptions.

Definition init_options : outcome options :=
  and_then (set_property "ignore_zoom_level" (VBool true) empty_options) (fun options =>
  and_then (set_property "ignore_protected_mode_settings" (VBool true) options) Ret).

Definition new : M world nat :=
  let* o := lift init_options in
  let* self := alloc o in
  let* _ := print "설정 -> 인터넷 옵션 -> 보안 탭의 4가지 영역 모두 보호 모드 사용 체크 확인" in
  let* _ := print "설정 -> 확대/축소 -> 100% 설정 확인" in
  ret self.

Definition notice : string := "IE는 User-Agent 변경 기능을 지원하지 않습니다.".

Definition set_user_agent (self : nat) (user_agent : string) : M world nat :=
  let* _ := print notice in
  ret self.

Definition set_start_url (self : nat) (url : string) : M world nat :=
  let* _ := on_options self (set_property "initial_browser_url" (VStr url)) in
  ret self.

Definition build (self : nat) : M world options := read_options self.

Definition class : OptionInterface :=
  Build_OptionInterface new set_user_agent set_start_url build.

End IeOptions.

Module ChromeOptions.

Definition init_options : outcome options :=
  and_then (add_argument "--disable-blink-features=AutomationControlled" empty_options)
    (fun options =>
  and_then (add_experimental_option "excludeSwitches" (VList ["enable-automation"]) options)
    (fun options =>
  and_then (add_experimental_option "useAutomationExtension" (VBool false) options) Ret)).

Definition new : M world nat :=
  let* o := lift init_options in
  let* self := alloc o in
  let* _ := set_timeout 30 in
  ret self.

Definition set_user_agent (self : nat) (user_agent : string) : M world nat :=
  let* _ := on_options self (add_argument ("user-agent=" +:+ user_agent)) in
  ret self.

Definition notice : string := "크롬은 시작페이지 설정을 지원하지 않습니다.".

Definition set_start_url (self : nat) (url : string) : M world nat :=
  let* _ := print notice in
  ret self.

Definition build (self : nat) : M world options := read_options self.

Definition class : OptionInterface :=
  Build_OptionInterface new set_user_agent set_start_url build.

End ChromeOptions.

Module FirefoxOptions.

(** [defaults] is what [webdriver.FirefoxProfile()] starts with. *)
Definition init_options (defaults : gmap string value) : outcome options :=
  and_then (set_preference "dom.webdriver.enabled" (VBool false)
              (Options [] ∅ ∅ defaults ∅))
    (fun options =>
  and_then (set_preference "useAutomationExtension" (VBool false) options) Ret).

Definition new : M world nat :=
  let* defaults := gets profile_defaults in
  let* o := lift (init_options defaults) in
  alloc o.

Definition set_user_agent (self : nat) (user_agent : string) : M world nat :=
  let* _ := on_options self (set_preference "general.useragent.override" (VStr user_agent)) in
  ret self.

Definition set_start_url (self : nat) (url : string) : M world nat :=
  let* _ := on_options self
              (set_preference "browser.startup.homepage" (VStr "https://google.com")) in
  let* _ := on_options self (set_preference "browser.startup.blankWindow" (VBool false)) in
  let* _ := on_options self (set_preference "browser.startup.page" (VInt 1)) in
  ret self.

Definition build (self : nat) : M world options :=
  let* frozen := gets profile_frozen in
  let* _ := on_options self (update_preferences frozen) in
  read_options self.

Definition class : OptionInterface :=
  Build_OptionInterface new set_user_agent set_start_url build.

End FirefoxOptions.

(** The three variants. *)
Inductive variant : Type := Ie | Chrome | Firefox.

Definition factory (v : variant) : OptionInterface :=
  match v with
  | Ie => IeOptions.class
  | Chrome => ChromeOptions.class
  | Firefox => FirefoxOptions.class
  end.

(** The operations a variant reports as unsupported. *)
Definition unsupported_user_agent (v : variant) : option string :=
  match v with
  | Ie => Some IeOptions.notice
  | _ => None
  end.

Definition unsupported_start_url (v : variant) : option string :=
  match v with
  | Chrome => Some ChromeOptions.notice
  | _ => None
  end.

End Helper.

(** ** The vocabulary of the specification *)

Module Spec.
Import Py.

(** The leading segment of a version: the text before the first [sep], and
    the whole text when there is none. *)
Fixpoint up_to (sep : ascii) (s : string) : string :=
  match s with
  | "" => ""
  | String c s' => if Ascii.eqb c sep then "" else String c (up_to sep s')
  end.

(** [s] is [p] followed by exactly two more characters. *)
Definition two_more (p s : string) : Prop :=
  exists a b : ascii, s = p +:+ String a (String b "").

(** Every character of [s] is in the class [cls]. *)
Fixpoint all (cls : ascii -> bool) (s : string) : bool :=
  match s with
  | "" => true
  | String c s' => cls c && all cls s'
  end.

(** The texts an atom of a pattern matches, and those a sequence of atoms
    matches: whatever the order in which a matcher tries them. *)
Inductive matches_atom : Re.atom -> string -> Prop :=
  | matches_lit (c : ascii) : matches_atom (Re.Lit c) (String c "")
  | matches_rep (cls : ascii -> bool) (min : nat) (greedy : bool) (m : string) :
      all cls m = true -> (min <= String.length m)%nat ->
      matches_atom (Re.Rep cls min greedy) m.

Inductive matches : list Re.atom -> string -> Prop :=
  | matches_nil : matches [] ""
  | matches_cons (a : Re.atom) (p : list Re.atom) (m1 m2 : string) :
      matches_atom a m1 -> matches p m2 -> matches (a :: p) (m1 +:+ m2).

(** One or more decimal digits. *)
Definition digits (s : string) : Prop :=
  (1 <= String.length s)%nat /\ all Re.digit s = true.

(** [digits.digits.digits] *)
Definition dotted_version (v : string) : Prop :=
  exists a b c : string,
    v = a +:+ "." +:+ b +:+ "." +:+ c /\ digits a /\ digits b /\ digits c.

(** [ver] is a dotted version that follows ["gecko"] on one line of [out]. *)
Definition follows_gecko (out ver : string) : Prop :=
  exists pre mid post : string,
    out = pre +:+ "gecko" +:+ mid +:+ ver +:+ post
    /\ all Re.dot mid = true
    /\ dotted_version ver.

(** The path [binary_path] gives in the state [w] for a binary named [name]. *)
Definition path_in (h : Installer.host) (name : string) (w : Installer.world) : string :=
  Installer.os_path_join h
    (if Installer.self_cwd w then Installer.cwd_abspath h else Installer.module_abspath h)
    name.

(** The instance has a required version cached. *)
Definition require_cached (w : Installer.world) : Prop :=
  is_Some (Installer.self_dict w !! "_require_version").

(** The instance has the required version [v] cached. *)
Definition require_is (v : string) (w : Installer.world) : Prop :=
  Installer.self_dict w !! "_require_version" = Some v.

(** What a method that fetches nothing leaves as it was: the files, the
    mode of the instance and the log of fetches. *)
Definition quiet (w0 w : Installer.world) : Prop :=
  Installer.files w = Installer.files w0
  /\ Installer.self_cwd w = Installer.self_cwd w0
  /\ Installer.fetched w = Installer.fetched w0.

(** [p] names the directory [d]: it is [d], with or without a separator at
    its end. *)
Definition names_directory (d p : string) : Prop :=
  p = d \/ p = d +:+ "/".

(** The platforms the installers recognise, as [sys.platform] and
    [sys.maxsize] tell them apart. *)
Definition linux64 (h : Installer.host) : Prop :=
  startswith (Installer.sys_platform h) "linux" = true
  /\ 2 ^ 32 < Installer.sys_maxsize h.

Definition darwin (h : Installer.host) : Prop :=
  Installer.sys_platform h = "darwin".

Definition win (h : Installer.host) : Prop :=
  startswith (Installer.sys_platform h) "win" = true.

Definition supported (h : Installer.host) : Prop :=
  linux64 h \/ darwin h \/ win h.

(** What no method of an installer does to the state [w0] it starts from:
    the environment and the mode of the instance stay, the log of fetches
    is only added to, and no attribute of the instance is removed. *)
Definition outside (w0 w : Installer.world) : Prop :=
  Installer.environ w = Installer.environ w0
  /\ Installer.self_cwd w = Installer.self_cwd w0
  /\ (exists urls, Installer.fetched w = urls ++ Installer.fetched w0)
  /\ dom (Installer.self_dict w0) ⊆ dom (Installer.self_dict w).

(** Every attribute the instance had in [w0] it still has in [w], with the
    value it had. *)
Definition kept_cache (w0 w : Installer.world) : Prop :=
  forall name value,
    Installer.self_dict w0 !! name = Some value ->
    Installer.self_dict w !! name = Some value.

(** The files of [w] are those of [w0] except, at most, the one at [path]. *)
Definition files_but (path : string) (w0 w : Installer.world) : Prop :=
  forall q, q <> path -> Installer.files w !! q = Installer.files w0 !! q.

(** The instance is in the mode it had in [w0], and the disk is as in [w0]
    but for the driver named [name]. *)
Definition only_driver (h : Installer.host) (name : string)
    (w0 w : Installer.world) : Prop :=
  Installer.self_cwd w = Installer.self_cwd w0
  /\ files_but (path_in h name w0) w0 w.

(** The longest prefix of [s] in the class [cls]. *)
Fixpoint span (cls : ascii -> bool) (s : string) : string :=
  match s with
  | "" => ""
  | String c s' => if cls c then String c (span cls s') else ""
  end.

(** The first run of digits and dots on the first line of [s]; there is
    none when the line ends, or the text, before a digit or a dot. *)
Fixpoint first_version (s : string) : option string :=
  match s with
  | "" => None
  | String c s' =>
      if Re.digit_or_dot c then Some (span Re.digit_or_dot s)
      else if Re.dot c then first_version s'
      else None
  end.

(** The first suffix of [s] that [g] accepts, going over characters of
    the class [cls] only. *)
Fixpoint first_accept {R} (cls : ascii -> bool) (g : string -> option R) (s : string)
    : option R :=
  match g s with
  | Some x => Some x
  | None =>
      match s with
      | String c s' => if cls c then first_accept cls g s' else None
      | "" => None
      end
  end.

(** What the group of the Chrome pattern and what follows it make of the
    text they start at. *)
Definition chrome_group (r0 : string) : option (string * string) :=
  Re.run (Re.group Re.chrome_version_re) r0 (fun g r1 =>
    Re.run (Re.after Re.chrome_version_re) r1 (fun _ r2 => Some (g, r2))).

(** What follows the longest prefix of [s] in the class [cls]. *)
Fixpoint past (cls : ascii -> bool) (s : string) : string :=
  match s with
  | "" => ""
  | String c s' => if cls c then past cls s' else s
  end.

(** A number at the start of [s]: its digits, as many as there are, and
    what follows them. *)
Definition number (s : string) : option (string * string) :=
  match span Re.digit s with
  | "" => None
  | a => Some (a, past Re.digit s)
  end.

(** What follows a ['.'] at the start of [s]. *)
Definition point (s : string) : option string :=
  match s with
  | String c s' => if Ascii.eqb "." c then Some s' else None
  | "" => None
  end.

(** The text [digits.digits.digits] at the start of [s], each number as
    long as it can be. *)
Definition dotted_prefix (s : string) : option string :=
  '(a, s1) ← number s; s2 ← point s1;
  '(b, s3) ← number s2; s4 ← point s3;
  '(c, _) ← number s4;
  Some (a +:+ "." +:+ b +:+ "." +:+ c).

(** The dotted version that starts last on the first line of [s]: a later
    start is preferred to an earlier one, and no start is looked for past
    the end of the line. *)
Fixpoint last_dotted (s : string) : option string :=
  match s with
  | "" => None
  | String c s' =>
      match (if Re.dot c then last_dotted s' else None) with
      | Some v => Some v
      | None => dotted_prefix s
      end
  end.

(** What follows the prefix [p] of [s]. *)
Fixpoint after_prefix (p s : string) {struct p} : option string :=
  match p with
  | "" => Some s
  | String c p' =>
      match s with
      | String c' s' => if Ascii.eqb c c' then after_prefix p' s' else None
      | "" => None
      end
  end.

(** The version of the first ["gecko"] in [s] that has a dotted version
    after it on its line: the dotted version that starts last there. *)
Fixpoint gecko_version (s : string) : option string :=
  match after_prefix "gecko" s ≫= last_dotted with
  | Some v => Some v
  | None =>
      match s with
      | "" => None
      | String _ s' => gecko_version s'
      end
  end.


(** [t] has no character [sep]. *)
Definition free_of (sep : ascii) (t : string) : Prop :=
  all (fun c => negb (Ascii.eqb c sep)) t = true.

End Spec.

(** ** Scenarios: concrete machines to run the model on *)

Module Scenario.
Import Py Installer.

(** A Windows machine: the drivers live in [C:\drivers], which gives
    [os.path.join] nothing to do but put a backslash in between. *)
Definition windows : host := {|
  sys_platform := "win32";
  sys_maxsize := 2 ^ 63 - 1;
  platform_machine := "AMD64";
  cwd_abspath := "C:\drivers";
  module_abspath := "C:\site-packages\driverutils";
  ntpath_join := fun a b => a +:+ "\" +:+ b;
  popen := fun _ => Ret "
HKEY_CURRENT_USER\Software\Google\Chrome\BLBeacon
    version    REG_SZ    114.0.5735.199

";
  urlopen := fun _ => Raise (URLError "unreachable")
|}.

(** The same machine without the browser: the registry query finds no key
    and prints nothing on its standard output. *)
Definition windows_no_chrome : host := {|
  sys_platform := sys_platform windows;
  sys_maxsize := sys_maxsize windows;
  platform_machine := platform_machine windows;
  cwd_abspath := cwd_abspath windows;
  module_abspath := module_abspath windows;
  ntpath_join := ntpath_join windows;
  popen := fun _ => Ret "";
  urlopen := urlopen windows
|}.

(** What the registry query prints on the first machine. *)
Definition reg_query : string := "
HKEY_CURRENT_USER\Software\Google\Chrome\BLBeacon
    version    REG_SZ    114.0.5735.199

".

Definition ie_driver : file :=
  File true (Ret "IEDriverServer.exe 3.150.1.0 (32-bit)").

Definition chrome_driver : file :=
  File true (Ret "ChromeDriver 114.0.5735.90 (386bc09e8f4f-refs/branch-heads/5735)").

(** An instance in current-directory mode with both versions cached, next
    to a downloaded IE driver. *)
Definition cached : world :=
  set_self_dict
    (fun d => <["_require_version" := "114.0.5735.199"]>
              (<["_current_version" := "114.0.5735.90"]> d))
    (init true (<["PATH" := "C:\Windows\system32;C:\Windows"]> ∅)
       (<["C:\drivers\IEDriverServer.exe" := ie_driver]> ∅)).

(** A 64-bit Linux machine whose browser command prints nothing on its
    standard output. *)
Definition linux : host := {|
  sys_platform := "linux";
  sys_maxsize := 2 ^ 63 - 1;
  platform_machine := "x86_64";
  cwd_abspath := "/opt/drivers";
  module_abspath := "/usr/lib/python3/site-packages/driverutils";
  ntpath_join := fun a b => a +:+ "\" +:+ b;
  popen := fun _ => Ret "";
  urlopen := fun _ => Raise (URLError "unreachable")
|}.

(** A Mac without the browser: its version command cannot be started. *)
Definition mac : host := {|
  sys_platform := "darwin";
  sys_maxsize := 2 ^ 63 - 1;
  platform_machine := "arm64";
  cwd_abspath := "/opt/drivers";
  module_abspath := "/usr/lib/python3/site-packages/driverutils";
  ntpath_join := fun a b => a +:+ "\" +:+ b;
  popen := fun _ => Raise (Other "FileNotFoundError");
  urlopen := fun _ => Raise (URLError "unreachable")
|}.

(** A platform none of the installers knows. *)
Definition solaris : host := {|
  sys_platform := "sunos5";
  sys_maxsize := 2 ^ 63 - 1;
  platform_machine := "sun4v";
  cwd_abspath := "/opt/drivers";
  module_abspath := "/usr/lib/python3/site-packages/driverutils";
  ntpath_join := fun a b => a +:+ "\" +:+ b;
  popen := fun _ => Raise (Other "FileNotFoundError");
  urlopen := fun _ => Raise (URLError "unreachable")
|}.

(** The bucket of driver releases, answering with the listing [keys]. *)
Definition bucket_url : string := "https://chromedriver.storage.googleapis.com".

Definition bucket (keys : list (option string)) (url : string) : outcome response :=
  if String.eqb url bucket_url
  then Ret (Response 200 url (Listing keys))
  else Raise (URLError "unreachable").

(** A 64-bit Linux machine that reaches the bucket. *)
Definition linux_online (keys : list (option string)) : host := {|
  sys_platform := "linux";
  sys_maxsize := 2 ^ 63 - 1;
  platform_machine := "x86_64";
  cwd_abspath := "/opt/drivers";
  module_abspath := "/usr/lib/python3/site-packages/driverutils";
  ntpath_join := fun a b => a +:+ "\" +:+ b;
  popen := fun _ => Ret "Google Chrome 114.0.5735.90 ";
  urlopen := bucket keys
|}.

(** A listing in which the release asked for comes first among those of
    its major version, and one in which another release of that major
    version precedes it. *)
Definition listing_exact : list (option string) :=
  [Some "113.0.5672.63/chromedriver_linux64.zip";
   Some "114.0.5735.90/chromedriver_linux64.zip";
   Some "114.0.5735.90/chromedriver_mac64.zip"].

Definition listing_earlier : list (option string) :=
  [Some "114.0.5735.16/chromedriver_linux64.zip";
   Some "114.0.5735.90/chromedriver_linux64.zip"].

(** A new instance in current-directory mode with nothing on disk. *)
Definition empty_disk : world := init true (<["PATH" := "/usr/bin:/bin"]> ∅) ∅.

(** The Windows machine with a Chrome driver of the browser's major
    version already in the current directory. *)
Definition chrome_installed : world :=
  init true (<["PATH" := "C:\Windows\system32;C:\Windows"]> ∅)
    (<["C:\drivers\chromedriver.exe" := chrome_driver]> ∅).

(** A Linux machine that reaches the release of the IE driver. *)
Definition ie_release (url : string) : outcome response :=
  if String.eqb url
       "https://selenium-release.storage.googleapis.com/3.150/IEDriverServer_Win32_3.150.1.zip"
  then Ret (Response 200 url (Zip (<["IEDriverServer.exe" := ie_driver]> ∅)))
  else Raise (URLError "unreachable").

Definition linux_ie : host := {|
  sys_platform := "linux";
  sys_maxsize := 2 ^ 63 - 1;
  platform_machine := "x86_64";
  cwd_abspath := "/opt/drivers";
  module_abspath := "/usr/lib/python3/site-packages/driverutils";
  ntpath_join := fun a b => a +:+ "\" +:+ b;
  popen := fun _ => Raise (Other "FileNotFoundError");
  urlopen := ie_release
|}.

(** The Windows machine on line: the bucket lists one release of the
    browser's major version, and serves its archive. *)
Definition chrome_release (url : string) : outcome response :=
  if String.eqb url bucket_url
  then Ret (Response 200 url (Listing [Some "114.0.5735.90/chromedriver_win32.zip"]))
  else if String.eqb url
            "https://chromedriver.storage.googleapis.com/114.0.5735.90/chromedriver_win32.zip"
  then Ret (Response 200 url (Zip (<["chromedriver.exe" := chrome_driver]> ∅)))
  else Raise (URLError "unreachable").

Definition windows_online : host := {|
  sys_platform := sys_platform windows;
  sys_maxsize := sys_maxsize windows;
  platform_machine := platform_machine windows;
  cwd_abspath := cwd_abspath windows;
  module_abspath := module_abspath windows;
  ntpath_join := ntpath_join windows;
  popen := popen windows;
  urlopen := chrome_release
|}.

(** A new instance in current-directory mode, no driver on disk. *)
Definition no_driver : world :=
  init true (<["PATH" := "C:\Windows\system32;C:\Windows"]> ∅) ∅.

(** The state a first [download] of the Chrome family leaves there. *)
Definition downloaded : world :=
  snd (ChromeInstaller.download windows_online no_driver).

(** A Linux machine for which the latest gecko release resolves to the tag
    v0.30.0. *)
Definition gecko_latest (url : string) : outcome response :=
  if String.eqb url "https://github.com/mozilla/geckodriver/releases/latest"
  then Ret (Response 200 "https://github.com/mozilla/geckodriver/releases/tag/v0.30.0"
              Unknown)
  else Raise (URLError "unreachable").

Definition firefox_online : host := {|
  sys_platform := "linux";
  sys_maxsize := 2 ^ 63 - 1;
  platform_machine := "x86_64";
  cwd_abspath := "/opt/drivers";
  module_abspath := "/usr/lib/python3/site-packages/driverutils";
  ntpath_join := fun a b => a +:+ "\" +:+ b;
  popen := fun _ => Raise (Other "FileNotFoundError");
  urlopen := gecko_latest
|}.

(** A Linux machine with Chrome 114 that reaches the bucket and the
    archive of the Linux driver, whose one member is [chromedriver]. *)
Definition chrome_linux_release (url : string) : outcome response :=
  if String.eqb url bucket_url
  then Ret (Response 200 url (Listing [Some "114.0.5735.90/chromedriver_linux64.zip"]))
  else if String.eqb url
            "https://chromedriver.storage.googleapis.com/114.0.5735.90/chromedriver_linux64.zip"
  then Ret (Response 200 url (Zip (<["chromedriver" := chrome_driver]> ∅)))
  else Raise (URLError "unreachable").

Definition linux_chrome : host := {|
  sys_platform := "linux";
  sys_maxsize := 2 ^ 63 - 1;
  platform_machine := "x86_64";
  cwd_abspath := "/opt/drivers";
  module_abspath := "/usr/lib/python3/site-packages/driverutils";
  ntpath_join := fun a b => a +:+ "\" +:+ b;
  popen := fun _ => Ret "Google Chrome 114.0.5735.90 ";
  urlopen := chrome_linux_release
|}.

(** Two of the preferences a new profile of selenium starts with, and one
    of its frozen ones. *)
Definition selenium_defaults : gmap string Helper.value :=
  <["browser.startup.homepage" := Helper.VStr "about:blank"]>
    (<["browser.startup.page" := Helper.VInt 0]> ∅).

Definition selenium_frozen : gmap string Helper.value :=
  <["browser.shell.checkDefaultBrowser" := Helper.VBool false]> ∅.

(** The interpreter before any factory is made. *)
Definition fresh_interpreter : Helper.world :=
  Helper.World ∅ [] None selenium_defaults selenium_frozen.

(** An interpreter with one factory, at address 0. *)
Definition one_factory : Helper.world :=
  Helper.World (<[0%nat := Helper.empty_options]> ∅) [] None
    selenium_defaults selenium_frozen.

(** A Windows machine with a gecko driver in the current directory. *)
Definition gecko_driver : file :=
  File true (Ret "geckodriver 0.30.0 (d372710b98a6 2021-09-16 10:29 +0300)

The source code of this program is available from
testing/geckodriver in https://hg.mozilla.org/mozilla-central.").

Definition with_gecko : world :=
  init true (<["PATH" := "C:\Windows\system32;C:\Windows"]> ∅)
    (<["C:\drivers\geckodriver.exe" := gecko_driver]> ∅).

(** The same machine with a gecko driver of version 10.31.0, on an instance
    that has the release tag of that version cached. *)
Definition gecko_banner_tail : string := " (b617178ef491 2022-04-06 11:57 +0000)

The source code of this program is available from
testing/geckodriver in https://hg.mozilla.org/mozilla-central.".

Definition gecko_banner_10 : string := "geckodriver 10.31.0" +:+ gecko_banner_tail.

Definition with_gecko_10 : world :=
  set_self_dict <["_require_version" := "v10.31.0"]>
    (init true (<["PATH" := "C:\Windows\system32;C:\Windows"]> ∅)
       (<["C:\drivers\geckodriver.exe" := File true (Ret gecko_banner_10)]> ∅)).

End Scenario.

(** ** Facts about the [str] methods *)

Module PyFacts.
Import Py.

Lemma app_cons (c : ascii) (s t : string) : String c s +:+ t = String c (s +:+ t).
Proof. reflexivity. Qed.

Lemma app_empty (t : string) : "" +:+ t = t.
Proof. reflexivity. Qed.

Lemma app_empty_r (s : string) : s +:+ "" = s.
Proof.
  induction s as [|c s IH]; [reflexivity|]. rewrite app_cons, IH. reflexivity.
Qed.

Lemma app_assoc (s t u : string) : (s +:+ t) +:+ u = s +:+ t +:+ u.
Proof.
  induction s as [|c s IH]; [reflexivity|]. rewrite !app_cons, IH. reflexivity.
Qed.

Lemma startswith_app (p t : string) : startswith (p +:+ t) p = true.
Proof.
  induction p as [|a p IH]; [reflexivity|].
  rewrite app_cons. cbn. rewrite Ascii.eqb_refl. exact IH.
Qed.

Lemma startswith_inv (s p : string) :
  startswith s p = true -> exists t, s = p +:+ t.
Proof.
  revert s. induction p as [|a p IH]; intros s H.
  - exists s. reflexivity.
  - destruct s as [|b s]; [discriminate|]. cbn in H.
    destruct (Ascii.eqb a b) eqn:E; [|discriminate].
    apply Ascii.eqb_eq in E. subst b.
    destruct (IH _ H) as [t ->]. exists t. reflexivity.
Qed.

Lemma find_from_range (s sub : string) (i : Z) :
  find_from s sub i = -1 \/ i <= find_from s sub i.
Proof.
  revert i. induction s as [|c s IH]; intros i; cbn.
  - destruct (startswith "" sub); lia.
  - destruct (startswith (String c s) sub); [lia|].
    destruct (IH (i + 1)); lia.
Qed.

(** [s.find(sub) == 0] is [s.startswith(sub)]. *)
Lemma find_zero (s sub : string) :
  (find s sub =? 0) = startswith s sub.
Proof.
  unfold find. destruct s as [|c s]; cbn.
  - destruct (startswith "" sub); reflexivity.
  - destruct (startswith (String c s) sub); [reflexivity|].
    destruct (find_from_range s sub (0 + 1)) as [H|H]; rewrite ?H; lia.
Qed.

Lemma split_cons (sep : ascii) (s : string) :
  exists x xs, split sep s = x :: xs.
Proof.
  induction s as [|c s [x [xs IH]]]; cbn; [eauto|].
  destruct (Ascii.eqb c sep); [eauto|]. rewrite IH. eauto.
Qed.

(** [s.split(sep)[0]] never raises and is the text before the first [sep]. *)
Lemma first_split (sep : ascii) (s : string) :
  first (split sep s) = Ret (Spec.up_to sep s).
Proof.
  induction s as [|c s IH]; cbn; [reflexivity|].
  destruct (Ascii.eqb c sep); [reflexivity|].
  destruct (split sep s) as [|x xs]; cbn in *; [discriminate|].
  congruence.
Qed.

Lemma last_cons_ret {A} (x : A) (l : list A) : exists y, last (x :: l) = Ret y.
Proof.
  revert x. induction l as [|z l IH]; intros x; [eauto|].
  destruct (IH z) as [y Hy]. exists y. exact Hy.
Qed.

(** [s.split(sep)[-1]] never raises. *)
Lemma last_split (sep : ascii) (s : string) : exists y, last (split sep s) = Ret y.
Proof. destruct (split_cons sep s) as [x [xs ->]]. apply last_cons_ret. Qed.

Lemma length_app (s t : string) :
  String.length (s +:+ t) = (String.length s + String.length t)%nat.
Proof.
  induction s as [|c s IH]; [reflexivity|].
  rewrite app_cons. cbn. rewrite IH. reflexivity.
Qed.

Lemma take_app (p t : string) : take (String.length p) (p +:+ t) = p.
Proof.
  induction p as [|c p IH]; [destruct t; reflexivity|].
  rewrite app_cons. cbn. rewrite IH. reflexivity.
Qed.

Lemma take_split (n : nat) (s : string) :
  exists t, s = take n s +:+ t /\ String.length t = (String.length s - n)%nat.
Proof.
  revert s. induction n as [|n IH]; intros s.
  - exists s. split; [reflexivity|]. cbn. lia.
  - destruct s as [|c s]; [exists ""; split; reflexivity|].
    destruct (IH s) as [t [E L]]. exists t. cbn. rewrite app_cons.
    split; [congruence|exact L].
Qed.

(** [s[:-2]] is [p] exactly when [s] is [p] and two more characters, or
    when both are too short to tell. *)
Lemma drop_last_two_more (p s : string) :
  (2 <= String.length s)%nat -> (drop_last 2 s = p <-> Spec.two_more p s).
Proof.
  intros L. split.
  - intros <-. unfold drop_last.
    destruct (take_split (String.length s - 2) s) as [t [E Lt]].
    destruct t as [|a [|b [|c t]]]; cbn in Lt; try lia.
    exists a, b. exact E.
  - intros [a [b ->]]. unfold drop_last. rewrite length_app. cbn.
    replace (String.length p + 2 - 2)%nat with (String.length p) by lia.
    apply take_app.
Qed.

Lemma drop_last_short (n : nat) (s : string) :
  (String.length s <= n)%nat -> drop_last n s = "".
Proof.
  intros L. unfold drop_last.
  replace (String.length s - n)%nat with 0%nat by lia. destruct s; reflexivity.
Qed.

Example split_version : split "." "114.0.5735.90" = ["114"; "0"; "5735"; "90"].
Proof. reflexivity. Qed.

Example split_empty : split "." "" = [""].
Proof. reflexivity. Qed.

Example replace_chromium :
  strip (replace "Chromium 114.0.5735.90 snap" "Chromium" "") = "114.0.5735.90 snap".
Proof. reflexivity. Qed.

Example words_reg :
  words "   version    REG_SZ    114.0.5735.199
" = ["version"; "REG_SZ"; "114.0.5735.199"].
Proof. reflexivity. Qed.

Example drop_last_one_char : drop_last 2 "7" = "".
Proof. reflexivity. Qed.

(** *** Blank text *)

Lemma lstrip_blank (s : string) : Spec.all isspace s = true -> lstrip s = "".
Proof.
  induction s as [|c s IH]; [reflexivity|]. cbn. intros [C A]%andb_prop.
  rewrite C. auto.
Qed.

Lemma strip_blank (s : string) : Spec.all isspace s = true -> strip s = "".
Proof. intros A. unfold strip. rewrite (lstrip_blank s A). reflexivity. Qed.

(** Replacing a word in blank text leaves it as it is. *)
Lemma replace_blank (s new : string) (x : ascii) (old : string) :
  isspace x = false -> Spec.all isspace s = true ->
  replace s (String x old) new = s.
Proof.
  intros X. unfold replace. induction s as [|c s IH]; [reflexivity|].
  cbn. intros [C A]%andb_prop.
  destruct (Ascii.eqb_spec x c) as [->|_]; [congruence|].
  rewrite (IH A). reflexivity.
Qed.

End PyFacts.

(** ** Soundness of the matcher *)

Module ReFacts.
Import Py Re Spec PyFacts.

Section Sound.

Context {R : Type}.
Implicit Types (k : string -> string -> option R) (x : R).

Lemma stop_sound min s k x :
  stop min s k = Some x -> min = 0%nat /\ k "" s = Some x.
Proof. destruct min; [auto|discriminate]. Qed.

Lemma rep_greedy_sound cls min s k x :
  rep_greedy cls min s k = Some x ->
  exists m r, s = m +:+ r /\ matches_atom (Rep cls min true) m /\ k m r = Some x.
Proof.
  revert min k. induction s as [|c s IH]; intros min k H; cbn in H.
  - apply stop_sound in H as [-> H]. exists "", "".
    split; [reflexivity|]. split; [constructor; [reflexivity|cbn; lia]|exact H].
  - assert (Stop : stop min (String c s) k = Some x ->
      exists m r, String c s = m +:+ r /\ matches_atom (Rep cls min true) m
                  /\ k m r = Some x).
    { intros [-> E]%stop_sound. exists "", (String c s).
      split; [reflexivity|]. split; [constructor; [reflexivity|cbn; lia]|exact E]. }
    destruct (cls c) eqn:C; [|auto].
    destruct (rep_greedy cls (Nat.pred min) s _) as [y|] eqn:G; [|auto].
    inversion H; subst y; clear H.
    apply IH in G as [m [r [-> [M K]]]]. inversion M; subst.
    exists (String c m), r. split; [reflexivity|].
    split; [|exact K]. constructor; cbn; [rewrite C; assumption|lia].
Qed.

Lemma rep_lazy_sound cls min s k x :
  rep_lazy cls min s k = Some x ->
  exists m r, s = m +:+ r /\ matches_atom (Rep cls min false) m /\ k m r = Some x.
Proof.
  revert min k. induction s as [|c s IH]; intros min k H; cbn in H.
  - destruct (stop min "" k) as [y|] eqn:E; [|discriminate].
    inversion H; subst y. apply stop_sound in E as [-> E]. exists "", "".
    split; [reflexivity|]. split; [constructor; [reflexivity|cbn; lia]|exact E].
  - destruct (stop min (String c s) k) as [y|] eqn:E.
    + inversion H; subst y. apply stop_sound in E as [-> E].
      exists "", (String c s).
      split; [reflexivity|]. split; [constructor; [reflexivity|cbn; lia]|exact E].
    + destruct (cls c) eqn:C; [|discriminate].
      apply IH in H as [m [r [-> [M K]]]]. inversion M; subst.
      exists (String c m), r. split; [reflexivity|].
      split; [|exact K]. constructor; cbn; [rewrite C; assumption|lia].
Qed.

Lemma rep_sound cls min (g : bool) s k x :
  (if g then rep_greedy cls min s k else rep_lazy cls min s k) = Some x ->
  exists m r, s = m +:+ r /\ matches_atom (Rep cls min g) m /\ k m r = Some x.
Proof. destruct g; [apply rep_greedy_sound|apply rep_lazy_sound]. Qed.

End Sound.

Lemma run_sound {R} (p : list atom) (s : string)
    (k : string -> string -> option R) (x : R) :
  run p s k = Some x ->
  exists m r, s = m +:+ r /\ matches p m /\ k m r = Some x.
Proof.
  revert s k. induction p as [|a p IH]; intros s k H; cbn in H.
  - exists "", s. split; [reflexivity|]. split; [constructor|exact H].
  - destruct a as [c|cls min g].
    + destruct s as [|c' s]; [discriminate|].
      destruct (Ascii.eqb_spec c c') as [<-|]; [|discriminate].
      apply IH in H as [m [r [-> [M K]]]].
      exists (String c m), r. split; [reflexivity|]. split; [|exact K].
      apply (matches_cons (Lit c) p (String c "") m); [constructor|exact M].
    + apply rep_sound in H as [m1 [r1 [-> [M1 H]]]].
      apply IH in H as [m2 [r2 [-> [M2 K]]]].
      exists (m1 +:+ m2), r2. split; [symmetry; apply app_assoc|].
      split; [constructor; assumption|exact K].
Qed.

(** A match found by [match_here] is a match: the input is text of the
    three parts of the pattern, the group's being the text returned,
    followed by the rest returned. *)
Lemma match_here_sound (p : pattern) (s g r : string) :
  match_here p s = Some (g, r) ->
  exists m0 m2,
    s = m0 +:+ g +:+ m2 +:+ r
    /\ matches (before p) m0 /\ matches (group p) g /\ matches (after p) m2.
Proof.
  unfold match_here. intros H.
  apply run_sound in H as [m0 [r0 [-> [M0 H]]]].
  apply run_sound in H as [g' [r1 [-> [M1 H]]]].
  apply run_sound in H as [m2 [r2 [-> [M2 H]]]].
  inversion H; subst. eauto 10.
Qed.

Lemma findall_from_sound (fuel : nat) (p : pattern) (s x : string) :
  x ∈ findall_from fuel p s ->
  exists pre m0 m2 post,
    s = pre +:+ m0 +:+ x +:+ m2 +:+ post
    /\ matches (before p) m0 /\ matches (group p) x /\ matches (after p) m2.
Proof.
  revert s. induction fuel as [|fuel IH]; intros s H; cbn [findall_from] in H.
  - apply elem_of_nil in H. contradiction.
  - assert (Next : x ∈ match advance s with
                       | Some s2 => findall_from fuel p s2
                       | None => []
                       end ->
      exists pre m0 m2 post,
        s = pre +:+ m0 +:+ x +:+ m2 +:+ post
        /\ matches (before p) m0 /\ matches (group p) x /\ matches (after p) m2).
    { destruct s as [|c s]; cbn; [intros []%elem_of_nil|].
      intros (pre & m0 & m2 & post & -> & M)%IH.
      exists (String c pre), m0, m2, post. split; [reflexivity|exact M]. }
    destruct (match_here p s) as [[g r]|] eqn:E; [|auto].
    apply elem_of_cons in H as [->|H].
    + apply match_here_sound in E as (m0 & m2 & -> & M).
      exists "", m0, m2, r. split; [reflexivity|exact M].
    + destruct (_ <? _)%nat; [|auto].
      apply match_here_sound in E as (m0 & m2 & -> & _).
      apply IH in H as (pre & m0' & m2' & post & -> & M).
      exists (m0 +:+ g +:+ m2 +:+ pre), m0', m2', post.
      split; [|exact M]. rewrite !app_assoc. reflexivity.
Qed.

Lemma findall_sound (p : pattern) (s x : string) :
  x ∈ findall p s ->
  exists pre m0 m2 post,
    s = pre +:+ m0 +:+ x +:+ m2 +:+ post
    /\ matches (before p) m0 /\ matches (group p) x /\ matches (after p) m2.
Proof. apply findall_from_sound. Qed.

Lemma matches_nil_inv (m : string) : matches [] m -> m = "".
Proof. inversion 1. reflexivity. Qed.

Lemma matches_cons_inv (a : atom) (p : list atom) (m : string) :
  matches (a :: p) m ->
  exists m1 m2, m = m1 +:+ m2 /\ matches_atom a m1 /\ matches p m2.
Proof. inversion 1; subst. eauto. Qed.

Lemma matches_lit_inv (c : ascii) (m : string) :
  matches_atom (Lit c) m -> m = String c "".
Proof. inversion 1. reflexivity. Qed.

Lemma matches_rep_inv (cls : ascii -> bool) (min : nat) (g : bool) (m : string) :
  matches_atom (Rep cls min g) m ->
  all cls m = true /\ (min <= String.length m)%nat.
Proof. inversion 1; subst. auto. Qed.

Ltac invert_matches :=
  repeat match goal with
  | H : matches [] _ |- _ => apply matches_nil_inv in H as ->
  | H : matches (_ :: _) _ |- _ =>
      apply matches_cons_inv in H as (? & ? & -> & ? & ?)
  | H : matches_atom (Lit _) _ |- _ => apply matches_lit_inv in H as ->
  | H : matches_atom (Rep _ _ _) _ |- _ => apply matches_rep_inv in H as [? ?]
  end.

Lemma gecko_group_dotted (g : string) :
  matches (group gecko_version_re) g -> dotted_version g.
Proof.
  unfold gecko_version_re. cbn [group]. intros H. invert_matches.
  rewrite app_empty_r. unfold dotted_version, digits. eauto 10.
Qed.

Lemma gecko_before_line (m0 : string) :
  matches (before gecko_version_re) m0 ->
  exists mid, m0 = "gecko" +:+ mid /\ all dot mid = true.
Proof.
  unfold gecko_version_re. cbn [before lits app]. intros H. invert_matches.
  rewrite app_empty_r. eauto.
Qed.

(** Every version [re.findall] reports for the gecko pattern is a dotted
    version that follows ["gecko"] on a line of the text. *)
Lemma gecko_findall_sound (out x : string) :
  x ∈ findall gecko_version_re out -> follows_gecko out x.
Proof.
  intros (pre & m0 & m2 & post & -> & M0 & M1 & M2)%findall_sound.
  apply gecko_before_line in M0 as (mid & -> & D).
  apply gecko_group_dotted in M1.
  exists pre, mid, (m2 +:+ post). rewrite !app_assoc. auto.
Qed.

(** *** The gecko pattern as a function of the text *)

Section Greedy.

Context {R : Type}.
Implicit Types (k : string -> string -> option R).

(** A greedy repetition takes the longest run when what follows the
    repetition cannot start with a character of the class. *)
Lemma rep_greedy_maximal cls min s k :
  (forall m c r, cls c = true -> k m (String c r) = None) ->
  rep_greedy cls min s k
  = if (min <=? String.length (span cls s))%nat
    then k (span cls s) (past cls s) else None.
Proof.
  intros H. revert min k H. induction s as [|c s IH]; intros min k H.
  - cbn. destruct min; reflexivity.
  - cbn [rep_greedy span past]. destruct (cls c) eqn:C.
    + rewrite IH by (intros; apply H; assumption). cbn [String.length].
      destruct min as [|min]; cbn [Nat.pred stop].
      * cbn. destruct (k (String c (span cls s)) (past cls s)); [reflexivity|].
        apply H, C.
      * change (S min <=? S ?n)%nat with (min <=? n)%nat.
        destruct (min <=? _)%nat; [|reflexivity].
        destruct (k _ _); reflexivity.
    + cbn. destruct min; reflexivity.
Qed.

(** It takes the longest run, too, when what follows refuses nothing. *)
Lemma rep_greedy_total cls min s k :
  (forall m r, k m r = None -> False) ->
  rep_greedy cls min s k
  = if (min <=? String.length (span cls s))%nat
    then k (span cls s) (past cls s) else None.
Proof.
  intros H. revert min k H. induction s as [|c s IH]; intros min k H.
  - cbn. destruct min; reflexivity.
  - cbn [rep_greedy span past]. destruct (cls c) eqn:C.
    + rewrite IH by (intros m r; apply H). cbn [String.length].
      destruct min as [|min]; cbn [Nat.pred stop].
      * cbn. destruct (k (String c (span cls s)) (past cls s)) eqn:K; [reflexivity|].
        destruct (H _ _ K).
      * change (S min <=? S ?n)%nat with (min <=? n)%nat.
        destruct (min <=? _)%nat; [|reflexivity].
        destruct (k _ _); reflexivity.
    + cbn. destruct min; reflexivity.
Qed.

End Greedy.


Lemma number_run {R} (s : string) (k : string -> string -> option R) :
  (forall m c r, digit c = true -> k m (String c r) = None)
  \/ (forall m r, k m r = None -> False) ->
  rep_greedy digit 1 s k
  = match number s with
    | Some (a, r) => k a r
    | None => None
    end.
Proof.
  intros H.
  assert (E : rep_greedy digit 1 s k
              = if (1 <=? String.length (span digit s))%nat
                then k (span digit s) (past digit s) else None).
  { destruct H; [apply rep_greedy_maximal|apply rep_greedy_total]; assumption. }
  rewrite E. unfold number. destruct (span digit s); reflexivity.
Qed.

Lemma point_run {R} (p : list atom) (s : string) (k : string -> string -> option R) :
  run (Lit "." :: p) s k
  = match point s with
    | Some r => run p r (fun m r' => k (String "." m) r')
    | None => None
    end.
Proof. destruct s as [|c s]; [reflexivity|]. cbn. destruct (Ascii.eqb "." c); reflexivity. Qed.

Lemma point_refuses_digit {R} (p : list atom) (k : string -> string -> option R)
    (c : ascii) (r : string) :
  digit c = true -> run (Lit "." :: p) (String c r) k = None.
Proof.
  intros D. cbn. destruct (Ascii.eqb_spec "." c) as [<-|]; [discriminate D|reflexivity].
Qed.

Lemma run_greedy {R} (cls : ascii -> bool) (min : nat) (p : list atom) (s : string)
    (k : string -> string -> option R) :
  run (Rep cls min true :: p) s k
  = rep_greedy cls min s (fun m1 r1 => run p r1 (fun m2 r2 => k (m1 +:+ m2) r2)).
Proof. reflexivity. Qed.

(** The group of the gecko pattern matches the dotted version at the start
    of the text, and no other text. *)
Lemma gecko_group_run (s : string) :
  fst <$> run (group gecko_version_re) s (fun g r1 =>
            run (after gecko_version_re) r1 (fun _ r2 => Some (g, r2)))
  = dotted_prefix s.
Proof.
  unfold gecko_version_re. cbn [group after]. unfold dotted_prefix.
  rewrite run_greedy, number_run
    by (left; intros; apply point_refuses_digit; assumption).
  destruct (number s) as [[a s1]|]; [|reflexivity]. cbn [mbind option_bind].
  rewrite point_run. destruct (point s1) as [s2|]; [|reflexivity].
  cbn [mbind option_bind].
  rewrite run_greedy, number_run
    by (left; intros; apply point_refuses_digit; assumption).
  destruct (number s2) as [[b s3]|]; [|reflexivity]. cbn [mbind option_bind].
  rewrite point_run. destruct (point s3) as [s4|]; [|reflexivity].
  cbn [mbind option_bind].
  rewrite run_greedy, number_run by (right; discriminate).
  destruct (number s4) as [[c s5]|]; [|reflexivity]. cbn.
  rewrite !app_empty_r. reflexivity.
Qed.

(** The greedy [.*] hands the group the last place of the line where the
    group matches. *)
Lemma dot_star_run {R} (s : string) (k : string -> string -> option (string * R)) :
  (forall m r, fst <$> k m r = dotted_prefix r) ->
  fst <$> rep_greedy dot 0 s k = last_dotted s.
Proof.
  revert k. induction s as [|c s IH]; intros k H.
  - cbn. rewrite H. reflexivity.
  - cbn [rep_greedy last_dotted Nat.pred]. destruct (dot c).
    + specialize (IH (fun m r => k (String c m) r) (fun m r => H _ r)).
      destruct (rep_greedy dot 0 s _) as [x|]; cbn in IH; rewrite <- IH.
      * reflexivity.
      * cbn [stop]. apply H.
    + cbn [stop]. apply H.
Qed.

Lemma lits_run {R} (p : string) (q : list atom) (s : string)
    (k : string -> string -> option R) :
  run (lits p ++ q) s k
  = match after_prefix p s with
    | Some r => run q r (fun m r' => k (p +:+ m) r')
    | None => None
    end.
Proof.
  revert s k. induction p as [|c p IH]; intros s k; [reflexivity|].
  cbn [lits app run after_prefix]. destruct s as [|c' s]; [reflexivity|].
  destruct (Ascii.eqb c c'); [|reflexivity]. apply IH.
Qed.

Lemma gecko_match_here (s : string) :
  fst <$> match_here gecko_version_re s = after_prefix "gecko" s ≫= last_dotted.
Proof.
  unfold match_here. change (before gecko_version_re) with (lits "gecko" ++ [Rep dot 0 true]).
  rewrite lits_run. destruct (after_prefix "gecko" s) as [r|]; [|reflexivity].
  cbn [mbind option_bind run]. apply dot_star_run. intros m r0.
  apply gecko_group_run.
Qed.

(** [re.findall] with the gecko pattern: its first entry, if it has one. *)
Lemma gecko_findall_from_head (fuel : nat) (s : string) :
  (String.length s < fuel)%nat ->
  head (findall_from fuel gecko_version_re s) = gecko_version s.
Proof.
  revert s. induction fuel as [|fuel IH]; intros s L; [lia|].
  destruct s as [|c s]; [reflexivity|].
  cbn [findall_from gecko_version]. rewrite <- gecko_match_here.
  destruct (match_here gecko_version_re (String c s)) as [[g r]|]; [reflexivity|].
  cbn [advance fmap option_fmap option_map]. apply IH. cbn in L. lia.
Qed.

Lemma gecko_findall_head (s : string) :
  head (findall gecko_version_re s) = gecko_version s.
Proof. apply gecko_findall_from_head. lia. Qed.


(** *** What the gecko pattern finds *)

Lemma span_app (cls : ascii -> bool) (a t : string) :
  all cls a = true ->
  span cls (a +:+ t) = a +:+ span cls t /\ past cls (a +:+ t) = past cls t.
Proof.
  induction a as [|x a IH]; [split; reflexivity|].
  cbn. intros [X A]%andb_prop. rewrite app_cons. cbn. rewrite X.
  destruct (IH A) as [-> ->]. split; reflexivity.
Qed.

Lemma past_stop (cls : ascii -> bool) (t : string) : span cls t = "" -> past cls t = t.
Proof. destruct t as [|c t]; [reflexivity|]. cbn. destruct (cls c); [discriminate|reflexivity]. Qed.

Lemma number_app (a t : string) :
  digits a -> span digit t = "" -> number (a +:+ t) = Some (a, t).
Proof.
  intros [L A] T. unfold number. destruct (span_app digit a t A) as [-> ->].
  rewrite T, (past_stop _ _ T), app_empty_r.
  destruct a; [cbn in L; lia|reflexivity].
Qed.

Lemma number_inv (s a r : string) :
  number s = Some (a, r) -> digits a.
Proof.
  unfold number. intros H.
  assert (A : all digit (span digit s) = true).
  { clear. induction s as [|c s IH]; [reflexivity|]. cbn.
    destruct (digit c) eqn:D; [cbn; rewrite D; exact IH|reflexivity]. }
  destruct (span digit s) as [|x a'] eqn:E; [discriminate|].
  injection H as <- <-. split; [cbn; lia|exact A].
Qed.

(** A text that does not start with a digit or a ['.']. *)
Lemma stop_digit (t : string) : span digit_or_dot t = "" -> span digit t = "".
Proof.
  destruct t as [|c t]; [reflexivity|]. cbn. unfold digit_or_dot.
  destruct (digit c); [discriminate|reflexivity].
Qed.

Lemma stop_point (t : string) : span digit_or_dot t = "" -> point t = None.
Proof.
  destruct t as [|c t]; [reflexivity|]. cbn. unfold digit_or_dot.
  rewrite Ascii.eqb_sym. destruct (Ascii.eqb "." c); [|reflexivity].
  rewrite orb_true_r. discriminate.
Qed.

Lemma point_app (t : string) : point ("." +:+ t) = Some t.
Proof. reflexivity. Qed.

Lemma span_point (t : string) : span digit ("." +:+ t) = "".
Proof. reflexivity. Qed.

Lemma dotted_prefix_dotted (s v : string) :
  dotted_prefix s = Some v -> dotted_version v.
Proof.
  unfold dotted_prefix. intros H.
  destruct (number s) as [[a s1]|] eqn:A; [|discriminate]. cbn in H.
  destruct (point s1) as [s2|]; [|discriminate]. cbn in H.
  destruct (number s2) as [[b s3]|] eqn:B; [|discriminate]. cbn in H.
  destruct (point s3) as [s4|]; [|discriminate]. cbn in H.
  destruct (number s4) as [[c s5]|] eqn:C; [|discriminate]. cbn in H.
  injection H as <-. exists a, b, c.
  split; [reflexivity|].
  split; [exact (number_inv _ _ _ A)|].
  split; [exact (number_inv _ _ _ B)|exact (number_inv _ _ _ C)].
Qed.

Lemma last_dotted_dotted (s v : string) :
  last_dotted s = Some v -> dotted_version v.
Proof.
  induction s as [|c s IH]; [discriminate|]. cbn [last_dotted].
  destruct (if dot c then last_dotted s else None) as [x|] eqn:E.
  - intros [= <-]. destruct (dot c); [auto|discriminate].
  - apply dotted_prefix_dotted.
Qed.

Lemma gecko_version_dotted (s v : string) :
  gecko_version s = Some v -> dotted_version v.
Proof.
  induction s as [|c s IH]; cbn [gecko_version].
  - discriminate.
  - destruct (after_prefix "gecko" (String c s) ≫= last_dotted) as [x|] eqn:E; [|exact IH].
    intros [= <-]. destruct (after_prefix "gecko" (String c s)); [|discriminate].
    apply (last_dotted_dotted _ _ E).
Qed.

Lemma dotted_truthy (v : string) : dotted_version v -> truthy v = true.
Proof.
  intros (a & b & c & -> & [L _] & _). destruct a; [cbn in L; lia|reflexivity].
Qed.

Lemma digit_dot (c : ascii) : digit c = true -> dot c = true.
Proof.
  intros D. unfold dot. destruct (Ascii.eqb_spec c "010") as [->|]; [discriminate D|reflexivity].
Qed.

Lemma digits_line (a : string) : all digit a = true -> all dot a = true.
Proof.
  induction a as [|c a IH]; [reflexivity|]. cbn. intros [D A]%andb_prop.
  rewrite (digit_dot _ D). auto.
Qed.

Section Truncation.

Variables (b c t : string).

Hypothesis digits_b : digits b.
Hypothesis digits_c : digits c.
Hypothesis stop_t : span digit_or_dot t = "".
Hypothesis none_t : last_dotted t = None.

Lemma last_dotted_number (c' : string) :
  all digit c' = true -> last_dotted (c' +:+ t) = None.
Proof.
  induction c' as [|x c' IH]; [intros _; exact none_t|].
  intros A. rewrite app_cons. cbn [last_dotted].
  pose proof A as [X A']%andb_prop. rewrite (digit_dot _ X), (IH A').
  rewrite <- app_cons. unfold dotted_prefix.
  rewrite number_app; [|split; [cbn; lia|exact A]|apply stop_digit, stop_t].
  cbn. rewrite (stop_point _ stop_t). reflexivity.
Qed.

Lemma last_dotted_two_numbers (b' : string) :
  all digit b' = true -> last_dotted (b' +:+ "." +:+ c +:+ t) = None.
Proof.
  induction b' as [|x b' IH].
  - intros _. rewrite app_empty. change ("." +:+ c +:+ t) with (String "." (c +:+ t)).
    cbn [last_dotted]. change (dot ".") with true. cbv iota.
    rewrite (last_dotted_number c (proj2 digits_c)). reflexivity.
  - intros A. rewrite app_cons. cbn [last_dotted].
    pose proof A as [X A']%andb_prop. rewrite (digit_dot _ X), (IH A').
    rewrite <- app_cons. unfold dotted_prefix.
    rewrite number_app; [|split; [cbn; lia|exact A]|apply span_point].
    cbn [mbind option_bind]. rewrite point_app. cbn [mbind option_bind].
    rewrite number_app; [|exact digits_c|apply stop_digit, stop_t].
    cbn [mbind option_bind]. rewrite (stop_point _ stop_t). reflexivity.
Qed.

(** After a digit [d] that other digits precede, the last dotted version of
    the line starts at [d]. *)
Lemma last_dotted_cut (d : ascii) :
  digit d = true ->
  last_dotted (String d ("." +:+ b +:+ "." +:+ c +:+ t))
  = Some (String d ("." +:+ b +:+ "." +:+ c)).
Proof.
  intros D. cbn [last_dotted]. rewrite (digit_dot _ D).
  change ("." +:+ b +:+ "." +:+ c +:+ t) with (String "." (b +:+ "." +:+ c +:+ t)).
  cbn [last_dotted]. change (dot ".") with true. cbv iota.
  rewrite (last_dotted_two_numbers b (proj2 digits_b)).
  change (dotted_prefix (String "." (b +:+ "." +:+ c +:+ t))) with (@None string).
  unfold dotted_prefix.
  change (String d (String "." (b +:+ "." +:+ c +:+ t)))
    with (String d "" +:+ "." +:+ b +:+ "." +:+ c +:+ t).
  rewrite number_app; [|split; [cbn; lia|cbn; rewrite D; reflexivity]|apply span_point].
  cbn [mbind option_bind]. rewrite point_app. cbn [mbind option_bind].
  rewrite number_app; [|exact digits_b|apply span_point].
  cbn [mbind option_bind]. rewrite point_app. cbn [mbind option_bind].
  rewrite number_app; [|exact digits_c|apply stop_digit, stop_t].
  reflexivity.
Qed.

Lemma last_dotted_line (x y v : string) :
  all dot x = true -> last_dotted y = Some v -> last_dotted (x +:+ y) = Some v.
Proof.
  intros A Y. induction x as [|e x IH]; [exact Y|].
  apply andb_prop in A as [E A]. rewrite app_cons. cbn [last_dotted].
  rewrite E, (IH A). reflexivity.
Qed.

Lemma after_prefix_app (p s : string) : after_prefix p (p +:+ s) = Some s.
Proof.
  induction p as [|e p IH]; [reflexivity|]. rewrite app_cons. cbn.
  rewrite Ascii.eqb_refl. exact IH.
Qed.

(** The banner of a driver whose first number has more than one digit:
    the version found keeps the last of them only. *)
Lemma gecko_version_cut (mid a : string) (d : ascii) :
  all dot mid = true -> digits a -> digit d = true ->
  gecko_version ("gecko" +:+ mid +:+ a +:+ String d ("." +:+ b +:+ "." +:+ c +:+ t))
  = Some (String d ("." +:+ b +:+ "." +:+ c)).
Proof.
  intros M A D.
  assert (L : after_prefix "gecko"
                ("gecko" +:+ mid +:+ a +:+ String d ("." +:+ b +:+ "." +:+ c +:+ t))
              ≫= last_dotted
              = Some (String d ("." +:+ b +:+ "." +:+ c))).
  { rewrite after_prefix_app. cbn [mbind option_bind].
    apply last_dotted_line; [exact M|].
    apply last_dotted_line; [apply digits_line, A|]. apply last_dotted_cut, D. }
  revert L. rewrite (app_cons "g"). intros L. cbn [gecko_version]. rewrite L.
  reflexivity.
Qed.

End Truncation.

Lemma cut_differs (a v : string) : digits a -> String.eqb ("v" +:+ v) ("v" +:+ a +:+ v) = false.
Proof.
  intros [L _]. apply String.eqb_neq. intros E.
  apply (f_equal String.length) in E. rewrite !length_app in E. lia.
Qed.

Lemma gecko_version_follows (out ver : string) :
  gecko_version out = Some ver -> follows_gecko out ver.
Proof.
  rewrite <- gecko_findall_head. intros H. apply gecko_findall_sound.
  destruct (findall gecko_version_re out) as [|x l]; [discriminate|].
  injection H as ->. apply list_elem_of_here.
Qed.

Example gecko_version_banner :
  gecko_version "geckodriver 0.30.0 (d372710b98a6 2021-09-16 10:29 +0300)

The source code of this program is available from
testing/geckodriver in https://hg.mozilla.org/mozilla-central."
  = Some "0.30.0".
Proof. reflexivity. Qed.

Example gecko_version_two_lines :
  gecko_version "gecko 1.2
gecko 1.2.3.4" = Some "2.3.4".
Proof. reflexivity. Qed.

Example chrome_banner :
  match_group1 chrome_version_re
    "ChromeDriver 114.0.5735.90 (386bc09e8f4f-refs/branch-heads/5735)"
  = Ret "114.0.5735.90".
Proof. reflexivity. Qed.

Example chrome_banner_no_version :
  match_group1 chrome_version_re "not a driver" = Raise TypeError.
Proof. reflexivity. Qed.

Example gecko_banner :
  findall gecko_version_re
    "geckodriver 0.30.0 (d372710b98a6 2021-09-16 10:29 +0300)

The source code of this program is available from
testing/geckodriver in https://hg.mozilla.org/mozilla-central."
  = ["0.30.0"].
Proof. reflexivity. Qed.

(** The greedy [.*] before the group leaves the group only the last digit of
    a leading number of several digits. *)
Example gecko_banner_two_digits :
  findall gecko_version_re "geckodriver 10.31.0" = ["0.31.0"].
Proof. reflexivity. Qed.

End ReFacts.

(** ** Reasoning about code in [M] *)

Module MFacts.
Import Py.

Section Bind.

Context {S A B : Type}.
Implicit Types (m : M S A) (k : A -> M S B).

Lemma bind_ret m k w a w1 : m w = (Ret a, w1) -> bind m k w = k a w1.
Proof. intros H. unfold bind. rewrite H. reflexivity. Qed.

Lemma bind_raise m k w e w1 : m w = (Raise e, w1) -> bind m k w = (Raise e, w1).
Proof. intros H. unfold bind. rewrite H. reflexivity. Qed.

Lemma bind_ret_inv m k w b w' :
  bind m k w = (Ret b, w') ->
  exists a w1, m w = (Ret a, w1) /\ k a w1 = (Ret b, w').
Proof.
  unfold bind. destruct (m w) as [[a|e] w1]; intros H; [eauto|discriminate].
Qed.

(** A run of [bind m k] is a run of [m] that raised, or a run of [m] that
    returned followed by a run of [k]. *)
Lemma bind_inv m k w r w' :
  bind m k w = (r, w') ->
  (exists e, m w = (Raise e, w') /\ r = Raise e)
  \/ (exists a w1, m w = (Ret a, w1) /\ k a w1 = (r, w')).
Proof.
  unfold bind. destruct (m w) as [[a|e] w1]; intros H.
  - right. eauto.
  - left. exists e. inversion H. auto.
Qed.

End Bind.

End MFacts.

(** ** What the methods leave alone *)

Module FrameFacts.
Import Py Installer MFacts.

Section Combinators.

Context {S : Type} (P : S -> Prop).

Lemma stable_ret {A} (a : A) : stable P (ret a).
Proof. intros w r w' H [= <- <-]. exact H. Qed.

Lemma stable_raise {A} (e : exn) : stable P (@raise S A e).
Proof. intros w r w' H [= <- <-]. exact H. Qed.

Lemma stable_lift {A} (o : outcome A) : stable P (lift o).
Proof. intros w r w' H [= <- <-]. exact H. Qed.

Lemma stable_gets {A} (f : S -> A) : stable P (gets f).
Proof. intros w r w' H [= <- <-]. exact H. Qed.

Lemma stable_modify (f : S -> S) : (forall w, P w -> P (f w)) -> stable P (modify f).
Proof. intros F w r w' H [= <- <-]. auto. Qed.

Lemma stable_bind {A B} (m : M S A) (k : A -> M S B) :
  stable P m -> (forall a, stable P (k a)) -> stable P (bind m k).
Proof.
  intros Hm Hk w r w' H E. apply bind_inv in E as [(e & E & _)|(a & w1 & E & K)].
  - exact (Hm _ _ _ H E).
  - exact (Hk a _ _ _ (Hm _ _ _ H E) K).
Qed.

Lemma ensures_bind {A B} (m : M S A) (k : A -> M S B) (Q : B -> S -> Prop) :
  (forall a, ensures (k a) Q) -> ensures (bind m k) Q.
Proof.
  intros Hk w b w' E. apply bind_ret_inv in E as (a & w1 & _ & K).
  exact (Hk a _ _ _ K).
Qed.

Lemma ensures_stable {A B} (m : M S A) (k : A -> M S B) :
  ensures m (fun _ w => P w) -> (forall a, stable P (k a)) ->
  ensures (bind m k) (fun _ w => P w).
Proof.
  intros Hm Hk w b w' E. apply bind_ret_inv in E as (a & w1 & E & K).
  exact (Hk a _ _ _ (Hm _ _ _ E) K).
Qed.

End Combinators.

Section Primitives.

Variable h : host.
Variable P : world -> Prop.

Lemma stable_getattr (name : string) : stable P (getattr name).
Proof. apply stable_gets. Qed.

Lemma stable_setattr (name value : string) :
  (forall w, P w -> P (set_self_dict <[name := value]> w)) ->
  stable P (setattr name value).
Proof. apply stable_modify. Qed.

Lemma stable_urlopen (url : string) :
  (forall w, P w -> P (log_fetch url w)) -> stable P (urlopen_ h url).
Proof. intros F w r w' H [= <- <-]. auto. Qed.

Lemma stable_check_output (path : string) : stable P (check_output h path).
Proof.
  intros w r w' H. unfold check_output.
  destruct (names_dir h path); [intros [= <- <-]; exact H|].
  destruct (files w !! path) as [f|]; [destruct (is_win h || f_exec f)|];
    intros [= <- <-]; exact H.
Qed.

Lemma stable_isfile (path : string) : stable P (isfile path).
Proof. apply stable_gets. Qed.

Lemma stable_access_x (path : string) : stable P (access_x h path).
Proof. apply stable_gets. Qed.

Lemma stable_driver_dir : stable P (driver_dir h).
Proof. apply stable_gets. Qed.

Lemma stable_binary_path (name : string) : stable P (binary_path h name).
Proof. intros w r w' H [= <- <-]. exact H. Qed.

Hypothesis P_files : forall w f, P w -> P (set_files f w).

Lemma stable_chmod_x (path : string) : stable P (chmod_x path).
Proof.
  intros w r w' H. unfold chmod_x.
  destruct (files w !! path) as [f|]; intros [= <- <-]; auto.
Qed.

Lemma stable_zip_extract (archive : body) (member dir : string) :
  stable P (zip_extract h archive member dir).
Proof.
  unfold zip_extract. destruct archive as [| ms | |]; try apply stable_raise.
  destruct (ms !! member); [apply stable_modify; auto|apply stable_raise].
Qed.

Lemma stable_tar_extract (archive : body) (member dir : string) :
  stable P (tar_extract h archive member dir).
Proof.
  unfold tar_extract. destruct archive as [| | ms |]; try apply stable_raise.
  destruct (ms !! member); [apply stable_modify; auto|apply stable_raise].
Qed.

End Primitives.

(** One step of a proof that a method keeps a property: through the
    combinators, then by cases on what the method branches on. *)
Ltac stable_step :=
  first
    [ apply stable_ret | apply stable_raise | apply stable_lift
    | apply stable_gets | apply stable_getattr | apply stable_check_output
    | apply stable_isfile | apply stable_access_x | apply stable_driver_dir
    | apply stable_binary_path
    | apply stable_bind; [|intros ?]
    | match goal with
      | |- stable _ (when ?b _) =>
          let T := fresh "T" in destruct b eqn:T; unfold when
      | |- stable _ (match ?x with _ => _ end) => destruct x
      end ].

Section ChromeFrame.

Variable h : host.

Lemma chrome_query_browser_stable (P : world -> Prop) (platform : string) :
  stable P (ChromeInstaller.query_browser h platform).
Proof. unfold ChromeInstaller.query_browser. repeat stable_step. Qed.

(** [ChromeInstaller.require_version] keeps every property that caching a
    non-empty required version keeps. *)
Lemma chrome_require_version_stable (P : world -> Prop) :
  (forall w v, truthy v = true -> P w ->
     P (set_self_dict <["_require_version" := v]> w)) ->
  stable P (ChromeInstaller.require_version h).
Proof.
  intros F. unfold ChromeInstaller.require_version. repeat stable_step.
  - apply chrome_query_browser_stable.
  - apply stable_setattr. intros w. apply F. assumption.
Qed.

Lemma chrome_require_version_no_fetch (w w1 : world) (r : outcome string) :
  ChromeInstaller.require_version h w = (r, w1) -> fetched w1 = fetched w.
Proof.
  intros E.
  apply (chrome_require_version_stable (fun x => fetched x = fetched w)
           (fun _ _ _ H => H) w r w1 eq_refl E).
Qed.

End ChromeFrame.
End FrameFacts.

(** ** Properties of the installers *)

Module InstallerSpec.
Import Py Installer MFacts PyFacts ReFacts FrameFacts.

Section Versions.

Variable h : host.

Lemma chrome_require_version_cached (w : world) (r : string) :
  self_dict w !! "_require_version" = Some r ->
  ChromeInstaller.require_version h w = (Ret r, w).
Proof.
  intros H. unfold ChromeInstaller.require_version, getattr, gets, bind.
  rewrite H. reflexivity.
Qed.

Lemma chrome_current_version_cached (w : world) (c : string) :
  self_dict w !! "_current_version" = Some c ->
  ChromeInstaller.current_version h w = (Ret c, w).
Proof.
  intros H. unfold ChromeInstaller.current_version, getattr, gets, bind.
  rewrite H. reflexivity.
Qed.

Lemma firefox_require_version_cached (w : world) (r : string) :
  self_dict w !! "_require_version" = Some r ->
  FireFoxInstaller.require_version h w = (Ret r, w).
Proof.
  intros H. unfold FireFoxInstaller.require_version, getattr, gets, bind.
  rewrite H. reflexivity.
Qed.

Lemma firefox_current_version_cached (w : world) (c : string) :
  self_dict w !! "_current_version" = Some c ->
  FireFoxInstaller.current_version h w = (Ret c, w).
Proof.
  intros H. unfold FireFoxInstaller.current_version, getattr, gets, bind.
  rewrite H. reflexivity.
Qed.

Lemma chrome_has_require_version_cached (w : world) (r c : string) :
  self_dict w !! "_require_version" = Some r ->
  self_dict w !! "_current_version" = Some c ->
  ChromeInstaller.has_require_version h w
  = (Ret (String.eqb (Spec.up_to "." r) (Spec.up_to "." c)), w).
Proof.
  intros Hr Hc. unfold ChromeInstaller.has_require_version.
  rewrite (bind_ret _ _ _ _ _ (chrome_require_version_cached w r Hr)).
  unfold lift at 1. rewrite first_split. unfold bind at 1.
  rewrite (bind_ret _ _ _ _ _ (chrome_current_version_cached w c Hc)).
  unfold lift. rewrite first_split. reflexivity.
Qed.

Lemma firefox_has_require_version_cached (w : world) (r c : string) :
  self_dict w !! "_require_version" = Some r ->
  self_dict w !! "_current_version" = Some c ->
  FireFoxInstaller.has_require_version h w = (Ret (String.eqb c r), w).
Proof.
  intros Hr Hc. unfold FireFoxInstaller.has_require_version.
  rewrite (bind_ret _ _ _ _ _ (firefox_current_version_cached w c Hc)).
  rewrite (bind_ret _ _ _ _ _ (firefox_require_version_cached w r Hr)).
  reflexivity.
Qed.

Lemma ie_has_require_version_run (w : world) (c : string) :
  IeInstaller.current_version h w = (Ret c, w) ->
  IeInstaller.has_require_version h w
  = (Ret (String.eqb "3.150.1" (drop_last 2 c)), w).
Proof.
  intros Hc. unfold IeInstaller.has_require_version, IeInstaller.require_version.
  unfold bind at 1, ret at 1.
  rewrite (bind_ret _ _ _ _ _ Hc). reflexivity.
Qed.

(** C1. With the required and the current version at hand, each family's
    [has_require_version] returns, leaves the state alone, and answers true
    exactly when its rule holds: for Chrome the text before the first ['.']
    is the same in both; for Firefox the two are the same string; for IE the
    current version is the required one, ["3.150.1"], followed by exactly two
    more characters. *)
Theorem has_require_version_rule (w : world) (r c c_ie : string) :
  self_dict w !! "_require_version" = Some r ->
  self_dict w !! "_current_version" = Some c ->
  IeInstaller.current_version h w = (Ret c_ie, w) ->
  (exists b, ChromeInstaller.has_require_version h w = (Ret b, w)
             /\ (b = true <-> Spec.up_to "." r = Spec.up_to "." c))
  /\ (exists b, FireFoxInstaller.has_require_version h w = (Ret b, w)
                /\ (b = true <-> r = c))
  /\ (exists b, IeInstaller.has_require_version h w = (Ret b, w)
                /\ IeInstaller.require_version w = (Ret "3.150.1", w)
                /\ (b = true <-> "3.150.1" = drop_last 2 c_ie)
                /\ (b = true <-> Spec.two_more "3.150.1" c_ie)).
Proof.
  intros Hr Hc Hie. repeat split.
  - eexists. split; [apply (chrome_has_require_version_cached w r c Hr Hc)|].
    apply String.eqb_eq.
  - eexists. split; [apply (firefox_has_require_version_cached w r c Hr Hc)|].
    rewrite String.eqb_eq. split; congruence.
  - eexists. split; [apply (ie_has_require_version_run w c_ie Hie)|].
    split; [reflexivity|]. split; [apply String.eqb_eq|].
    rewrite String.eqb_eq.
    destruct (le_lt_dec 2 (String.length c_ie)) as [L|L].
    + rewrite <- (drop_last_two_more "3.150.1" c_ie L). split; congruence.
    + rewrite (drop_last_short 2 c_ie) by lia. split; [discriminate|].
      intros [a [b ->]]. rewrite length_app in L. cbn in L. lia.
Qed.

End Versions.

(** C1 on a Windows machine with both versions cached and an IE driver that
    reports ["3.150.1.0"]: Chrome matches on the major version 114, Firefox
    does not match, IE matches. *)
Lemma has_require_version_rule_witness :
  (exists b, ChromeInstaller.has_require_version Scenario.windows Scenario.cached
             = (Ret b, Scenario.cached)
             /\ (b = true <-> Spec.up_to "." "114.0.5735.199" = Spec.up_to "." "114.0.5735.90"))
  /\ (exists b, FireFoxInstaller.has_require_version Scenario.windows Scenario.cached
                = (Ret b, Scenario.cached)
                /\ (b = true <-> "114.0.5735.199" = "114.0.5735.90"))
  /\ (exists b, IeInstaller.has_require_version Scenario.windows Scenario.cached
                = (Ret b, Scenario.cached)
                /\ IeInstaller.require_version Scenario.cached
                   = (Ret "3.150.1", Scenario.cached)
                /\ (b = true <-> "3.150.1" = drop_last 2 "3.150.1.0")
                /\ (b = true <-> Spec.two_more "3.150.1" "3.150.1.0")).
Proof.
  apply (has_require_version_rule Scenario.windows Scenario.cached
           "114.0.5735.199" "114.0.5735.90" "3.150.1.0");
    vm_compute; reflexivity.
Defined.

Section Platform.

Lemma linux_not_win (p : string) :
  startswith p "linux" = true -> startswith p "win" = false.
Proof.
  destruct p as [|a p]; cbn; [discriminate|].
  destruct (Ascii.eqb_spec "l" a) as [<-|]; intros H; [reflexivity|discriminate].
Qed.

Lemma win_not_darwin (p : string) : startswith p "win" = true -> String.eqb p "darwin" = false.
Proof.
  intros H. apply String.eqb_neq. intros ->. vm_compute in H. discriminate.
Qed.

Lemma unsupported_tests (h : host) :
  ~ Spec.supported h ->
  startswith (sys_platform h) "linux" && (2 ^ 32 <? sys_maxsize h) = false
  /\ String.eqb (sys_platform h) "darwin" = false
  /\ startswith (sys_platform h) "win" = false.
Proof.
  unfold Spec.supported, Spec.linux64, Spec.darwin, Spec.win. intros U.
  repeat split.
  - apply not_true_is_false. intros [H1 H2%Z.ltb_lt]%andb_prop. tauto.
  - apply String.eqb_neq. tauto.
  - apply not_true_is_false. tauto.
Qed.

(** C4, as the code has it. [get_platform_architecture] of Chrome and of
    Firefox returns [('linux', '64')] on a Linux whose [sys.maxsize] exceeds
    [2 ** 32]; on [darwin] [('mac', '64')] for Chrome and [('mac', 'os')] for
    Firefox; on Windows [('win', '32')] for Chrome and, for Firefox,
    [('win', '64')] or [('win', '32')] as [platform.machine()] ends in [64]
    or not; on every other platform both raise [RuntimeError]. The one of IE
    returns [None] on every platform and raises on none. The result is a
    function of [sys.platform], [sys.maxsize] and [platform.machine()]. *)
Theorem get_platform_architecture_table (h : host) :
  (Spec.linux64 h ->
     ChromeInstaller.get_platform_architecture h = Ret ("linux", "64")
     /\ FireFoxInstaller.get_platform_architecture h = Ret ("linux", "64"))
  /\ (Spec.darwin h ->
     ChromeInstaller.get_platform_architecture h = Ret ("mac", "64")
     /\ FireFoxInstaller.get_platform_architecture h = Ret ("mac", "os"))
  /\ (Spec.win h ->
     ChromeInstaller.get_platform_architecture h = Ret ("win", "32")
     /\ FireFoxInstaller.get_platform_architecture h
         = Ret ("win", if endswith (platform_machine h) "64" then "64" else "32"))
  /\ (~ Spec.supported h ->
     ChromeInstaller.get_platform_architecture h
     = Raise (RuntimeError "Could not determine chromedriver download URL for this platform.")
     /\ FireFoxInstaller.get_platform_architecture h
         = Raise (RuntimeError "Could not determine geckodriver download URL for this platform."))
  /\ Installer.get_platform_architecture (installer h Ie) = Ret None
  /\ (forall (h' : host) (f : family),
        sys_platform h' = sys_platform h ->
        sys_maxsize h' = sys_maxsize h ->
        platform_machine h' = platform_machine h ->
        Installer.get_platform_architecture (installer h' f)
        = Installer.get_platform_architecture (installer h f)).
Proof.
  unfold ChromeInstaller.get_platform_architecture,
    FireFoxInstaller.get_platform_architecture.
  split; [|split; [|split; [|split; [|split]]]].
  - intros [L M]. rewrite L. apply Z.ltb_lt in M. rewrite M. split; reflexivity.
  - intros D. red in D. rewrite D. split; reflexivity.
  - intros W. red in W. rewrite W, (win_not_darwin _ W).
    destruct (startswith (sys_platform h) "linux") eqn:L.
    + apply linux_not_win in L. congruence.
    + split; reflexivity.
  - intros U. destruct (unsupported_tests h U) as [-> [-> ->]]. split; reflexivity.
  - reflexivity.
  - intros h' [] Hp Hm Hq; cbn;
      unfold ChromeInstaller.get_platform_architecture,
        FireFoxInstaller.get_platform_architecture;
      rewrite ?Hp, ?Hm, ?Hq; reflexivity.
Qed.

(** C4 at work: a 64-bit Linux, a Mac, a Windows machine and one with a
    platform the installers do not know. *)
Lemma get_platform_architecture_table_witness :
  (ChromeInstaller.get_platform_architecture Scenario.linux = Ret ("linux", "64")
   /\ FireFoxInstaller.get_platform_architecture Scenario.linux = Ret ("linux", "64"))
  /\ (ChromeInstaller.get_platform_architecture Scenario.mac = Ret ("mac", "64")
      /\ FireFoxInstaller.get_platform_architecture Scenario.mac = Ret ("mac", "os"))
  /\ (ChromeInstaller.get_platform_architecture Scenario.windows = Ret ("win", "32")
      /\ FireFoxInstaller.get_platform_architecture Scenario.windows = Ret ("win", "64"))
  /\ (ChromeInstaller.get_platform_architecture Scenario.solaris
      = Raise (RuntimeError "Could not determine chromedriver download URL for this platform.")
      /\ FireFoxInstaller.get_platform_architecture Scenario.solaris
          = Raise (RuntimeError "Could not determine geckodriver download URL for this platform.")).
Proof.
  split; [|split; [|split]].
  - apply (proj1 (get_platform_architecture_table Scenario.linux)).
    split; [reflexivity|]. vm_compute. reflexivity.
  - apply (proj1 (proj2 (get_platform_architecture_table Scenario.mac))).
    reflexivity.
  - apply (proj1 (proj2 (proj2 (get_platform_architecture_table Scenario.windows)))).
    reflexivity.
  - apply (proj1 (proj2 (proj2 (proj2 (get_platform_architecture_table Scenario.solaris))))).
    intros [[H _]|[H|H]]; vm_compute in H; discriminate.
Defined.

(** C4 as stated fails for IE: on a platform that no installer supports its
    [get_platform_architecture] returns a value, [None], and raises nothing. *)
Lemma ie_platform_architecture_returns :
  exists (h : host) (f : family),
    (Spec.supported h -> False)
    /\ Installer.get_platform_architecture (installer h f) = Ret None.
Proof.
  exists Scenario.solaris, Ie. split; [|reflexivity].
  intros [[H _]|[H|H]]; vm_compute in H; discriminate.
Qed.

End Platform.

Section BinaryPath.

Lemma posixpath_join_empty (d : string) :
  posixpath_join d "" = if negb (truthy d) || endswith d "/" then d else d +:+ "/".
Proof.
  unfold posixpath_join. cbn [startswith].
  destruct (negb (truthy d) || endswith d "/"); [apply app_empty_r|].
  rewrite app_empty_r. reflexivity.
Qed.

(** C9. Off Windows the [binary_name] of Chrome and of Firefox is the empty
    string, so [binary_path], which is [os.path.join(driver_dir, '')], is
    the path of the driver directory itself, written with or without a
    separator at its end, and no file inside it. A named binary,
    ['chromedriver.exe'] or ['geckodriver.exe'], comes on Windows only. *)
Theorem binary_name_off_windows (h : host) (w : world) :
  (is_win h = false ->
     ChromeInstaller.binary_name h = ""
     /\ FireFoxInstaller.binary_name h = ""
     /\ exists d p,
          driver_dir h w = (Ret d, w)
          /\ ChromeInstaller.binary_path h w = (Ret p, w)
          /\ FireFoxInstaller.binary_path h w = (Ret p, w)
          /\ p = (if negb (truthy d) || endswith d "/" then d else d +:+ "/")
          /\ Spec.names_directory d p)
  /\ (is_win h = true ->
     ChromeInstaller.binary_name h = "chromedriver.exe"
     /\ FireFoxInstaller.binary_name h = "geckodriver.exe").
Proof.
  unfold is_win, ChromeInstaller.binary_name, FireFoxInstaller.binary_name.
  split; intros W; rewrite W; [|split; reflexivity].
  split; [reflexivity|]. split; [reflexivity|].
  eexists. eexists. split; [reflexivity|].
  unfold ChromeInstaller.binary_path, FireFoxInstaller.binary_path,
    ChromeInstaller.binary_name, FireFoxInstaller.binary_name,
    binary_path, os_path_join, is_win.
  rewrite W. cbn [bind driver_dir gets ret].
  split; [reflexivity|]. split; [reflexivity|].
  split; [apply posixpath_join_empty|].
  rewrite posixpath_join_empty. unfold Spec.names_directory.
  destruct (negb _ || _); auto.
Qed.

(** C9 on a Linux machine and on a Windows one. *)
Lemma binary_name_off_windows_witness :
  (ChromeInstaller.binary_name Scenario.linux = ""
   /\ FireFoxInstaller.binary_name Scenario.linux = ""
   /\ exists d p,
        driver_dir Scenario.linux (init true ∅ ∅) = (Ret d, init true ∅ ∅)
        /\ ChromeInstaller.binary_path Scenario.linux (init true ∅ ∅)
            = (Ret p, init true ∅ ∅)
        /\ FireFoxInstaller.binary_path Scenario.linux (init true ∅ ∅)
            = (Ret p, init true ∅ ∅)
        /\ p = (if negb (truthy d) || endswith d "/" then d else d +:+ "/")
        /\ Spec.names_directory d p)
  /\ (ChromeInstaller.binary_name Scenario.windows = "chromedriver.exe"
      /\ FireFoxInstaller.binary_name Scenario.windows = "geckodriver.exe").
Proof.
  split.
  - apply (proj1 (binary_name_off_windows Scenario.linux (init true ∅ ∅))).
    reflexivity.
  - apply (proj2 (binary_name_off_windows Scenario.windows (init true ∅ ∅))).
    reflexivity.
Defined.

End BinaryPath.

Section Gecko.

Variable h : host.

Lemma check_output_state (path : string) (w w1 : world) (r : outcome string) :
  check_output h path w = (r, w1) -> w1 = w.
Proof.
  unfold check_output. destruct (names_dir h path); [congruence|].
  destruct (files w !! path) as [f|]; [|congruence].
  destruct (is_win h || f_exec f); congruence.
Qed.

Lemma binary_path_in (name : string) (w : world) :
  binary_path h name w = (Ret (Spec.path_in h name w), w).
Proof. reflexivity. Qed.

(** [FireFoxInstaller.current_version] with nothing cached, when the driver
    runs and prints [out]. *)
Lemma firefox_current_version_first_run (w : world) (path out : string) :
  self_dict w !! "_current_version" = None ->
  FireFoxInstaller.binary_path h w = (Ret path, w) ->
  check_output h path w = (Ret out, w) ->
  FireFoxInstaller.current_version h w
  = match Spec.gecko_version out with
    | Some ver =>
        (Ret ("v" +:+ ver), set_self_dict <["_current_version" := "v" +:+ ver]> w)
    | None => (Raise (Exception "설치된 드라이버 버전을 찾을 수 없음"), w)
    end.
Proof.
  intros C B O. unfold FireFoxInstaller.current_version.
  rewrite (bind_ret _ _ w None w) by (unfold getattr, gets; rewrite C; reflexivity).
  rewrite (bind_ret _ _ _ _ _ B), (bind_ret _ _ _ _ _ O).
  pose proof (gecko_findall_head out) as F.
  destruct (Re.findall Re.gecko_version_re out) as [|x l]; cbn in F; rewrite <- F.
  - reflexivity.
  - cbn [length Nat.eqb first lift]. unfold lift, bind, when, ret.
    rewrite (dotted_truthy x); [reflexivity|].
    apply gecko_version_dotted with (s := out). symmetry. exact F.
Qed.

(** C10. With nothing cached, [FireFoxInstaller.current_version] returns ['v']
    and the version [re.findall] reports first in the output of the driver,
    and caches it; it raises when there is none. That version follows
    ["gecko"] on a line and has the form digits.digits.digits, but it is the
    one that starts last on the line: the greedy [.*] of the pattern takes
    every digit of the first number but the last. A driver whose version
    starts with a number of several digits is reported with that number cut
    to its last digit, and [has_require_version] answers false against the
    release tag of that very version. *)
Theorem firefox_current_version_truncates (w : world) (path out : string) :
  self_dict w !! "_current_version" = None ->
  FireFoxInstaller.binary_path h w = (Ret path, w) ->
  check_output h path w = (Ret out, w) ->
  FireFoxInstaller.current_version h w
  = match Spec.gecko_version out with
    | Some ver =>
        (Ret ("v" +:+ ver), set_self_dict <["_current_version" := "v" +:+ ver]> w)
    | None => (Raise (Exception "설치된 드라이버 버전을 찾을 수 없음"), w)
    end
  /\ (forall ver, Spec.gecko_version out = Some ver -> Spec.follows_gecko out ver)
  /\ (forall (mid a : string) (d : ascii) (b c t : string),
        Spec.all Re.dot mid = true ->
        Spec.digits a -> Re.digit d = true -> Spec.digits b -> Spec.digits c ->
        Spec.span Re.digit_or_dot t = "" -> Spec.last_dotted t = None ->
        out = "gecko" +:+ mid +:+ a +:+ String d ("." +:+ b +:+ "." +:+ c +:+ t) ->
        FireFoxInstaller.current_version h w
        = (Ret ("v" +:+ String d ("." +:+ b +:+ "." +:+ c)),
           set_self_dict
             <["_current_version" := "v" +:+ String d ("." +:+ b +:+ "." +:+ c)]> w)
        /\ (self_dict w !! "_require_version"
            = Some ("v" +:+ a +:+ String d ("." +:+ b +:+ "." +:+ c)) ->
            FireFoxInstaller.has_require_version h w
            = (Ret false,
               set_self_dict
                 <["_current_version" := "v" +:+ String d ("." +:+ b +:+ "." +:+ c)]> w))).
Proof.
  intros C B O. pose proof (firefox_current_version_first_run w path out C B O) as Run.
  split; [exact Run|]. split; [apply gecko_version_follows|].
  intros mid a d b c t M A D Db Dc St Nt ->.
  rewrite (gecko_version_cut b c t Db Dc St Nt mid a d M A D) in Run.
  split; [exact Run|]. intros Rq.
  unfold FireFoxInstaller.has_require_version.
  rewrite (bind_ret _ _ _ _ _ Run).
  erewrite bind_ret; cycle 1.
  { apply firefox_require_version_cached. cbn.
    rewrite lookup_insert_ne by discriminate. exact Rq. }
  unfold ret. rewrite cut_differs by exact A. reflexivity.
Qed.

End Gecko.

(** C10 on a Windows machine whose gecko driver is of version 10.31.0, on an
    instance that has the release tag of that version cached: the current
    version comes out as ["v0.31.0"] and the check of the version fails. *)
Lemma firefox_current_version_truncates_witness :
  FireFoxInstaller.current_version Scenario.windows Scenario.with_gecko_10
  = (Ret "v0.31.0",
     set_self_dict <["_current_version" := "v0.31.0"]> Scenario.with_gecko_10)
  /\ FireFoxInstaller.has_require_version Scenario.windows Scenario.with_gecko_10
     = (Ret false,
        set_self_dict <["_current_version" := "v0.31.0"]> Scenario.with_gecko_10).
Proof.
  destruct (proj2 (proj2
              (firefox_current_version_truncates Scenario.windows Scenario.with_gecko_10
                 "C:\drivers\geckodriver.exe" Scenario.gecko_banner_10
                 eq_refl eq_refl eq_refl))
              "driver " "1" "0"%char "31" "0" Scenario.gecko_banner_tail)
    as [Current Check]; try reflexivity; try (split; [cbn; lia|reflexivity]).
  split; [exact Current|]. apply Check. reflexivity.
Defined.

(** There [download] asks for the archive of the release again, although the
    driver of that release is in place. *)
Example firefox_download_fetches_again :
  fetched (snd (FireFoxInstaller.download Scenario.windows Scenario.with_gecko_10))
  = ["https://github.com/mozilla/geckodriver/releases/download/v10.31.0/geckodriver-v10.31.0-win64.zip"].
Proof. vm_compute. reflexivity. Qed.

Section Listing.

Variable h : host.

Lemma scan_keys_skip (major platform architecture : string)
    (skipped : list string) (rest : list (option string)) :
  Forall (fun k => startswith k (major +:+ ".") = false) skipped ->
  ChromeInstaller.scan_keys major platform architecture (map Some skipped ++ rest)
  = ChromeInstaller.scan_keys major platform architecture rest.
Proof.
  induction 1 as [|k skipped Hk _ IH]; [reflexivity|].
  cbn. rewrite find_zero, Hk. exact IH.
Qed.

Lemma scan_keys_hit (major platform architecture text : string)
    (rest : list (option string)) :
  startswith text (major +:+ ".") = true ->
  ChromeInstaller.scan_keys major platform architecture (Some text :: rest)
  = Ret (ChromeInstaller.base_url +:+ Spec.up_to "/" text +:+ "/chromedriver_"
         +:+ platform +:+ architecture +:+ ".zip").
Proof. intros H. cbn. rewrite find_zero, H, first_split. reflexivity. Qed.

(** C6, as the code has it. [get_download_url] reads the [Key] entries of
    the listing in document order and takes the first whose text starts with
    the required major version and a ['.']; the URL is the base URL, that
    entry's text up to its first ['/'], and ['/chromedriver_'], the platform,
    the architecture and ['.zip'] of the running machine. When no entry
    starts so, it raises. The listing has been fetched in both cases. *)
Theorem chrome_get_download_url_first_match (w w1 : world)
    (v platform architecture : string) (doc : response)
    (keys : list (option string)) :
  ChromeInstaller.get_platform_architecture h = Ret (platform, architecture) ->
  ChromeInstaller.require_version h w = (Ret v, w1) ->
  urlopen h "https://chromedriver.storage.googleapis.com" = Ret doc ->
  read doc = Listing keys ->
  (forall (skipped : list string) (text : string) (rest : list (option string)),
     keys = map Some skipped ++ Some text :: rest ->
     Forall (fun k => startswith k (Spec.up_to "." v +:+ ".") = false) skipped ->
     startswith text (Spec.up_to "." v +:+ ".") = true ->
     ChromeInstaller.get_download_url h w
     = (Ret (ChromeInstaller.base_url +:+ Spec.up_to "/" text +:+ "/chromedriver_"
             +:+ platform +:+ architecture +:+ ".zip"),
        log_fetch "https://chromedriver.storage.googleapis.com" w1))
  /\ (forall skipped : list string,
        keys = map Some skipped ->
        Forall (fun k => startswith k (Spec.up_to "." v +:+ ".") = false) skipped ->
        ChromeInstaller.get_download_url h w
        = (Raise (Exception "not found match driver"),
           log_fetch "https://chromedriver.storage.googleapis.com" w1)).
Proof.
  intros P V U L.
  assert (Run : ChromeInstaller.get_download_url h w
    = (ChromeInstaller.scan_keys (Spec.up_to "." v) platform architecture keys,
       log_fetch "https://chromedriver.storage.googleapis.com" w1)).
  { unfold ChromeInstaller.get_download_url. rewrite P.
    unfold lift at 1, bind at 1. rewrite (bind_ret _ _ _ _ _ V).
    rewrite first_split. unfold lift at 1, bind at 1.
    unfold urlopen_, bind. rewrite U, L. reflexivity. }
  rewrite Run. split.
  - intros skipped text rest -> S T.
    rewrite (scan_keys_skip _ _ _ _ _ S), (scan_keys_hit _ _ _ _ _ T). reflexivity.
  - intros skipped -> S. rewrite <- (app_nil_r (map Some skipped)).
    rewrite (scan_keys_skip _ _ _ _ _ S). reflexivity.
Qed.

End Listing.

(** C6 on 64-bit Linux with version 114.0.5735.90 required and a listing in
    which the release 114.0.5735.90 is the first of major version 114. *)
Lemma chrome_get_download_url_first_match_witness :
  (forall (skipped : list string) (text : string) (rest : list (option string)),
     Scenario.listing_exact = map Some skipped ++ Some text :: rest ->
     Forall (fun k => startswith k (Spec.up_to "." "114.0.5735.90" +:+ ".") = false) skipped ->
     startswith text (Spec.up_to "." "114.0.5735.90" +:+ ".") = true ->
     ChromeInstaller.get_download_url (Scenario.linux_online Scenario.listing_exact)
       Scenario.empty_disk
     = (Ret (ChromeInstaller.base_url +:+ Spec.up_to "/" text +:+ "/chromedriver_"
             +:+ "linux" +:+ "64" +:+ ".zip"),
        log_fetch "https://chromedriver.storage.googleapis.com"
          (set_self_dict <["_require_version" := "114.0.5735.90"]> Scenario.empty_disk)))
  /\ (forall skipped : list string,
        Scenario.listing_exact = map Some skipped ->
        Forall (fun k => startswith k (Spec.up_to "." "114.0.5735.90" +:+ ".") = false) skipped ->
        ChromeInstaller.get_download_url (Scenario.linux_online Scenario.listing_exact)
          Scenario.empty_disk
        = (Raise (Exception "not found match driver"),
           log_fetch "https://chromedriver.storage.googleapis.com"
             (set_self_dict <["_require_version" := "114.0.5735.90"]> Scenario.empty_disk))).
Proof.
  apply (chrome_get_download_url_first_match
           (Scenario.linux_online Scenario.listing_exact) Scenario.empty_disk
           (set_self_dict <["_require_version" := "114.0.5735.90"]> Scenario.empty_disk)
           "114.0.5735.90" "linux" "64"
           (Response 200 Scenario.bucket_url (Listing Scenario.listing_exact))
           Scenario.listing_exact).
  - vm_compute. reflexivity.
  - vm_compute. reflexivity.
  - vm_compute. reflexivity.
  - reflexivity.
Defined.

(** There the URL is the path of the claim's example. *)
Example chrome_download_url_exact :
  fst (ChromeInstaller.get_download_url (Scenario.linux_online Scenario.listing_exact)
         Scenario.empty_disk)
  = Ret "https://chromedriver.storage.googleapis.com/114.0.5735.90/chromedriver_linux64.zip".
Proof. vm_compute. reflexivity. Qed.

(** C6 as stated fails: in a listing that has the entry of the claim's
    example after another release of major version 114, the URL is that of
    the other release. *)
Lemma chrome_download_url_earlier_release :
  exists (h : host) (w : world) (keys : list (option string)),
    fst (ChromeInstaller.require_version h w) = Ret "114.0.5735.90"
    /\ urlopen h "https://chromedriver.storage.googleapis.com"
       = Ret (Response 200 "https://chromedriver.storage.googleapis.com" (Listing keys))
    /\ In (Some "114.0.5735.90/chromedriver_linux64.zip") keys
    /\ fst (ChromeInstaller.get_download_url h w)
       = Ret "https://chromedriver.storage.googleapis.com/114.0.5735.16/chromedriver_linux64.zip".
Proof.
  exists (Scenario.linux_online Scenario.listing_earlier), Scenario.empty_disk,
    Scenario.listing_earlier.
  split; [vm_compute; reflexivity|]. split; [vm_compute; reflexivity|].
  split; [right; left; reflexivity|]. vm_compute. reflexivity.
Qed.

Section ChromeDownload.

Variable h : host.

Lemma chrome_require_version_query (w : world) (platform architecture : string) :
  self_dict w !! "_require_version" = None ->
  ChromeInstaller.get_platform_architecture h = Ret (platform, architecture) ->
  ChromeInstaller.require_version h w
  = (let* version := ChromeInstaller.query_browser h platform in
     let* _ := when (truthy version) (setattr "_require_version" version) in
     ret version) w.
Proof.
  intros C G. unfold ChromeInstaller.require_version.
  rewrite (bind_ret _ _ w None w) by (unfold getattr, gets; rewrite C; reflexivity).
  rewrite G. reflexivity.
Qed.

Lemma chrome_platform_linux :
  Spec.linux64 h -> ChromeInstaller.get_platform_architecture h = Ret ("linux", "64").
Proof.
  intros [L M%Z.ltb_lt]. unfold ChromeInstaller.get_platform_architecture.
  rewrite L, M. reflexivity.
Qed.

Lemma chrome_platform_darwin :
  Spec.darwin h -> ChromeInstaller.get_platform_architecture h = Ret ("mac", "64").
Proof.
  unfold Spec.darwin. intros D. unfold ChromeInstaller.get_platform_architecture.
  rewrite D. reflexivity.
Qed.

Lemma chrome_platform_win :
  Spec.win h -> ChromeInstaller.get_platform_architecture h = Ret ("win", "32").
Proof.
  unfold Spec.win. intros W. unfold ChromeInstaller.get_platform_architecture.
  rewrite W, (win_not_darwin _ W).
  destruct (startswith (sys_platform h) "linux") eqn:L; [|reflexivity].
  rewrite (linux_not_win _ L) in W. discriminate.
Qed.

Lemma chrome_download_raises (w w1 : world) (e : exn) :
  ChromeInstaller.require_version h w = (Raise e, w1) ->
  ChromeInstaller.download h w = (Raise e, w1).
Proof. intros R. unfold ChromeInstaller.download. apply (bind_raise _ _ _ _ _ R). Qed.

Lemma chrome_download_empty (w w1 : world) :
  ChromeInstaller.require_version h w = (Ret "", w1) ->
  ChromeInstaller.download h w
  = (Raise (Exception "크롬이 설치되어 있는지 확인하세요."), w1).
Proof.
  intros R. unfold ChromeInstaller.download. rewrite (bind_ret _ _ _ _ _ R).
  reflexivity.
Qed.

(** C7, as the code has it. [download] goes no further than
    [require_version] unless that returns a non-empty version: an exception
    of [require_version] leaves [download] as it is, the empty string makes
    [download] raise its own [Exception], and nothing has been fetched in
    either case. How a browser that cannot be detected shows depends on the
    platform. Where the version command cannot be started, its exception
    leaves [require_version], and so [download]. Where it runs and prints
    nothing but blanks, [require_version] on Linux and on macOS returns the
    empty string, and caches nothing, so that it is [download] that raises;
    on Windows the subscript [[-1]] of the empty list of words raises
    [IndexError] in [require_version] itself. On a platform the installer
    does not know, both raise the [RuntimeError] of
    [get_platform_architecture]. *)
Theorem chrome_download_needs_version (w : world) :
  (forall w1, ChromeInstaller.require_version h w = (Ret "", w1) ->
     ChromeInstaller.download h w
     = (Raise (Exception "크롬이 설치되어 있는지 확인하세요."), w1)
     /\ fetched w1 = fetched w)
  /\ (forall e w1, ChromeInstaller.require_version h w = (Raise e, w1) ->
        ChromeInstaller.download h w = (Raise e, w1) /\ fetched w1 = fetched w)
  /\ (forall r w', ChromeInstaller.download h w = (r, w') ->
        fetched w' <> fetched w ->
        exists v w1,
          ChromeInstaller.require_version h w = (Ret v, w1) /\ truthy v = true)
  /\ (self_dict w !! "_require_version" = None ->
      (Spec.linux64 h ->
         (forall e, popen h ["chromium-browser"; "--version"] = Raise e ->
            ChromeInstaller.require_version h w = (Raise e, w)
            /\ ChromeInstaller.download h w = (Raise e, w))
         /\ (forall out, popen h ["chromium-browser"; "--version"] = Ret out ->
               Spec.all isspace out = true ->
               ChromeInstaller.require_version h w = (Ret "", w)
               /\ ChromeInstaller.download h w
                  = (Raise (Exception "크롬이 설치되어 있는지 확인하세요."), w)))
      /\ (Spec.darwin h ->
            (forall e,
               popen h ["/Applications/Google Chrome.app/Contents/MacOS/Google Chrome";
                        "--version"] = Raise e ->
               ChromeInstaller.require_version h w = (Raise e, w)
               /\ ChromeInstaller.download h w = (Raise e, w))
            /\ (forall out,
                  popen h ["/Applications/Google Chrome.app/Contents/MacOS/Google Chrome";
                           "--version"] = Ret out ->
                  Spec.all isspace out = true ->
                  ChromeInstaller.require_version h w = (Ret "", w)
                  /\ ChromeInstaller.download h w
                     = (Raise (Exception "크롬이 설치되어 있는지 확인하세요."), w)))
      /\ (Spec.win h ->
            (forall e,
               popen h ["reg"; "query";
                        "HKEY_CURRENT_USER\Software\Google\Chrome\BLBeacon";
                        "/v"; "version"] = Raise e ->
               ChromeInstaller.require_version h w = (Raise e, w)
               /\ ChromeInstaller.download h w = (Raise e, w))
            /\ (forall out,
                  popen h ["reg"; "query";
                           "HKEY_CURRENT_USER\Software\Google\Chrome\BLBeacon";
                           "/v"; "version"] = Ret out ->
                  Spec.all isspace out = true ->
                  ChromeInstaller.require_version h w = (Raise IndexError, w)
                  /\ ChromeInstaller.download h w = (Raise IndexError, w)))
      /\ ((Spec.supported h -> False) ->
          ChromeInstaller.require_version h w
          = (Raise (RuntimeError
                      "Could not determine chromedriver download URL for this platform."),
             w)
          /\ ChromeInstaller.download h w
             = (Raise (RuntimeError
                         "Could not determine chromedriver download URL for this platform."),
                w))).
Proof.
  assert (Raises : forall e, ChromeInstaller.require_version h w = (Raise e, w) ->
            ChromeInstaller.require_version h w = (Raise e, w)
            /\ ChromeInstaller.download h w = (Raise e, w)).
  { intros e R. split; [exact R|apply chrome_download_raises, R]. }
  assert (Empty : ChromeInstaller.require_version h w = (Ret "", w) ->
            ChromeInstaller.require_version h w = (Ret "", w)
            /\ ChromeInstaller.download h w
               = (Raise (Exception "크롬이 설치되어 있는지 확인하세요."), w)).
  { intros R. split; [exact R|apply chrome_download_empty, R]. }
  split; [|split; [|split]].
  - intros w1 E. split; [apply chrome_download_empty, E|].
    exact (chrome_require_version_no_fetch h _ _ _ E).
  - intros e w1 E. split; [apply chrome_download_raises, E|].
    exact (chrome_require_version_no_fetch h _ _ _ E).
  - intros r w'. unfold ChromeInstaller.download.
    destruct (ChromeInstaller.require_version h w) as [[v|e] w1] eqn:E.
    + destruct (truthy v) eqn:T; [eauto|].
      rewrite (bind_ret _ _ _ _ _ E), T. intros [= <- <-] N.
      destruct N. exact (chrome_require_version_no_fetch h _ _ _ E).
    + rewrite (bind_raise _ _ _ _ _ E). intros [= <- <-] N.
      destruct N. exact (chrome_require_version_no_fetch h _ _ _ E).
  - intros C. split; [|split; [|split]].
    + intros L. split.
      * intros e P. apply Raises.
        rewrite (chrome_require_version_query w _ _ C (chrome_platform_linux L)).
        unfold ChromeInstaller.query_browser.
        change (String.eqb "linux" "linux") with true. cbv iota.
        rewrite P. reflexivity.
      * intros out P B. apply Empty.
        rewrite (chrome_require_version_query w _ _ C (chrome_platform_linux L)).
        unfold ChromeInstaller.query_browser.
        change (String.eqb "linux" "linux") with true. cbv iota.
        rewrite P. unfold lift at 1, bind at 1 2.
        rewrite (replace_blank out "" "C" "hromium") by (reflexivity || exact B).
        rewrite (strip_blank out B). reflexivity.
    + intros D. split.
      * intros e P. apply Raises.
        rewrite (chrome_require_version_query w _ _ C (chrome_platform_darwin D)).
        unfold ChromeInstaller.query_browser.
        change (String.eqb "mac" "linux") with false.
        change (String.eqb "mac" "mac") with true. cbv iota.
        rewrite P. reflexivity.
      * intros out P B. apply Empty.
        rewrite (chrome_require_version_query w _ _ C (chrome_platform_darwin D)).
        unfold ChromeInstaller.query_browser.
        change (String.eqb "mac" "linux") with false.
        change (String.eqb "mac" "mac") with true. cbv iota.
        rewrite P. unfold lift at 1, bind at 1 2.
        rewrite (replace_blank out "" "G" "oogle Chrome") by (reflexivity || exact B).
        rewrite (strip_blank out B). reflexivity.
    + intros W. split.
      * intros e P. apply Raises.
        rewrite (chrome_require_version_query w _ _ C (chrome_platform_win W)).
        unfold ChromeInstaller.query_browser.
        change (String.eqb "win" "linux") with false.
        change (String.eqb "win" "mac") with false.
        change (String.eqb "win" "win") with true. cbv iota.
        rewrite P. reflexivity.
      * intros out P B. apply Raises.
        rewrite (chrome_require_version_query w _ _ C (chrome_platform_win W)).
        unfold ChromeInstaller.query_browser.
        change (String.eqb "win" "linux") with false.
        change (String.eqb "win" "mac") with false.
        change (String.eqb "win" "win") with true. cbv iota.
        rewrite P. unfold lift at 1, bind at 1 2.
        rewrite (strip_blank out B). reflexivity.
    + intros U. apply Raises. unfold ChromeInstaller.require_version.
      rewrite (bind_ret _ _ w None w) by (unfold getattr, gets; rewrite C; reflexivity).
      unfold ChromeInstaller.get_platform_architecture.
      destruct (unsupported_tests h U) as (-> & -> & ->). reflexivity.
Qed.

End ChromeDownload.

(** C7 on three machines: a Linux one whose browser command prints
    nothing, a Windows one whose registry query prints nothing, and a Mac
    without the browser. *)
Lemma chrome_download_needs_version_witness :
  (ChromeInstaller.require_version Scenario.linux Scenario.empty_disk
   = (Ret "", Scenario.empty_disk)
   /\ ChromeInstaller.download Scenario.linux Scenario.empty_disk
      = (Raise (Exception "크롬이 설치되어 있는지 확인하세요."), Scenario.empty_disk))
  /\ (ChromeInstaller.require_version Scenario.windows_no_chrome Scenario.no_driver
      = (Raise IndexError, Scenario.no_driver)
      /\ ChromeInstaller.download Scenario.windows_no_chrome Scenario.no_driver
         = (Raise IndexError, Scenario.no_driver))
  /\ (ChromeInstaller.require_version Scenario.mac Scenario.empty_disk
      = (Raise (Other "FileNotFoundError"), Scenario.empty_disk)
      /\ ChromeInstaller.download Scenario.mac Scenario.empty_disk
         = (Raise (Other "FileNotFoundError"), Scenario.empty_disk)).
Proof.
  split; [|split].
  - destruct (chrome_download_needs_version Scenario.linux Scenario.empty_disk)
      as (_ & _ & _ & Uncached).
    destruct (Uncached eq_refl) as (Linux & _).
    apply (proj2 (Linux (conj eq_refl eq_refl)) ""); reflexivity.
  - destruct (chrome_download_needs_version Scenario.windows_no_chrome Scenario.no_driver)
      as (_ & _ & _ & Uncached).
    destruct (Uncached eq_refl) as (_ & _ & Windows & _).
    apply (proj2 (Windows eq_refl) ""); reflexivity.
  - destruct (chrome_download_needs_version Scenario.mac Scenario.empty_disk)
      as (_ & _ & _ & Uncached).
    destruct (Uncached eq_refl) as (_ & Mac & _).
    apply (proj1 (Mac eq_refl)). reflexivity.
Defined.

(** C7 as stated fails on Linux: where the browser's version command
    prints nothing, [require_version] returns the empty string and raises
    nothing. *)
Lemma chrome_require_version_empty :
  exists (h : host) (w : world),
    popen h ["chromium-browser"; "--version"] = Ret ""
    /\ ChromeInstaller.require_version h w = (Ret "", w).
Proof.
  exists Scenario.linux, Scenario.empty_disk. split; reflexivity.
Qed.

Section Install.

Variable h : host.

Lemma extend_path_unset (d : string) (w : world) :
  environ w !! "PATH" = None ->
  extend_path h d w = (Ret tt, set_environ <["PATH" := d]> w).
Proof.
  intros E. unfold extend_path, modify, set_environ. rewrite E. reflexivity.
Qed.

Lemma extend_path_present (d path : string) (w : world) :
  environ w !! "PATH" = Some path -> contains path d = true ->
  extend_path h d w = (Ret tt, w).
Proof.
  intros E C. unfold extend_path, modify, set_environ. rewrite E, C.
  destruct w; reflexivity.
Qed.

(** On Windows a [PATH] that lacks the directory is replaced by the
    directory and a [';']: what it held is dropped. *)
Lemma extend_path_windows (d path : string) (w : world) :
  is_win h = true ->
  environ w !! "PATH" = Some path -> contains path d = false ->
  extend_path h d w = (Ret tt, set_environ <["PATH" := d +:+ ";"]> w).
Proof.
  intros W E C. unfold extend_path, modify, set_environ. rewrite E, C, W.
  reflexivity.
Qed.

(** Elsewhere such a [PATH] gets a [':'] in front: the directory is not
    added. *)
Lemma extend_path_posix (d path : string) (w : world) :
  is_win h = false ->
  environ w !! "PATH" = Some path -> contains path d = false ->
  extend_path h d w = (Ret tt, set_environ <["PATH" := ":" +:+ path]> w).
Proof.
  intros W E C. unfold extend_path, modify, set_environ. rewrite E, C, W.
  reflexivity.
Qed.

(** What [install] leaves in [PATH] once [download] has returned. *)
Lemma install_run (self : InstallInterface) (w w1 : world) (p : string) :
  download self w = (Ret p, w1) ->
  install h self w
  = bind (extend_path h (if self_cwd w1 then cwd_abspath h else module_abspath h))
      (fun _ => binary_path h (binary_name self)) w1.
Proof. intros D. unfold install. rewrite (bind_ret _ _ _ _ _ D). reflexivity. Qed.

Lemma install_path_windows (self : InstallInterface) (w w1 : world) (p path : string) :
  is_win h = true ->
  download self w = (Ret p, w1) ->
  environ w1 !! "PATH" = Some path ->
  contains path (if self_cwd w1 then cwd_abspath h else module_abspath h) = false ->
  environ (snd (install h self w)) !! "PATH"
  = Some ((if self_cwd w1 then cwd_abspath h else module_abspath h) +:+ ";").
Proof.
  intros W D E C. rewrite (install_run _ _ _ _ D).
  rewrite (bind_ret _ _ _ _ _ (extend_path_windows _ _ _ W E C)).
  cbn. apply lookup_insert_eq.
Qed.

Lemma install_path_posix (self : InstallInterface) (w w1 : world) (p path : string) :
  is_win h = false ->
  download self w = (Ret p, w1) ->
  environ w1 !! "PATH" = Some path ->
  contains path (if self_cwd w1 then cwd_abspath h else module_abspath h) = false ->
  environ (snd (install h self w)) !! "PATH" = Some (":" +:+ path).
Proof.
  intros W D E C. rewrite (install_run _ _ _ _ D).
  rewrite (bind_ret _ _ _ _ _ (extend_path_posix _ _ _ W E C)).
  cbn. apply lookup_insert_eq.
Qed.

End Install.

(** C2 at two machines. On Windows, with a matching Chrome driver in
    [C:\drivers] and [PATH] holding two Windows directories, [install]
    returns and leaves [PATH] as ["C:\drivers;"]: the entry [C:\Windows] is
    gone. On Linux, where [install] of the IE family fetches the driver into
    [/opt/drivers], [PATH] becomes [":/usr/bin:/bin"]: the driver directory
    is not in it. *)
Theorem install_path_defect :
  (fst (install Scenario.windows (ChromeInstaller.self Scenario.windows)
          Scenario.chrome_installed)
   = Ret "C:\drivers\chromedriver.exe"
   /\ fst (driver_dir Scenario.windows Scenario.chrome_installed) = Ret "C:\drivers"
   /\ environ Scenario.chrome_installed !! "PATH"
      = Some "C:\Windows\system32;C:\Windows"
   /\ environ (snd (install Scenario.windows (ChromeInstaller.self Scenario.windows)
                      Scenario.chrome_installed)) !! "PATH"
      = Some "C:\drivers;"
   /\ In "C:\Windows" (split ";" "C:\Windows\system32;C:\Windows")
   /\ (In "C:\Windows" (split ";" "C:\drivers;") -> False))
  /\ (fst (install Scenario.linux_ie (IeInstaller.self Scenario.linux_ie)
             Scenario.empty_disk)
      = Ret "/opt/drivers/IEDriverServer.exe"
      /\ fst (driver_dir Scenario.linux_ie Scenario.empty_disk) = Ret "/opt/drivers"
      /\ environ Scenario.empty_disk !! "PATH" = Some "/usr/bin:/bin"
      /\ environ (snd (install Scenario.linux_ie (IeInstaller.self Scenario.linux_ie)
                         Scenario.empty_disk)) !! "PATH"
         = Some ":/usr/bin:/bin"
      /\ (In "/opt/drivers" (split ":" ":/usr/bin:/bin") -> False)
      /\ contains ":/usr/bin:/bin" "/opt/drivers" = false).
Proof.
  split.
  - split; [vm_compute; reflexivity|]. split; [reflexivity|].
    split; [vm_compute; reflexivity|]. split; [vm_compute; reflexivity|].
    split; [right; left; reflexivity|].
    vm_compute. intros [H|[H|[]]]; discriminate.
  - split; [vm_compute; reflexivity|]. split; [reflexivity|].
    split; [vm_compute; reflexivity|]. split; [vm_compute; reflexivity|].
    split; [|vm_compute; reflexivity].
    vm_compute. intros [H|[H|[H|[]]]]; discriminate.
Qed.

Section Again.

Variable h : host.

Lemma ensures_binary_path (name : string) :
  ensures (binary_path h name) (fun p w => p = Spec.path_in h name w).
Proof. intros w a w' [= <- <-]. reflexivity. Qed.

Lemma stable_elim (P : world -> Prop) {A} (m : M world A) (w w' : world)
    (r : outcome A) :
  stable P m -> P w -> m w = (r, w') -> P w'.
Proof. intros S H E. exact (S _ _ _ H E). Qed.

Lemma ensures_raise {A} (e : exn) (Q : A -> world -> Prop) : ensures (raise e) Q.
Proof. intros w a w'. discriminate. Qed.

(** The end of every [download]: the execute permission is seen to, and
    the path is returned. Nothing is fetched. *)
Lemma download_tail_run (name : string) (w : world) :
  is_Some (files w !! Spec.path_in h name w) ->
  exists w2,
    (let* path := binary_path h name in
     let* x := access_x h path in
     let* _ := when (negb x) (chmod_x path) in
     binary_path h name) w
    = (Ret (Spec.path_in h name w), w2)
    /\ fetched w2 = fetched w /\ self_dict w2 = self_dict w.
Proof.
  intros [f F]. rewrite (bind_ret _ _ _ _ _ (binary_path_in h name w)).
  unfold access_x at 1, gets at 1, bind at 1. rewrite F.
  destruct (is_win h || f_exec f); cbn [negb when].
  - exists w. split; [reflexivity|]. split; reflexivity.
  - unfold chmod_x, bind. rewrite F. eexists. split; [reflexivity|].
    split; reflexivity.
Qed.

(** *** IE *)

Lemma ie_download_returns_path :
  ensures (IeInstaller.download h)
    (fun p w => p = Spec.path_in h IeInstaller.binary_name w).
Proof.
  unfold IeInstaller.download. do 7 (apply ensures_bind; intros ?).
  apply ensures_binary_path.
Qed.

Lemma ie_has_require_version_quiet (w : world) :
  stable (Spec.quiet w) (IeInstaller.has_require_version h).
Proof.
  unfold IeInstaller.has_require_version, IeInstaller.require_version,
    IeInstaller.current_version, IeInstaller.binary_path.
  repeat stable_step.
Qed.

Lemma quiet_refl (w : world) : Spec.quiet w w.
Proof. repeat split. Qed.

Lemma quiet_path (name : string) (w w' : world) :
  Spec.quiet w w' -> Spec.path_in h name w' = Spec.path_in h name w.
Proof. intros (_ & C & _). unfold Spec.path_in. rewrite C. reflexivity. Qed.

Lemma isfile_present (path : string) (w : world) :
  is_Some (files w !! path) -> isfile path w = (Ret true, w).
Proof.
  intros F. unfold isfile, gets. rewrite bool_decide_eq_true_2 by exact F.
  reflexivity.
Qed.

Lemma ie_download_again (w0 w1 w1' : world) (p : string) :
  IeInstaller.download h w0 = (Ret p, w1) ->
  is_Some (files w1 !! p) ->
  IeInstaller.has_require_version h w1 = (Ret true, w1') ->
  exists w2,
    IeInstaller.download h w1 = (Ret p, w2)
    /\ fetched w2 = fetched w1 /\ fetched w1' = fetched w1.
Proof.
  intros D F V. apply ie_download_returns_path in D. cbn beta in D.
  pose proof (ie_has_require_version_quiet w1 _ _ _ (quiet_refl w1) V) as Q.
  destruct (download_tail_run IeInstaller.binary_name w1') as (w2 & T & Tf & _).
  { rewrite (quiet_path _ _ _ Q), <- D. destruct Q as (-> & _). exact F. }
  exists w2. unfold IeInstaller.download, IeInstaller.binary_path.
  rewrite (bind_ret _ _ _ _ _ (binary_path_in h _ w1)), <- D.
  rewrite (bind_ret _ _ _ _ _ (isfile_present _ _ F)). cbn [negb].
  assert (Dec : (let* ok := IeInstaller.has_require_version h in ret (negb ok)) w1
                = (Ret false, w1'))
    by (rewrite (bind_ret _ _ _ _ _ V); reflexivity).
  rewrite (bind_ret _ _ _ _ _ Dec).
  rewrite (bind_ret _ _ w1' tt w1') by reflexivity.
  rewrite T, (quiet_path _ _ _ Q), <- D.
  destruct Q as (_ & _ & Qf). split; [reflexivity|]. split; congruence.
Qed.

(** *** What keeps a cached required version *)

Lemma cached_log_fetch (url : string) (w : world) :
  Spec.require_cached w -> Spec.require_cached (log_fetch url w).
Proof. exact id. Qed.

Lemma cached_set_files (f : gmap string file -> gmap string file) (w : world) :
  Spec.require_cached w -> Spec.require_cached (set_files f w).
Proof. exact id. Qed.

Lemma cached_setattr (name value : string) (w : world) :
  Spec.require_cached w ->
  Spec.require_cached (set_self_dict <[name := value]> w).
Proof.
  unfold Spec.require_cached. cbn. intros H. apply lookup_insert_is_Some.
  destruct (decide (name = "_require_version")); auto.
Qed.

Lemma cached_setattr_new (value : string) (w : world) :
  Spec.require_cached (set_self_dict <["_require_version" := value]> w).
Proof. unfold Spec.require_cached. cbn. rewrite lookup_insert_eq. eauto. Qed.

Lemma quiet_set_self_dict (w0 : world) (f : gmap string string -> gmap string string)
    (w : world) :
  Spec.quiet w0 w -> Spec.quiet w0 (set_self_dict f w).
Proof. exact id. Qed.

Create HintDb frame.

#[local] Hint Resolve cached_log_fetch cached_set_files cached_setattr quiet_set_self_dict
  : frame.

Ltac stable_auto :=
  repeat first
    [ stable_step | apply stable_urlopen | apply stable_setattr
    | apply stable_chmod_x | apply stable_zip_extract | apply stable_tar_extract ];
  intros; eauto with frame.

(** *** Firefox *)

Lemma firefox_download_returns_path :
  ensures (FireFoxInstaller.download h)
    (fun p w => p = Spec.path_in h (FireFoxInstaller.binary_name h) w).
Proof.
  unfold FireFoxInstaller.download. do 7 (apply ensures_bind; intros ?).
  apply ensures_binary_path.
Qed.

Lemma firefox_require_version_caches :
  ensures (FireFoxInstaller.require_version h) (fun _ w => Spec.require_cached w).
Proof.
  intros w v w'. unfold FireFoxInstaller.require_version.
  rewrite (bind_ret _ _ w (self_dict w !! "_require_version") w) by reflexivity.
  destruct (self_dict w !! "_require_version") as [c|] eqn:C.
  { intros [= <- <-]. red. rewrite C. eauto. }
  intros (doc & w1 & _ & E)%bind_ret_inv.
  destruct (negb _); [discriminate|].
  apply bind_ret_inv in E as (tag & w2 & _ & E).
  apply bind_ret_inv in E as ([] & w3 & [= <-] & [= _ <-]).
  apply cached_setattr_new.
Qed.

Lemma firefox_current_version_stable (P : world -> Prop) :
  (forall w x, P w -> P (set_self_dict <["_current_version" := x]> w)) ->
  stable P (FireFoxInstaller.current_version h).
Proof.
  intros F. unfold FireFoxInstaller.current_version, FireFoxInstaller.binary_path.
  stable_auto.
Qed.

Lemma firefox_has_require_version_caches :
  ensures (FireFoxInstaller.has_require_version h) (fun _ w => Spec.require_cached w).
Proof.
  unfold FireFoxInstaller.has_require_version. apply ensures_bind. intros c.
  apply ensures_stable; [apply firefox_require_version_caches|].
  intros r. apply stable_ret.
Qed.

Lemma firefox_get_download_url_caches :
  ensures (FireFoxInstaller.get_download_url h) (fun _ w => Spec.require_cached w).
Proof.
  unfold FireFoxInstaller.get_download_url. apply ensures_bind. intros pa.
  apply ensures_stable; [apply firefox_require_version_caches|].
  intros v1. unfold FireFoxInstaller.require_version. stable_auto.
Qed.

(** A [download] of the Firefox family that returns has asked for the
    required version, which is cached from then on. *)
Lemma firefox_download_caches :
  ensures (FireFoxInstaller.download h) (fun _ w => Spec.require_cached w).
Proof.
  unfold FireFoxInstaller.download.
  apply ensures_bind. intros path. apply ensures_bind. intros present.
  intros w p w' (fetch & wb & Dec & E)%bind_ret_inv.
  apply bind_ret_inv in E as ([] & wc & Br & Tl).
  assert (C : Spec.require_cached wc).
  { destruct present; cbn [negb] in Dec.
    - apply bind_ret_inv in Dec as (ok & wb' & V & [= <- <-]).
      apply firefox_has_require_version_caches in V.
      revert Br. apply (stable_elim Spec.require_cached); [|exact V].
      unfold FireFoxInstaller.get_download_url, FireFoxInstaller.require_version.
      stable_auto.
    - injection Dec as <- <-.
      apply bind_ret_inv in Br as (url & wy & U & Br).
      apply firefox_get_download_url_caches in U.
      revert Br. apply (stable_elim Spec.require_cached); [|exact U].
      stable_auto. }
  revert Tl. apply (stable_elim Spec.require_cached); [|exact C].
  unfold FireFoxInstaller.binary_path. stable_auto.
Qed.

Lemma firefox_has_require_version_quiet (w w' : world) (r : outcome bool) :
  Spec.require_cached w ->
  FireFoxInstaller.has_require_version h w = (r, w') -> Spec.quiet w w'.
Proof.
  intros C. unfold FireFoxInstaller.has_require_version. intros E.
  assert (S : stable (fun x => Spec.quiet w x /\ Spec.require_cached x)
                (FireFoxInstaller.current_version h)).
  { apply firefox_current_version_stable. intros x v [Q K]. eauto with frame. }
  apply bind_inv in E as [(e & E & _)|(c & wa & E & K)].
  - apply (S _ _ _ (conj (quiet_refl w) C) E).
  - destruct (S _ _ _ (conj (quiet_refl w) C) E) as [Q [v V]].
    rewrite (bind_ret _ _ _ _ _ (firefox_require_version_cached h wa v V)) in K.
    injection K as _ <-. exact Q.
Qed.

Lemma firefox_download_again (w0 w1 w1' : world) (p : string) :
  FireFoxInstaller.download h w0 = (Ret p, w1) ->
  is_Some (files w1 !! p) ->
  FireFoxInstaller.has_require_version h w1 = (Ret true, w1') ->
  exists w2,
    FireFoxInstaller.download h w1 = (Ret p, w2)
    /\ fetched w2 = fetched w1 /\ fetched w1' = fetched w1.
Proof.
  intros D F V. pose proof (firefox_download_caches _ _ _ D) as C.
  apply firefox_download_returns_path in D. cbn beta in D.
  pose proof (firefox_has_require_version_quiet _ _ _ C V) as Q.
  destruct (download_tail_run (FireFoxInstaller.binary_name h) w1') as (w2 & T & Tf & _).
  { rewrite (quiet_path _ _ _ Q), <- D. destruct Q as (-> & _). exact F. }
  exists w2. unfold FireFoxInstaller.download, FireFoxInstaller.binary_path.
  rewrite (bind_ret _ _ _ _ _ (binary_path_in h _ w1)), <- D.
  rewrite (bind_ret _ _ _ _ _ (isfile_present _ _ F)). cbn [negb].
  assert (Dec : (let* ok := FireFoxInstaller.has_require_version h in ret (negb ok)) w1
                = (Ret false, w1'))
    by (rewrite (bind_ret _ _ _ _ _ V); reflexivity).
  rewrite (bind_ret _ _ _ _ _ Dec).
  rewrite (bind_ret _ _ w1' tt w1') by reflexivity.
  rewrite T, (quiet_path _ _ _ Q), <- D.
  destruct Q as (_ & _ & Qf). split; [reflexivity|]. split; congruence.
Qed.

(** *** Chrome *)

Lemma chrome_download_returns_path :
  ensures (ChromeInstaller.download h)
    (fun p w => p = Spec.path_in h (ChromeInstaller.binary_name h) w).
Proof.
  unfold ChromeInstaller.download. apply ensures_bind. intros v.
  destruct (negb (truthy v)); [apply ensures_raise|].
  do 7 (apply ensures_bind; intros ?). apply ensures_binary_path.
Qed.

Lemma chrome_require_version_caches (w w' : world) (v : string) :
  ChromeInstaller.require_version h w = (Ret v, w') -> truthy v = true ->
  self_dict w' !! "_require_version" = Some v.
Proof.
  unfold ChromeInstaller.require_version.
  rewrite (bind_ret _ _ w (self_dict w !! "_require_version") w) by reflexivity.
  destruct (self_dict w !! "_require_version") as [c|] eqn:C.
  { intros [= <- <-] _. exact C. }
  intros (pa & w1 & _ & E)%bind_ret_inv T.
  apply bind_ret_inv in E as (version & w2 & _ & E).
  apply bind_ret_inv in E as ([] & w3 & S & [= <- <-]).
  rewrite T in S. injection S as <-. apply lookup_insert_eq.
Qed.

Section Cached.

Variable v : string.

Lemma holds_current (w : world) (x : string) :
  Spec.require_is v w -> Spec.require_is v (set_self_dict <["_current_version" := x]> w).
Proof.
  unfold Spec.require_is. cbn. rewrite lookup_insert_ne by discriminate. exact id.
Qed.

Lemma chrome_require_version_holds : stable (Spec.require_is v) (ChromeInstaller.require_version h).
Proof.
  intros w r w' H E. rewrite (chrome_require_version_cached h w v H) in E.
  injection E as _ <-. exact H.
Qed.

Lemma chrome_current_version_holds : stable (Spec.require_is v) (ChromeInstaller.current_version h).
Proof.
  unfold ChromeInstaller.current_version, ChromeInstaller.binary_path.
  stable_auto. apply holds_current. assumption.
Qed.

Lemma chrome_has_require_version_holds :
  stable (Spec.require_is v) (ChromeInstaller.has_require_version h).
Proof.
  unfold ChromeInstaller.has_require_version.
  repeat first [ apply chrome_require_version_holds
               | apply chrome_current_version_holds | stable_step ].
Qed.

Lemma chrome_get_download_url_holds :
  stable (Spec.require_is v) (ChromeInstaller.get_download_url h).
Proof.
  unfold ChromeInstaller.get_download_url.
  repeat first [ apply chrome_require_version_holds | stable_step
               | apply stable_urlopen; intros; assumption ].
Qed.

End Cached.

(** A [download] of the Chrome family that returns has found a non-empty
    required version, which is cached from then on. *)
Lemma chrome_download_caches :
  ensures (ChromeInstaller.download h)
    (fun _ w => exists v, self_dict w !! "_require_version" = Some v
                          /\ truthy v = true).
Proof.
  intros w p w'. unfold ChromeInstaller.download.
  intros (v & wa & R & E)%bind_ret_inv.
  destruct (truthy v) eqn:T; [|discriminate]. cbn [negb] in E.
  exists v. split; [|exact T].
  pose proof (chrome_require_version_caches _ _ _ R T) as C.
  revert E. apply (stable_elim (Spec.require_is v)); [|exact C].
  unfold ChromeInstaller.binary_path.
  repeat first [ apply chrome_has_require_version_holds
               | apply chrome_get_download_url_holds
               | stable_step | apply stable_urlopen | apply stable_chmod_x
               | apply stable_zip_extract ];
    intros; assumption.
Qed.

Lemma chrome_current_version_stable (P : world -> Prop) :
  (forall w x, P w -> P (set_self_dict <["_current_version" := x]> w)) ->
  stable P (ChromeInstaller.current_version h).
Proof.
  intros F. unfold ChromeInstaller.current_version, ChromeInstaller.binary_path.
  stable_auto.
Qed.

Lemma chrome_has_require_version_quiet (w : world) :
  stable (Spec.quiet w) (ChromeInstaller.has_require_version h).
Proof.
  unfold ChromeInstaller.has_require_version.
  repeat first
    [ apply chrome_require_version_stable; intros; assumption
    | apply chrome_current_version_stable; intros; assumption
    | stable_step ].
Qed.

Lemma chrome_download_again (w0 w1 w1' : world) (p : string) :
  ChromeInstaller.download h w0 = (Ret p, w1) ->
  is_Some (files w1 !! p) ->
  ChromeInstaller.has_require_version h w1 = (Ret true, w1') ->
  exists w2,
    ChromeInstaller.download h w1 = (Ret p, w2)
    /\ fetched w2 = fetched w1 /\ fetched w1' = fetched w1.
Proof.
  intros D F V. destruct (chrome_download_caches _ _ _ D) as (v & C & Tv).
  apply chrome_download_returns_path in D. cbn beta in D.
  pose proof (chrome_has_require_version_quiet w1 _ _ _ (quiet_refl w1) V) as Q.
  destruct (download_tail_run (ChromeInstaller.binary_name h) w1') as (w2 & T & Tf & _).
  { rewrite (quiet_path _ _ _ Q), <- D. destruct Q as (-> & _). exact F. }
  exists w2. unfold ChromeInstaller.download, ChromeInstaller.binary_path.
  rewrite (bind_ret _ _ _ _ _ (chrome_require_version_cached h w1 v C)), Tv.
  cbn [negb].
  rewrite (bind_ret _ _ _ _ _ (binary_path_in h _ w1)), <- D.
  rewrite (bind_ret _ _ _ _ _ (isfile_present _ _ F)). cbn [negb].
  assert (Dec : (let* ok := ChromeInstaller.has_require_version h in ret (negb ok)) w1
                = (Ret false, w1'))
    by (rewrite (bind_ret _ _ _ _ _ V); reflexivity).
  rewrite (bind_ret _ _ _ _ _ Dec).
  rewrite (bind_ret _ _ w1' tt w1') by reflexivity.
  rewrite T, (quiet_path _ _ _ Q), <- D.
  destruct Q as (_ & _ & Qf). split; [reflexivity|]. split; congruence.
Qed.

End Again.

(** C5. For every family: once a first [download] has returned, with the
    binary on disk and [has_require_version] answering true there, a second
    [download] on the same instance returns the same path and fetches
    nothing; nor does the check of the version. For Chrome and Firefox the
    first call has left the required version cached on the instance. *)
Theorem download_again_fetches_nothing (h : host) (f : family)
    (w0 w1 w1' : world) (p : string) :
  download (installer h f) w0 = (Ret p, w1) ->
  is_Some (files w1 !! p) ->
  has_require_version (installer h f) w1 = (Ret true, w1') ->
  (f = Ie \/ Spec.require_cached w1)
  /\ fetched w1' = fetched w1
  /\ exists w2,
       download (installer h f) w1 = (Ret p, w2) /\ fetched w2 = fetched w1.
Proof.
  destruct f; cbn [installer download has_require_version
    ChromeInstaller.self IeInstaller.self FireFoxInstaller.self]; intros D F V.
  - destruct (chrome_download_again h _ _ _ _ D F V) as (w2 & R & E1 & E2).
    destruct (chrome_download_caches h _ _ _ D) as (v & C & _).
    split; [right; red; rewrite C; eauto|]. eauto.
  - destruct (ie_download_again h _ _ _ _ D F V) as (w2 & R & E1 & E2).
    split; [left; reflexivity|]. eauto.
  - destruct (firefox_download_again h _ _ _ _ D F V) as (w2 & R & E1 & E2).
    split; [right; exact (firefox_download_caches h _ _ _ D)|]. eauto.
Qed.

(** On the Windows machine a first [download] without a driver fetches the
    listing and the archive. *)
Example first_download_fetches :
  fst (ChromeInstaller.download Scenario.windows_online Scenario.no_driver)
  = Ret "C:\drivers\chromedriver.exe"
  /\ fetched Scenario.downloaded
     = ["https://chromedriver.storage.googleapis.com/114.0.5735.90/chromedriver_win32.zip";
        "https://chromedriver.storage.googleapis.com"].
Proof. split; vm_compute; reflexivity. Qed.

(** C5 there: the second [download] fetches nothing. *)
Lemma download_again_fetches_nothing_witness :
  (Chrome = Ie \/ Spec.require_cached Scenario.downloaded)
  /\ fetched (snd (ChromeInstaller.has_require_version Scenario.windows_online
                     Scenario.downloaded))
     = fetched Scenario.downloaded
  /\ exists w2,
       download (installer Scenario.windows_online Chrome) Scenario.downloaded
       = (Ret "C:\drivers\chromedriver.exe", w2)
       /\ fetched w2 = fetched Scenario.downloaded.
Proof.
  apply (download_again_fetches_nothing Scenario.windows_online Chrome
           Scenario.no_driver).
  - vm_compute. reflexivity.
  - vm_compute. eexists. reflexivity.
  - vm_compute. reflexivity.
Defined.

End InstallerSpec.

(** ** Properties of the option factories *)

Module HelperSpec.
Import Py Helper MFacts PyFacts.

Lemma on_options_ret (self : nat) (f : options -> outcome options)
    (w : world) (o o' : options) :
  heap w !! self = Some o -> f o = Ret o' ->
  on_options self f w = (Ret tt, set_heap <[self := o']> w).
Proof. intros H F. unfold on_options. rewrite H, F. reflexivity. Qed.

Lemma truthy_user_agent (s : string) : truthy ("user-agent=" +:+ s) = true.
Proof. reflexivity. Qed.

(** What [FirefoxOptions.set_start_url] does to a live factory, for every
    [url]: the three preferences are set, the first to the address written
    in the method. *)
Lemma firefox_set_start_url_run (self : nat) (url : string) (w : world) (o : options) :
  heap w !! self = Some o ->
  FirefoxOptions.set_start_url self url w
  = (Ret self,
     set_heap <[self :=
       Options (arguments o) (experimental_options o) (properties o)
         (<["browser.startup.page" := VInt 1]>
            (<["browser.startup.blankWindow" := VBool false]>
               (<["browser.startup.homepage" := VStr "https://google.com"]>
                  (preferences o))))
         (user_js o)]> w).
Proof.
  intros H. unfold FirefoxOptions.set_start_url.
  erewrite bind_ret; [|apply (on_options_ret _ _ _ o); [exact H|reflexivity]].
  erewrite bind_ret;
    [|eapply on_options_ret; [apply lookup_insert_eq|reflexivity]].
  erewrite bind_ret;
    [|eapply on_options_ret; [apply lookup_insert_eq|reflexivity]].
  unfold ret, set_heap. cbn. rewrite !insert_insert_eq. reflexivity.
Qed.

(** The factory [FirefoxOptions()] makes: a new object whose profile has
    the two preferences set over those it starts with. *)
Lemma firefox_new_run (w : world) :
  FirefoxOptions.new w
  = (Ret (fresh (dom (heap w))),
     set_heap <[fresh (dom (heap w)) :=
       Options [] ∅ ∅
         (<["useAutomationExtension" := VBool false]>
            (<["dom.webdriver.enabled" := VBool false]> (profile_defaults w))) ∅]> w).
Proof. reflexivity. Qed.

(** C3 at the address ["https://example.com"]: after the call on a new
    Firefox factory the homepage preference holds ["https://google.com"],
    not the address passed; the other two preferences are as the claim says. *)
Theorem firefox_set_start_url_ignores_url :
  exists (self : nat) (w1 w2 : world) (o : options),
    FirefoxOptions.new Scenario.fresh_interpreter = (Ret self, w1)
    /\ FirefoxOptions.set_start_url self "https://example.com" w1 = (Ret self, w2)
    /\ heap w2 !! self = Some o
    /\ preferences o !! "browser.startup.homepage" = Some (VStr "https://google.com")
    /\ preferences o !! "browser.startup.blankWindow" = Some (VBool false)
    /\ preferences o !! "browser.startup.page" = Some (VInt 1)
    /\ (preferences o !! "browser.startup.homepage"
        = Some (VStr "https://example.com") -> False).
Proof.
  eexists. eexists. eexists. eexists.
  split; [apply firefox_new_run|].
  split; [apply firefox_set_start_url_run; apply lookup_insert_eq|].
  split; [apply lookup_insert_eq|].
  cbn [preferences]. split; [|split; [|split]].
  - rewrite lookup_insert_ne by discriminate.
    rewrite lookup_insert_ne by discriminate. apply lookup_insert_eq.
  - rewrite lookup_insert_ne by discriminate. apply lookup_insert_eq.
  - apply lookup_insert_eq.
  - rewrite lookup_insert_ne by discriminate.
    rewrite lookup_insert_ne by discriminate.
    rewrite lookup_insert_eq. intros E. inversion E.
Qed.

Lemma print_run (line : string) (w : world) :
  print line w
  = (Ret tt, World (heap w) (stdout w ++ [line]) (remote_timeout w)
               (profile_defaults w) (profile_frozen w)).
Proof. reflexivity. Qed.

(** C8. On a live factory of any variant and for any string, both setters
    return the receiver and raise nothing. The setter a variant does not
    support ([set_user_agent] of IE, [set_start_url] of Chrome) leaves every
    options object as it was and prints its notice. *)
Theorem setters_never_raise (v : variant) (self : nat) (s : string) (w : world) :
  is_Some (heap w !! self) ->
  (exists w1,
     set_user_agent (factory v) self s w = (Ret self, w1)
     /\ forall notice, unsupported_user_agent v = Some notice ->
          heap w1 = heap w /\ stdout w1 = stdout w ++ [notice])
  /\ (exists w2,
     set_start_url (factory v) self s w = (Ret self, w2)
     /\ forall notice, unsupported_start_url v = Some notice ->
          heap w2 = heap w /\ stdout w2 = stdout w ++ [notice]).
Proof.
  intros [o H]. destruct v; cbn [factory set_user_agent set_start_url
    IeOptions.class ChromeOptions.class FirefoxOptions.class
    unsupported_user_agent unsupported_start_url]; split.
  - eexists. split; [reflexivity|]. intros n [= <-]. split; reflexivity.
  - eexists. split; [|discriminate]. unfold IeOptions.set_start_url.
    erewrite bind_ret; [reflexivity|].
    apply (on_options_ret _ _ _ o); [exact H|reflexivity].
  - eexists. split; [|discriminate]. unfold ChromeOptions.set_user_agent.
    erewrite bind_ret; [reflexivity|].
    apply (on_options_ret _ _ _ o); [exact H|].
    unfold add_argument. rewrite truthy_user_agent. reflexivity.
  - eexists. split; [reflexivity|]. intros n [= <-]. split; reflexivity.
  - eexists. split; [|discriminate]. unfold FirefoxOptions.set_user_agent.
    erewrite bind_ret; [reflexivity|].
    apply (on_options_ret _ _ _ o); [exact H|reflexivity].
  - eexists. split; [|discriminate].
    apply firefox_set_start_url_run. exact H.
Qed.

(** C8 on the Chrome variant, with an empty user agent and an empty
    address. *)
Lemma setters_never_raise_witness :
  (exists w1,
     set_user_agent (factory Chrome) 0%nat "" Scenario.one_factory = (Ret 0%nat, w1)
     /\ forall notice, unsupported_user_agent Chrome = Some notice ->
          heap w1 = heap Scenario.one_factory
          /\ stdout w1 = stdout Scenario.one_factory ++ [notice])
  /\ (exists w2,
     set_start_url (factory Chrome) 0%nat "" Scenario.one_factory = (Ret 0%nat, w2)
     /\ forall notice, unsupported_start_url Chrome = Some notice ->
          heap w2 = heap Scenario.one_factory
          /\ stdout w2 = stdout Scenario.one_factory ++ [notice]).
Proof.
  apply (setters_never_raise Chrome 0%nat "" Scenario.one_factory).
  exists empty_options. apply lookup_insert_eq.
Defined.

End HelperSpec.

(** ** More on the option factories *)

Module HelperMore.
Import Py Helper MFacts HelperSpec.

Lemma fresh_unused (w : world) : heap w !! fresh (dom (heap w)) = None.
Proof. apply not_elem_of_dom. apply is_fresh. Qed.

(** X1. Making a factory of any variant returns an address that was not
    live, adds the new factory there and leaves every live factory as it
    was. The new options are the variant's: for IE the two properties set to
    true; for Chrome the one argument and the two experimental options; for
    Firefox a profile that holds the two preferences, set to false, over
    those a new profile of selenium starts with. The IE constructor prints
    its two notices, in this order, after what was printed before, and the
    others print nothing; the Chrome constructor sets the timeout of
    [RemoteConnection] to 30 seconds, whatever it was, and the others leave
    it. *)
Theorem new_allocates_fresh (v : variant) (w : world) :
  exists (self : nat) (w' : world),
    new (factory v) w = (Ret self, w')
    /\ heap w !! self = None
    /\ heap w'
       = <[self :=
            match v with
            | Ie =>
                Options [] ∅
                  (<["ignore_protected_mode_settings" := VBool true]>
                     (<["ignore_zoom_level" := VBool true]> ∅)) ∅ ∅
            | Chrome =>
                Options ["--disable-blink-features=AutomationControlled"]
                  (<["useAutomationExtension" := VBool false]>
                     (<["excludeSwitches" := VList ["enable-automation"]]> ∅)) ∅ ∅ ∅
            | Firefox =>
                Options [] ∅ ∅
                  (<["useAutomationExtension" := VBool false]>
                     (<["dom.webdriver.enabled" := VBool false]> (profile_defaults w)))
                  ∅
            end]> (heap w)
    /\ (forall l, is_Some (heap w !! l) -> heap w' !! l = heap w !! l)
    /\ stdout w'
       = stdout w
         ++ match v with
            | Ie => ["설정 -> 인터넷 옵션 -> 보안 탭의 4가지 영역 모두 보호 모드 사용 체크 확인";
                     "설정 -> 확대/축소 -> 100% 설정 확인"]
            | _ => []
            end
    /\ remote_timeout w'
       = match v with
         | Chrome => Some 30
         | _ => remote_timeout w
         end
    /\ profile_defaults w' = profile_defaults w
    /\ profile_frozen w' = profile_frozen w.
Proof.
  assert (Frame : forall o l, is_Some (heap w !! l) ->
            <[fresh (dom (heap w)) := o]> (heap w) !! l = heap w !! l).
  { intros o l [x H]. apply lookup_insert_ne. intros <-.
    rewrite fresh_unused in H. discriminate. }
  destruct v.
  - eexists. eexists. split; [reflexivity|].
    split; [apply fresh_unused|]. split; [reflexivity|]. split; [apply Frame|].
    cbn. rewrite <- List.app_assoc. repeat split.
  - eexists. eexists. split; [reflexivity|].
    split; [apply fresh_unused|]. split; [reflexivity|]. split; [apply Frame|].
    cbn. rewrite app_nil_r. repeat split.
  - eexists. eexists. split; [reflexivity|].
    split; [apply fresh_unused|]. split; [reflexivity|]. split; [apply Frame|].
    cbn. rewrite app_nil_r. repeat split.
Qed.

(** X3. [ChromeOptions.set_user_agent] appends: chaining two calls on a
    live factory leaves both [user-agent=] arguments, in the order of the
    calls, after the arguments there were; nothing is replaced and nothing
    else changes. *)
Theorem chrome_user_agents_accumulate (self : nat) (ua1 ua2 : string)
    (o : options) (w : world) :
  heap w !! self = Some o ->
  (let* s := ChromeOptions.set_user_agent self ua1 in
   ChromeOptions.set_user_agent s ua2) w
  = (Ret self,
     set_heap <[self :=
       Options (arguments o ++ ["user-agent=" +:+ ua1; "user-agent=" +:+ ua2])
         (experimental_options o) (properties o) (preferences o) (user_js o)]> w).
Proof.
  intros H. unfold ChromeOptions.set_user_agent.
  erewrite bind_ret; cycle 1.
  { erewrite bind_ret; [reflexivity|].
    apply (on_options_ret _ _ _ o); [exact H|reflexivity]. }
  erewrite bind_ret; cycle 1.
  { eapply on_options_ret; [apply lookup_insert_eq|reflexivity]. }
  unfold ret, set_heap. cbn. rewrite insert_insert_eq, <- List.app_assoc.
  reflexivity.
Qed.

(** X3 with two agents on the factory at address 0. *)
Lemma chrome_user_agents_accumulate_witness :
  (let* s := ChromeOptions.set_user_agent 0%nat "a" in
   ChromeOptions.set_user_agent s "b") Scenario.one_factory
  = (Ret 0%nat,
     set_heap <[0%nat :=
       Options (arguments empty_options ++ ["user-agent=" +:+ "a"; "user-agent=" +:+ "b"])
         (experimental_options empty_options) (properties empty_options)
         (preferences empty_options) (user_js empty_options)]> Scenario.one_factory).
Proof.
  apply (chrome_user_agents_accumulate 0%nat "a" "b" empty_options Scenario.one_factory).
  reflexivity.
Defined.

(** X4. [FirefoxOptions.set_user_agent] and [IeOptions.set_start_url]
    overwrite: on a live factory, chaining two calls is the same as making
    the second alone. *)
Theorem overwriting_setters_keep_last (self : nat) (a b : string) (w : world) :
  is_Some (heap w !! self) ->
  (let* s := FirefoxOptions.set_user_agent self a in
   FirefoxOptions.set_user_agent s b) w
  = FirefoxOptions.set_user_agent self b w
  /\ (let* s := IeOptions.set_start_url self a in IeOptions.set_start_url s b) w
     = IeOptions.set_start_url self b w.
Proof.
  intros [o H]. split.
  - unfold FirefoxOptions.set_user_agent.
    erewrite bind_ret; cycle 1.
    { erewrite bind_ret; [reflexivity|].
      apply (on_options_ret _ _ _ o); [exact H|reflexivity]. }
    erewrite bind_ret; cycle 1.
    { eapply on_options_ret; [apply lookup_insert_eq|reflexivity]. }
    erewrite (bind_ret _ _ w); cycle 1.
    { apply (on_options_ret _ _ _ o); [exact H|reflexivity]. }
    unfold ret, set_heap. cbn. rewrite !insert_insert_eq. reflexivity.
  - unfold IeOptions.set_start_url.
    erewrite bind_ret; cycle 1.
    { erewrite bind_ret; [reflexivity|].
      apply (on_options_ret _ _ _ o); [exact H|reflexivity]. }
    erewrite bind_ret; cycle 1.
    { eapply on_options_ret; [apply lookup_insert_eq|reflexivity]. }
    erewrite (bind_ret _ _ w); cycle 1.
    { apply (on_options_ret _ _ _ o); [exact H|reflexivity]. }
    unfold ret, set_heap. cbn. rewrite !insert_insert_eq. reflexivity.
Qed.

(** X4 on the factory at address 0. *)
Lemma overwriting_setters_keep_last_witness :
  (let* s := FirefoxOptions.set_user_agent 0%nat "a" in
   FirefoxOptions.set_user_agent s "b") Scenario.one_factory
  = FirefoxOptions.set_user_agent 0%nat "b" Scenario.one_factory
  /\ (let* s := IeOptions.set_start_url 0%nat "a" in IeOptions.set_start_url s "b")
       Scenario.one_factory
     = IeOptions.set_start_url 0%nat "b" Scenario.one_factory.
Proof.
  apply (overwriting_setters_keep_last 0%nat "a" "b" Scenario.one_factory).
  exists empty_options. reflexivity.
Defined.


(** Runs a chain of setters on a live factory whose options are known. *)
Ltac run_chain :=
  unfold IeOptions.set_user_agent, IeOptions.set_start_url,
    ChromeOptions.set_user_agent, ChromeOptions.set_start_url,
    FirefoxOptions.set_user_agent, FirefoxOptions.set_start_url,
    bind, on_options, print, modify, ret, set_heap;
  cbn;
  repeat (try match goal with
              | H : heap _ !! _ = Some _ |- _ => rewrite H
              end;
          rewrite ?lookup_insert_eq; cbn);
  rewrite ?insert_insert_eq.

(** X5. For every variant the two setters commute: on a live factory,
    chaining [set_user_agent] then [set_start_url] and chaining them the
    other way round return the same object and leave the same state. *)
Theorem setters_commute (v : variant) (self : nat) (ua url : string) (w : world) :
  is_Some (heap w !! self) ->
  (let* s := set_user_agent (factory v) self ua in set_start_url (factory v) s url) w
  = (let* s := set_start_url (factory v) self url in set_user_agent (factory v) s ua) w.
Proof.
  intros [o H]. destruct v; cbn [factory set_user_agent set_start_url
    IeOptions.class ChromeOptions.class FirefoxOptions.class].
  - run_chain. reflexivity.
  - run_chain. reflexivity.
  - run_chain.
    rewrite (insert_insert_ne _ "general.useragent.override" "browser.startup.page")
      by discriminate.
    rewrite (insert_insert_ne _ "general.useragent.override" "browser.startup.blankWindow")
      by discriminate.
    rewrite (insert_insert_ne _ "general.useragent.override" "browser.startup.homepage")
      by discriminate.
    reflexivity.
Qed.

(** X5 on the Firefox variant. *)
Lemma setters_commute_witness :
  (let* s := set_user_agent (factory Firefox) 0%nat "agent" in
   set_start_url (factory Firefox) s "https://example.com") Scenario.one_factory
  = (let* s := set_start_url (factory Firefox) 0%nat "https://example.com" in
     set_user_agent (factory Firefox) s "agent") Scenario.one_factory.
Proof.
  apply (setters_commute Firefox 0%nat "agent" "https://example.com" Scenario.one_factory).
  exists empty_options. reflexivity.
Defined.

End HelperMore.

(** ** The patterns, as functions of the text *)

Module ReMore.
Import Py Re PyFacts ReFacts.

Section Scan.

Context {R : Type}.

(** A greedy repetition whose continuation refuses nothing stops at the
    longest run. *)
Lemma rep_greedy_longest (cls : ascii -> bool) (s : string)
    (k : string -> string -> option R) :
  (forall m r, k m r = None -> False) ->
  exists r, rep_greedy cls 0 s k = k (Spec.span cls s) r.
Proof.
  revert k. induction s as [|c s IH]; intros k K; cbn.
  - exists "". reflexivity.
  - destruct (cls c) eqn:C; [|exists (String c s); reflexivity].
    destruct (IH (fun m r => k (String c m) r)) as (r & E).
    { intros m r. apply K. }
    rewrite E. destruct (k (String c (Spec.span cls s)) r) as [y|] eqn:Y.
    + exists r. symmetry. exact Y.
    + destruct (K _ _ Y).
Qed.

(** A lazy repetition whose continuation looks at the rest only stops at
    the first place where the continuation accepts. *)
Lemma rep_lazy_first (cls : ascii -> bool) (g : string -> option R) (s : string)
    (k : string -> string -> option R) :
  (forall m r, k m r = g r) -> rep_lazy cls 0 s k = Spec.first_accept cls g s.
Proof.
  revert k. induction s as [|c s IH]; intros k K; cbn; rewrite K.
  - destruct (g ""); reflexivity.
  - destruct (g (String c s)); [reflexivity|].
    destruct (cls c); [|reflexivity]. apply IH. intros m r. apply K.
Qed.

End Scan.

Lemma chrome_after (g r1 : string) :
  run (after chrome_version_re) r1 (fun _ r2 => Some (g, r2)) = Some (g, r1).
Proof. destruct r1; reflexivity. Qed.

Lemma chrome_group_run (r0 : string) :
  fst <$> Spec.chrome_group r0
  = match r0 with
    | String c _ => if digit_or_dot c then Some (Spec.span digit_or_dot r0) else None
    | "" => None
    end.
Proof.
  unfold Spec.chrome_group. destruct r0 as [|c s]; [reflexivity|].
  cbn [chrome_version_re group run rep_greedy]. destruct (digit_or_dot c) eqn:C;
    [|reflexivity].
  cbn [Nat.pred].
  destruct (rep_greedy_longest digit_or_dot s
              (fun m r =>
                 run [] r (fun m2 r2 =>
                   run (after chrome_version_re) r2
                     (fun _ r3 => Some (String c m +:+ m2, r3)))))
    as (r & E).
  { intros m r. cbn [run]. rewrite chrome_after. discriminate. }
  cbn [Spec.span]. rewrite C.
  etrans; [apply (f_equal (fmap fst))|].
  { etrans; [apply (f_equal (fun o => match o with Some x => Some x | None => _ end))|].
    - exact E.
    - cbn [run]. rewrite chrome_after. reflexivity. }
  cbn. rewrite app_empty_r. reflexivity.
Qed.

Lemma chrome_match_here (s : string) :
  match_here chrome_version_re s = Spec.first_accept dot Spec.chrome_group s.
Proof.
  unfold match_here. cbn [chrome_version_re before run].
  apply rep_lazy_first. reflexivity.
Qed.

Lemma first_accept_chrome (s : string) :
  fst <$> Spec.first_accept dot Spec.chrome_group s = Spec.first_version s.
Proof.
  induction s as [|c s IH].
  - reflexivity.
  - pose proof (chrome_group_run (String c s)) as G.
    cbn [Spec.first_accept Spec.first_version].
    destruct (Spec.chrome_group (String c s)) as [x|].
    + cbn in G. destruct (digit_or_dot c) eqn:C; [|discriminate].
      cbn [Spec.span]. rewrite C. exact G.
    + cbn in G. destruct (digit_or_dot c); [discriminate|].
      destruct (dot c); [exact IH|reflexivity].
Qed.

(** The Chrome pattern finds the first run of digits and dots of the
    first line, and nothing else. *)
Lemma chrome_match_group1 (s : string) :
  match_group1 chrome_version_re s
  = match Spec.first_version s with
    | Some v => Ret v
    | None => Raise TypeError
    end.
Proof.
  unfold match_group1. rewrite <- first_accept_chrome, chrome_match_here.
  destruct (Spec.first_accept dot Spec.chrome_group s) as [[g r]|]; reflexivity.
Qed.

Lemma first_version_truthy (s v : string) :
  Spec.first_version s = Some v -> truthy v = true.
Proof.
  induction s as [|c s IH]; cbn; [discriminate|].
  destruct (digit_or_dot c); [intros [= <-]; reflexivity|].
  destruct (dot c); [exact IH|discriminate].
Qed.

End ReMore.

(** ** The installers: frames, failures and first runs *)

Module InstallerMore.
Import Py Installer MFacts PyFacts FrameFacts InstallerSpec ReMore.

(** *** What every method keeps *)

(** The four memoized properties keep what caching a version keeps. *)
Section Memoized.

Variable h : host.
Variable P : world -> Prop.

Hypothesis P_fetch : forall w url, P w -> P (log_fetch url w).
Hypothesis P_attr : forall w name value, P w -> P (set_self_dict <[name := value]> w).

Ltac closed_step :=
  first
    [ stable_step
    | apply stable_urlopen; intros; apply P_fetch; assumption
    | apply stable_setattr; intros; apply P_attr; assumption ].

Lemma chrome_current_version_closed : stable P (ChromeInstaller.current_version h).
Proof.
  unfold ChromeInstaller.current_version, ChromeInstaller.binary_path.
  repeat closed_step.
Qed.

Lemma chrome_require_version_closed : stable P (ChromeInstaller.require_version h).
Proof.
  unfold ChromeInstaller.require_version, ChromeInstaller.query_browser.
  repeat closed_step.
Qed.

Lemma firefox_require_version_closed : stable P (FireFoxInstaller.require_version h).
Proof. unfold FireFoxInstaller.require_version. repeat closed_step. Qed.

Lemma firefox_current_version_closed : stable P (FireFoxInstaller.current_version h).
Proof.
  unfold FireFoxInstaller.current_version, FireFoxInstaller.binary_path.
  repeat closed_step.
Qed.

End Memoized.

(** The other methods keep what the memoized properties, a fetch and,
    for [download], a write to the disk keep. *)
Section Composite.

Variable h : host.
Variable P : world -> Prop.

Hypothesis P_fetch : forall w url, P w -> P (log_fetch url w).
Hypothesis chrome_require : stable P (ChromeInstaller.require_version h).
Hypothesis chrome_current : stable P (ChromeInstaller.current_version h).
Hypothesis firefox_require : stable P (FireFoxInstaller.require_version h).
Hypothesis firefox_current : stable P (FireFoxInstaller.current_version h).

Ltac composite_step :=
  first
    [ apply chrome_require | apply chrome_current
    | apply firefox_require | apply firefox_current
    | stable_step
    | apply stable_urlopen; intros; apply P_fetch; assumption ].

Lemma chrome_has_require_version_kept :
  stable P (ChromeInstaller.has_require_version h).
Proof. unfold ChromeInstaller.has_require_version. repeat composite_step. Qed.

Lemma chrome_get_download_url_kept : stable P (ChromeInstaller.get_download_url h).
Proof. unfold ChromeInstaller.get_download_url. repeat composite_step. Qed.

Lemma ie_has_require_version_kept : stable P (IeInstaller.has_require_version h).
Proof.
  unfold IeInstaller.has_require_version, IeInstaller.require_version,
    IeInstaller.current_version, IeInstaller.binary_path.
  repeat composite_step.
Qed.

Lemma ie_get_download_url_kept : stable P IeInstaller.get_download_url.
Proof.
  unfold IeInstaller.get_download_url, IeInstaller.require_version.
  repeat composite_step.
Qed.

Lemma firefox_has_require_version_kept :
  stable P (FireFoxInstaller.has_require_version h).
Proof. unfold FireFoxInstaller.has_require_version. repeat composite_step. Qed.

Lemma firefox_get_download_url_kept : stable P (FireFoxInstaller.get_download_url h).
Proof. unfold FireFoxInstaller.get_download_url. repeat composite_step. Qed.

Lemma has_require_version_kept (f : family) :
  stable P (has_require_version (installer h f)).
Proof.
  destruct f; [apply chrome_has_require_version_kept
              |apply ie_has_require_version_kept
              |apply firefox_has_require_version_kept].
Qed.

Lemma get_download_url_kept (f : family) :
  stable P (get_download_url (installer h f)).
Proof.
  destruct f; [apply chrome_get_download_url_kept
              |apply ie_get_download_url_kept
              |apply firefox_get_download_url_kept].
Qed.

Hypothesis P_files : forall w f, P w -> P (set_files f w).

Ltac download_step :=
  first
    [ apply chrome_has_require_version_kept | apply chrome_get_download_url_kept
    | apply ie_has_require_version_kept | apply ie_get_download_url_kept
    | apply firefox_has_require_version_kept | apply firefox_get_download_url_kept
    | apply stable_chmod_x; assumption
    | apply stable_zip_extract; assumption
    | apply stable_tar_extract; assumption
    | composite_step ].

Lemma download_kept (f : family) : stable P (download (installer h f)).
Proof.
  destruct f; cbn [installer download ChromeInstaller.self IeInstaller.self
    FireFoxInstaller.self];
    unfold ChromeInstaller.download, IeInstaller.download, FireFoxInstaller.download,
      ChromeInstaller.binary_path, IeInstaller.binary_path, FireFoxInstaller.binary_path;
    repeat download_step.
Qed.

End Composite.

Lemma stable_run {A} (P : world -> Prop) (m : M world A) (w : world) :
  stable P m -> P w -> P (snd (m w)).
Proof. intros S H. destruct (m w) as [r w'] eqn:E. exact (S _ _ _ H E). Qed.

Section Frame.

Variable h : host.

Lemma outside_fetch (w0 w : world) (url : string) :
  Spec.outside w0 w -> Spec.outside w0 (log_fetch url w).
Proof.
  intros (E & C & [urls F] & D). split; [exact E|]. split; [exact C|].
  split; [|exact D]. exists (url :: urls). cbn. rewrite F. reflexivity.
Qed.

Lemma outside_attr (w0 w : world) (name value : string) :
  Spec.outside w0 w -> Spec.outside w0 (set_self_dict <[name := value]> w).
Proof.
  intros (E & C & F & D). split; [exact E|]. split; [exact C|].
  split; [exact F|]. cbn. rewrite dom_insert_L.
  etrans; [exact D|apply union_subseteq_r].
Qed.

Lemma outside_files (w0 w : world) (f : gmap string file -> gmap string file) :
  Spec.outside w0 w -> Spec.outside w0 (set_files f w).
Proof. exact id. Qed.

Lemma outside_refl (w : world) : Spec.outside w w.
Proof.
  split; [reflexivity|]. split; [reflexivity|]. split; [exists []; reflexivity|].
  reflexivity.
Qed.

(** X8. No [download], [has_require_version] or [get_download_url] of any
    family changes the environment or the mode of the instance, removes an
    attribute of the instance, or drops an entry of the log of fetches; of
    the three only [download] can write to the disk. *)
Theorem download_leaves_environment (f : family) (w : world) :
  Spec.outside w (snd (download (installer h f) w))
  /\ Spec.outside w (snd (has_require_version (installer h f) w))
  /\ files (snd (has_require_version (installer h f) w)) = files w
  /\ Spec.outside w (snd (get_download_url (installer h f) w))
  /\ files (snd (get_download_url (installer h f) w)) = files w.
Proof.
  assert (O : forall w0, stable (Spec.outside w0) (download (installer h f))
                      /\ stable (Spec.outside w0) (has_require_version (installer h f))
                      /\ stable (Spec.outside w0) (get_download_url (installer h f))).
  { intros w0. split; [|split];
      [apply download_kept|apply has_require_version_kept|apply get_download_url_kept];
      first [ apply chrome_require_version_closed | apply chrome_current_version_closed
            | apply firefox_require_version_closed | apply firefox_current_version_closed
            | idtac ];
      eauto using outside_fetch, outside_attr, outside_files. }
  assert (F : stable (fun x => files x = files w) (has_require_version (installer h f))
           /\ stable (fun x => files x = files w) (get_download_url (installer h f))).
  { split; [apply has_require_version_kept|apply get_download_url_kept];
      first [ apply chrome_require_version_closed | apply chrome_current_version_closed
            | apply firefox_require_version_closed | apply firefox_current_version_closed
            | idtac ];
      intros; assumption. }
  destruct (O w) as (O1 & O2 & O3). destruct F as (F1 & F2).
  split; [apply (stable_run _ _ _ O1), outside_refl|].
  split; [apply (stable_run _ _ _ O2), outside_refl|].
  split; [apply (stable_run _ _ _ F1); reflexivity|].
  split; [apply (stable_run _ _ _ O3), outside_refl|].
  apply (stable_run _ _ _ F2); reflexivity.
Qed.

End Frame.

(** *** The cache is written once *)

Section WriteOnce.

Variable h : host.

Lemma chrome_current_version_cases (w w' : world) (r : outcome string) :
  ChromeInstaller.current_version h w = (r, w') ->
  w' = w
  \/ (self_dict w !! "_current_version" = None
      /\ exists v, r = Ret v /\ w' = set_self_dict <["_current_version" := v]> w).
Proof.
  unfold ChromeInstaller.current_version, ChromeInstaller.binary_path, binary_path,
    driver_dir, check_output, getattr, setattr, when, gets, modify, lift, bind, ret.
  intros E. repeat case_match; simplify_eq; eauto.
Qed.

Lemma chrome_require_version_cases (w w' : world) (r : outcome string) :
  ChromeInstaller.require_version h w = (r, w') ->
  w' = w
  \/ (self_dict w !! "_require_version" = None
      /\ exists v, r = Ret v /\ w' = set_self_dict <["_require_version" := v]> w).
Proof.
  unfold ChromeInstaller.require_version, ChromeInstaller.query_browser,
    getattr, setattr, when, gets, modify, lift, bind, ret.
  intros E. repeat case_match; simplify_eq; eauto.
Qed.

Lemma firefox_current_version_cases (w w' : world) (r : outcome string) :
  FireFoxInstaller.current_version h w = (r, w') ->
  w' = w
  \/ (self_dict w !! "_current_version" = None
      /\ exists v, r = Ret v /\ w' = set_self_dict <["_current_version" := v]> w).
Proof.
  unfold FireFoxInstaller.current_version, FireFoxInstaller.binary_path, binary_path,
    driver_dir, check_output, getattr, setattr, when, gets, modify, lift, bind, ret,
    raise.
  intros E. repeat case_match; simplify_eq; eauto.
Qed.

Lemma firefox_require_version_cases (w w' : world) (r : outcome string) :
  FireFoxInstaller.require_version h w = (r, w') ->
  w' = w
  \/ (self_dict w !! "_require_version" = None
      /\ exists url,
           w' = log_fetch url w
           \/ exists v, r = Ret v
                 /\ w' = set_self_dict <["_require_version" := v]> (log_fetch url w)).
Proof.
  unfold FireFoxInstaller.require_version, urlopen_,
    getattr, setattr, when, gets, modify, lift, bind, ret, raise.
  intros E. repeat case_match; simplify_eq; eauto 8.
Qed.

Lemma kept_cache_insert (w0 w : world) (name value : string) :
  self_dict w !! name = None -> Spec.kept_cache w0 w ->
  Spec.kept_cache w0 (set_self_dict <[name := value]> w).
Proof.
  intros N K k v H. cbn. rewrite lookup_insert_ne; [exact (K _ _ H)|].
  intros <-. rewrite (K _ _ H) in N. discriminate.
Qed.

Lemma kept_cache_refl (w : world) : Spec.kept_cache w w.
Proof. intros k v H. exact H. Qed.

Section Kept.

Variable w0 : world.

Lemma chrome_current_version_keeps :
  stable (Spec.kept_cache w0) (ChromeInstaller.current_version h).
Proof.
  intros w r w' K [->|(N & v & _ & ->)]%chrome_current_version_cases;
    [exact K|apply kept_cache_insert; assumption].
Qed.

Lemma chrome_require_version_keeps :
  stable (Spec.kept_cache w0) (ChromeInstaller.require_version h).
Proof.
  intros w r w' K [->|(N & v & _ & ->)]%chrome_require_version_cases;
    [exact K|apply kept_cache_insert; assumption].
Qed.

Lemma firefox_current_version_keeps :
  stable (Spec.kept_cache w0) (FireFoxInstaller.current_version h).
Proof.
  intros w r w' K [->|(N & v & _ & ->)]%firefox_current_version_cases;
    [exact K|apply kept_cache_insert; assumption].
Qed.

Lemma firefox_require_version_keeps :
  stable (Spec.kept_cache w0) (FireFoxInstaller.require_version h).
Proof.
  intros w r w' K [->|(N & url & [->|(v & _ & ->)])]%firefox_require_version_cases;
    [exact K|exact K|apply kept_cache_insert; assumption].
Qed.

Lemma download_keeps (f : family) :
  stable (Spec.kept_cache w0) (download (installer h f)).
Proof.
  apply download_kept;
    auto using chrome_current_version_keeps, chrome_require_version_keeps,
      firefox_current_version_keeps, firefox_require_version_keeps.
Qed.

Lemma has_require_version_keeps (f : family) :
  stable (Spec.kept_cache w0) (has_require_version (installer h f)).
Proof.
  apply has_require_version_kept;
    auto using chrome_current_version_keeps, chrome_require_version_keeps,
      firefox_current_version_keeps, firefox_require_version_keeps.
Qed.

End Kept.

(** X9. The version cache is write-once: an attribute the instance holds is
    still there, with its value, after [download] and after
    [has_require_version] of any family, whatever their outcome. So a
    version cached before a download is what the Chrome and the Firefox
    properties return after it, with no further query. *)
Theorem cached_versions_survive (w : world) :
  (forall f : family,
     Spec.kept_cache w (snd (download (installer h f) w))
     /\ Spec.kept_cache w (snd (has_require_version (installer h f) w)))
  /\ (forall c, self_dict w !! "_current_version" = Some c ->
        ChromeInstaller.current_version h (snd (ChromeInstaller.download h w))
        = (Ret c, snd (ChromeInstaller.download h w))
        /\ FireFoxInstaller.current_version h (snd (FireFoxInstaller.download h w))
           = (Ret c, snd (FireFoxInstaller.download h w)))
  /\ (forall v, self_dict w !! "_require_version" = Some v ->
        ChromeInstaller.require_version h (snd (ChromeInstaller.download h w))
        = (Ret v, snd (ChromeInstaller.download h w))
        /\ FireFoxInstaller.require_version h (snd (FireFoxInstaller.download h w))
           = (Ret v, snd (FireFoxInstaller.download h w))).
Proof.
  assert (D : forall f, Spec.kept_cache w (snd (download (installer h f) w))).
  { intros f. exact (stable_run _ _ w (download_keeps w f) (kept_cache_refl w)). }
  split; [|split].
  - intros f. split; [apply D|].
    exact (stable_run _ _ w (has_require_version_keeps w f) (kept_cache_refl w)).
  - intros c C. split.
    + apply chrome_current_version_cached. exact (D Chrome _ _ C).
    + apply firefox_current_version_cached. exact (D FireFox _ _ C).
  - intros v C. split.
    + apply chrome_require_version_cached. exact (D Chrome _ _ C).
    + apply firefox_require_version_cached. exact (D FireFox _ _ C).
Qed.

End WriteOnce.

(** *** What [download] leaves on the disk *)

Section Disk.

Variable h : host.

(** The end of every [download], read backwards: when it returns, the file
    is there and may be executed. *)
Lemma download_tail_returns (name : string) :
  ensures
    (let* path := binary_path h name in
     let* x := access_x h path in
     let* _ := when (negb x) (chmod_x path) in
     binary_path h name)
    (fun p w => p = Spec.path_in h name w
                /\ exists f, files w !! p = Some f /\ is_win h || f_exec f = true).
Proof.
  intros w p w'. rewrite (bind_ret _ _ _ _ _ (binary_path_in h name w)).
  unfold access_x at 1, gets at 1, bind at 1.
  destruct (files w !! Spec.path_in h name w) as [f|] eqn:F.
  - destruct (is_win h || f_exec f) eqn:X; cbn [negb when].
    + intros [= <- <-]. split; [reflexivity|]. exists f. auto.
    + unfold chmod_x, bind. rewrite F. intros [= <- <-].
      split; [reflexivity|]. eexists. split; [apply lookup_insert_eq|].
      apply orb_true_r.
  - cbn [negb when]. unfold chmod_x, bind. rewrite F. discriminate.
Qed.

(** X10. Whenever [download] of any family returns a path, that path is
    [binary_path] in the state it leaves, a file is there, and
    [os.access(path, X_OK)] holds for it. *)
Theorem download_returns_executable (f : family) (w w' : world) (p : string) :
  download (installer h f) w = (Ret p, w') ->
  p = Spec.path_in h (binary_name (installer h f)) w'
  /\ binary_path h (binary_name (installer h f)) w' = (Ret p, w')
  /\ isfile p w' = (Ret true, w')
  /\ access_x h p w' = (Ret true, w').
Proof.
  intros D.
  assert (Q : ensures (download (installer h f))
    (fun p w' => p = Spec.path_in h (binary_name (installer h f)) w'
       /\ exists x, files w' !! p = Some x /\ is_win h || f_exec x = true)).
  { destruct f; cbn [installer download binary_name ChromeInstaller.self
      IeInstaller.self FireFoxInstaller.self].
    - unfold ChromeInstaller.download. apply ensures_bind. intros v.
      destruct (negb (truthy v)); [apply ensures_raise|].
      do 4 (apply ensures_bind; intros ?). apply download_tail_returns.
    - unfold IeInstaller.download.
      do 4 (apply ensures_bind; intros ?). apply download_tail_returns.
    - unfold FireFoxInstaller.download.
      do 4 (apply ensures_bind; intros ?). apply download_tail_returns. }
  destruct (Q _ _ _ D) as (-> & x & F & X).
  split; [reflexivity|]. split; [reflexivity|].
  split.
  - apply isfile_present. rewrite F. eauto.
  - unfold access_x, gets. rewrite F, X. reflexivity.
Qed.

End Disk.

(** X10 for the first download on the Windows machine on line. *)
Lemma download_returns_executable_witness :
  "C:\drivers\chromedriver.exe"
  = Spec.path_in Scenario.windows_online
      (binary_name (installer Scenario.windows_online Chrome)) Scenario.downloaded
  /\ binary_path Scenario.windows_online
       (binary_name (installer Scenario.windows_online Chrome)) Scenario.downloaded
     = (Ret "C:\drivers\chromedriver.exe", Scenario.downloaded)
  /\ isfile "C:\drivers\chromedriver.exe" Scenario.downloaded
     = (Ret true, Scenario.downloaded)
  /\ access_x Scenario.windows_online "C:\drivers\chromedriver.exe" Scenario.downloaded
     = (Ret true, Scenario.downloaded).
Proof.
  apply (download_returns_executable Scenario.windows_online Chrome Scenario.no_driver).
  vm_compute. reflexivity.
Defined.

Section OneDisk.

Variable h : host.

Section OneFile.

Variables (w0 : world) (name : string).

Lemma only_driver_refl : Spec.only_driver h name w0 w0.
Proof. split; [reflexivity|]. intros q _. reflexivity. Qed.

Lemma only_driver_fetch (w : world) (url : string) :
  Spec.only_driver h name w0 w -> Spec.only_driver h name w0 (log_fetch url w).
Proof. exact id. Qed.

Lemma only_driver_attr (w : world) (k v : string) :
  Spec.only_driver h name w0 w ->
  Spec.only_driver h name w0 (set_self_dict <[k := v]> w).
Proof. exact id. Qed.

Lemma only_driver_write (w : world) (x : file) :
  Spec.only_driver h name w0 w ->
  Spec.only_driver h name w0 (set_files <[Spec.path_in h name w0 := x]> w).
Proof.
  intros [C F]. split; [exact C|]. intros q N. cbn.
  rewrite lookup_insert_ne by congruence. apply F, N.
Qed.

Lemma only_driver_path (w : world) :
  Spec.only_driver h name w0 w -> Spec.path_in h name w = Spec.path_in h name w0.
Proof. intros [C _]. unfold Spec.path_in. rewrite C. reflexivity. Qed.

(** While only the driver's file changes, [binary_path] gives the path it
    gave at [w0]. *)
Lemma stable_bind_binary_path {B} (k : string -> M world B) :
  stable (Spec.only_driver h name w0) (k (Spec.path_in h name w0)) ->
  stable (Spec.only_driver h name w0) (bind (binary_path h name) k).
Proof.
  intros K w r w' O. rewrite (bind_ret _ _ _ _ _ (binary_path_in h name w)).
  rewrite (only_driver_path w O). apply K, O.
Qed.

Lemma stable_bind_driver_dir {B} (k : string -> M world B) :
  stable (Spec.only_driver h name w0)
    (k (if self_cwd w0 then cwd_abspath h else module_abspath h)) ->
  stable (Spec.only_driver h name w0) (bind (driver_dir h) k).
Proof.
  intros K w r w' O. unfold driver_dir, gets, bind at 1.
  destruct O as [C F]. rewrite C. apply K. split; assumption.
Qed.

Lemma only_driver_chmod_x :
  stable (Spec.only_driver h name w0) (chmod_x (Spec.path_in h name w0)).
Proof.
  intros w r w' O. unfold chmod_x.
  destruct (files w !! Spec.path_in h name w0); intros [= <- <-];
    [apply only_driver_write|]; exact O.
Qed.

Lemma only_driver_zip_extract (archive : body) :
  stable (Spec.only_driver h name w0)
    (zip_extract h archive name
       (if self_cwd w0 then cwd_abspath h else module_abspath h)).
Proof.
  unfold zip_extract. destruct archive as [|ms| |]; try apply stable_raise.
  destruct (ms !! name); [|apply stable_raise].
  apply stable_modify. intros w. apply only_driver_write.
Qed.

Lemma only_driver_tar_extract (archive : body) :
  stable (Spec.only_driver h name w0)
    (tar_extract h archive name
       (if self_cwd w0 then cwd_abspath h else module_abspath h)).
Proof.
  unfold tar_extract. destruct archive as [| |ms|]; try apply stable_raise.
  destruct (ms !! name); [|apply stable_raise].
  apply stable_modify. intros w. apply only_driver_write.
Qed.

End OneFile.

Ltac one_file_step :=
  first
    [ apply stable_bind_binary_path | apply stable_bind_driver_dir
    | apply only_driver_chmod_x | apply only_driver_zip_extract
    | apply only_driver_tar_extract
    | apply chrome_require_version_closed
    | apply chrome_has_require_version_kept | apply chrome_get_download_url_kept
    | apply ie_has_require_version_kept | apply ie_get_download_url_kept
    | apply firefox_has_require_version_kept | apply firefox_get_download_url_kept
    | apply chrome_current_version_closed | apply firefox_current_version_closed
    | apply firefox_require_version_closed
    | stable_step
    | apply stable_urlopen ];
  try (intros; first [ apply only_driver_fetch | apply only_driver_attr ]; assumption).

(** X11. Whatever its outcome, [download] of any family changes no file
    but, at most, the one at the [binary_path] of the state it starts
    from. *)
Theorem download_writes_one_file (f : family) (w : world) :
  Spec.files_but (Spec.path_in h (binary_name (installer h f)) w) w
    (snd (download (installer h f) w)).
Proof.
  apply (stable_run (Spec.only_driver h (binary_name (installer h f)) w));
    [|apply only_driver_refl].
  destruct f; cbn [installer download binary_name ChromeInstaller.self IeInstaller.self
    FireFoxInstaller.self];
    unfold ChromeInstaller.download, IeInstaller.download, FireFoxInstaller.download,
      ChromeInstaller.binary_path, IeInstaller.binary_path, FireFoxInstaller.binary_path;
    repeat one_file_step.
Qed.

End OneDisk.

(** *** [install] *)

Section InstallMore.

Variable h : host.

Lemma download_returns_path (f : family) :
  ensures (download (installer h f))
    (fun p w => p = Spec.path_in h (binary_name (installer h f)) w).
Proof.
  destruct f; [apply chrome_download_returns_path|apply ie_download_returns_path
              |apply firefox_download_returns_path].
Qed.

(** X12. [install] is [download] followed by the update of PATH. An
    exception of [download] leaves [install] at once, in the state
    [download] left. When [download] returns the path [p], [install]
    returns [p] too and changes no more than the PATH entry of the
    environment: an unset PATH becomes [driver_dir], and a PATH that holds
    [driver_dir] as a substring stays as it is. *)
Theorem install_after_download (f : family) (w w1 : world) (r : outcome string) :
  download (installer h f) w = (r, w1) ->
  match r with
  | Raise e => install h (installer h f) w = (Raise e, w1)
  | Ret p =>
      exists w2,
        install h (installer h f) w = (Ret p, w2)
        /\ files w2 = files w1 /\ self_dict w2 = self_dict w1
        /\ self_cwd w2 = self_cwd w1 /\ fetched w2 = fetched w1
        /\ (forall k, k <> "PATH" -> environ w2 !! k = environ w1 !! k)
        /\ (forall d,
              environ w1 !! "PATH" = None -> driver_dir h w1 = (Ret d, w1) ->
              environ w2 !! "PATH" = Some d)
        /\ (forall path d,
              environ w1 !! "PATH" = Some path ->
              driver_dir h w1 = (Ret d, w1) -> contains path d = true ->
              environ w2 = environ w1)
  end.
Proof.
  intros D. unfold install. destruct r as [p|e].
  2:{ apply (bind_raise _ _ _ _ _ D). }
  rewrite (bind_ret _ _ _ _ _ D).
  pose proof (download_returns_path f _ _ _ D) as P. cbn beta in P.
  unfold driver_dir, extend_path, gets, modify, bind at 1 2.
  rewrite binary_path_in. eexists. split; [rewrite P; reflexivity|].
  cbn. repeat (split; [reflexivity|]). split; [|split].
  - intros k N. destruct (environ w1 !! "PATH") as [path|]; [|apply lookup_insert_ne; congruence].
    destruct (negb _); [apply lookup_insert_ne; congruence|reflexivity].
  - intros d -> [= <-]. apply lookup_insert_eq.
  - intros path d -> [= <-] ->. reflexivity.
Qed.

End InstallMore.

(** X12 on the Windows machine with the driver installed. *)
Lemma install_after_download_witness :
  exists w2,
    install Scenario.windows (installer Scenario.windows Chrome) Scenario.chrome_installed
    = (Ret "C:\drivers\chromedriver.exe", w2)
    /\ files w2 = files Scenario.chrome_installed
    /\ self_dict w2
       = self_dict (snd (ChromeInstaller.download Scenario.windows Scenario.chrome_installed))
    /\ self_cwd w2 = self_cwd Scenario.chrome_installed
    /\ fetched w2 = fetched Scenario.chrome_installed
    /\ (forall k, k <> "PATH" ->
          environ w2 !! k = environ Scenario.chrome_installed !! k).
Proof.
  destruct (install_after_download Scenario.windows Chrome Scenario.chrome_installed
              (snd (ChromeInstaller.download Scenario.windows Scenario.chrome_installed))
              (Ret "C:\drivers\chromedriver.exe"))
    as (w2 & I & F & D & C & L & E & _).
  - vm_compute. reflexivity.
  - exists w2. split; [exact I|]. split; [exact F|]. split; [exact D|].
    split; [exact C|]. split; [exact L|exact E].
Defined.

Section ChromeVersion.

Variable h : host.

(** X13. With no version cached, [ChromeInstaller.current_version] returns
    the first run of digits and dots on the first line of the driver's
    output, and caches it; when that line has no digit and no dot,
    subscripting the failed match raises [TypeError] and nothing is
    cached. *)
Theorem chrome_current_version_first_run (w : world) (path out : string) :
  self_dict w !! "_current_version" = None ->
  ChromeInstaller.binary_path h w = (Ret path, w) ->
  check_output h path w = (Ret out, w) ->
  ChromeInstaller.current_version h w
  = match Spec.first_version out with
    | Some v => (Ret v, set_self_dict <["_current_version" := v]> w)
    | None => (Raise TypeError, w)
    end.
Proof.
  intros C B O. unfold ChromeInstaller.current_version.
  rewrite (bind_ret _ _ w None w) by (unfold getattr, gets; rewrite C; reflexivity).
  rewrite (bind_ret _ _ _ _ _ B), (bind_ret _ _ _ _ _ O).
  unfold lift at 1, bind at 1. rewrite chrome_match_group1.
  destruct (Spec.first_version out) as [v|] eqn:V; [|reflexivity].
  unfold when. rewrite (first_version_truthy _ _ V). reflexivity.
Qed.

End ChromeVersion.

(** X13 on the Windows machine with the driver installed. *)
Lemma chrome_current_version_first_run_witness :
  ChromeInstaller.current_version Scenario.windows Scenario.chrome_installed
  = match Spec.first_version
            "ChromeDriver 114.0.5735.90 (386bc09e8f4f-refs/branch-heads/5735)" with
    | Some v => (Ret v, set_self_dict <["_current_version" := v]> Scenario.chrome_installed)
    | None => (Raise TypeError, Scenario.chrome_installed)
    end.
Proof.
  apply (chrome_current_version_first_run Scenario.windows Scenario.chrome_installed
           "C:\drivers\chromedriver.exe").
  - reflexivity.
  - reflexivity.
  - vm_compute. reflexivity.
Defined.

Example first_version_of_banner :
  Spec.first_version "ChromeDriver 114.0.5735.90 (386bc09e8f4f-refs/branch-heads/5735)"
  = Some "114.0.5735.90"
  /\ Spec.first_version "Starting ChromeDriver
114.0" = None
  /\ Spec.first_version "version ... unknown" = Some "...".
Proof. repeat split. Qed.

(** *** The release tag of Firefox *)

Lemma all_app (cls : ascii -> bool) (a b : string) :
  Spec.all cls (a +:+ b) = Spec.all cls a && Spec.all cls b.
Proof.
  induction a as [|c a IH]; [reflexivity|].
  rewrite app_cons. cbn. rewrite IH. apply andb_assoc.
Qed.

(** [sub in s] finds an occurrence. *)
Lemma find_from_sound (s sub : string) (i : Z) :
  find_from s sub i <> -1 -> exists pre post, s = pre +:+ sub +:+ post.
Proof.
  revert i. induction s as [|c s IH]; intros i; cbn [find_from].
  - destruct (startswith "" sub) eqn:S; [|congruence].
    intros _. apply startswith_inv in S as [t ->]. exists "", t. reflexivity.
  - destruct (startswith (String c s) sub) eqn:S.
    + intros _. apply startswith_inv in S as [t ->]. exists "", t. reflexivity.
    + intros (pre & post & ->)%IH. exists (String c pre), post. reflexivity.
Qed.

Lemma contains_sound (s sub : string) :
  contains s sub = true -> exists pre post, s = pre +:+ sub +:+ post.
Proof.
  unfold contains, find. intros H%Z.leb_le.
  apply (find_from_sound s sub 0). lia.
Qed.

(** The parts [s.split(sep)] gives: none has a [sep]; a single part is
    [s]; of several, the last is what follows the last [sep] of [s]. *)
Lemma split_shape (sep : ascii) (s : string) :
  exists x xs,
    split sep s = x :: xs
    /\ Spec.free_of sep x
    /\ (xs = [] -> s = x)
    /\ forall t, last (x :: xs) = Ret t ->
         Spec.free_of sep t
         /\ (xs <> [] -> exists pre, s = pre +:+ String sep t).
Proof.
  induction s as [|c s (x & xs & E & F & One & Last)].
  - exists "", []. split; [reflexivity|]. split; [reflexivity|].
    split; [reflexivity|]. intros t [= <-]. split; [reflexivity|]. congruence.
  - cbn [split]. destruct (Ascii.eqb_spec c sep) as [->|N].
    + exists "", (split sep s). split; [reflexivity|]. split; [reflexivity|].
      rewrite E. split; [discriminate|]. intros t T.
      change (last (x :: xs) = Ret t) in T. destruct (Last t T) as [Ft More].
      split; [exact Ft|]. intros _. destruct xs as [|y ys].
      * injection T as <-. rewrite (One eq_refl). exists "". reflexivity.
      * destruct More as [pre ->]; [discriminate|].
        exists (String sep pre). reflexivity.
    + rewrite E. exists (String c x), xs. split; [reflexivity|].
      assert (Fc : Spec.free_of sep (String c x)).
      { unfold Spec.free_of in *. cbn. rewrite F.
        destruct (Ascii.eqb_spec c sep); [contradiction|reflexivity]. }
      split; [exact Fc|]. split; [intros ->%One; reflexivity|].
      intros t T. destruct xs as [|y ys].
      * injection T as <-. split; [exact Fc|]. congruence.
      * change (last (x :: y :: ys) = Ret t) in T.
        destruct (Last t T) as [Ft More]. split; [exact Ft|]. intros _.
        destruct More as [pre ->]; [discriminate|].
        exists (String c pre). reflexivity.
Qed.

Lemma free_of_no_occurrence (sep : ascii) (pre sub post : string) :
  Spec.all (fun c => negb (Ascii.eqb c sep)) sub = false ->
  Spec.free_of sep (pre +:+ sub +:+ post) -> False.
Proof.
  unfold Spec.free_of. rewrite !all_app. intros ->.
  rewrite andb_false_r. discriminate.
Qed.

Section FirefoxTag.

Variable h : host.

(** X14. With no version cached, [FireFoxInstaller.require_version] fetches
    the latest-release page once. If the address it was redirected to holds
    "/tag/", the result is what follows the last "/" of that address (it
    holds no "/"), and it is cached; if not, the method raises its
    [Exception] after the fetch; an exception of [urlopen] leaves as it
    is. *)
Theorem firefox_require_version_tag (w : world) :
  self_dict w !! "_require_version" = None ->
  (forall doc,
     urlopen h "https://github.com/mozilla/geckodriver/releases/latest" = Ret doc ->
     contains (geturl doc) "/tag/" = true ->
     exists pre tag,
       geturl doc = pre +:+ "/" +:+ tag
       /\ Spec.free_of "/" tag
       /\ FireFoxInstaller.require_version h w
          = (Ret tag,
             set_self_dict <["_require_version" := tag]>
               (log_fetch "https://github.com/mozilla/geckodriver/releases/latest" w)))
  /\ (forall doc,
        urlopen h "https://github.com/mozilla/geckodriver/releases/latest" = Ret doc ->
        contains (geturl doc) "/tag/" = false ->
        FireFoxInstaller.require_version h w
        = (Raise (Exception "게코 드라이버 버전을 찾을 수 없음"),
           log_fetch "https://github.com/mozilla/geckodriver/releases/latest" w))
  /\ (forall e,
        urlopen h "https://github.com/mozilla/geckodriver/releases/latest" = Raise e ->
        FireFoxInstaller.require_version h w
        = (Raise e, log_fetch "https://github.com/mozilla/geckodriver/releases/latest" w)).
Proof.
  intros C.
  assert (Start : FireFoxInstaller.require_version h w
    = bind (urlopen_ h "https://github.com/mozilla/geckodriver/releases/latest")
        (fun response =>
           if negb (contains (geturl response) "/tag/")
           then raise (Exception "게코 드라이버 버전을 찾을 수 없음")
           else
             let* tag := lift (last (split "/" (geturl response))) in
             let* _ := setattr "_require_version" tag in
             lift (last (split "/" (geturl response)))) w).
  { unfold FireFoxInstaller.require_version.
    rewrite (bind_ret _ _ w None w) by (unfold getattr, gets; rewrite C; reflexivity).
    reflexivity. }
  rewrite Start. split; [|split].
  - intros doc U T. unfold urlopen_, bind at 1. rewrite U. cbv beta iota.
    destruct (split_shape "/" (geturl doc)) as (x & xs & E & _ & One & Last).
    destruct (last_split "/" (geturl doc)) as [tag L].
    rewrite E in L. destruct (Last tag L) as [F More].
    destruct More as [pre P].
    { intros ->. apply contains_sound in T as (a & b & T).
      specialize (One eq_refl). injection L as <-. rewrite <- One, T in F.
      revert F. apply free_of_no_occurrence. reflexivity. }
    exists pre, tag. split; [exact P|]. split; [exact F|].
    rewrite T, E, L. reflexivity.
  - intros doc U T. unfold urlopen_, bind at 1. rewrite U. cbv beta iota.
    rewrite T. reflexivity.
  - intros e U. unfold urlopen_, bind at 1. rewrite U. reflexivity.
Qed.

End FirefoxTag.

(** X14 on a machine for which the latest release resolves to v0.30.0. *)
Lemma firefox_require_version_tag_witness :
  exists pre tag,
    "https://github.com/mozilla/geckodriver/releases/tag/v0.30.0" = pre +:+ "/" +:+ tag
    /\ Spec.free_of "/" tag
    /\ FireFoxInstaller.require_version Scenario.firefox_online Scenario.empty_disk
       = (Ret tag,
          set_self_dict <["_require_version" := tag]>
            (log_fetch "https://github.com/mozilla/geckodriver/releases/latest"
               Scenario.empty_disk)).
Proof.
  apply (proj1 (firefox_require_version_tag Scenario.firefox_online Scenario.empty_disk
                  eq_refl)
           (Response 200 "https://github.com/mozilla/geckodriver/releases/tag/v0.30.0"
              Unknown));
    vm_compute; reflexivity.
Defined.

Example firefox_latest_tag :
  fst (FireFoxInstaller.require_version Scenario.firefox_online Scenario.empty_disk)
  = Ret "v0.30.0".
Proof. vm_compute. reflexivity. Qed.

(** *** Failures *)

Section Failures.

Variable h : host.

Lemma chrome_platform_unsupported :
  ~ Spec.supported h ->
  ChromeInstaller.get_platform_architecture h
  = Raise (RuntimeError "Could not determine chromedriver download URL for this platform.").
Proof.
  intros U. unfold ChromeInstaller.get_platform_architecture.
  destruct (unsupported_tests h U) as (-> & -> & ->). reflexivity.
Qed.

Lemma firefox_platform_unsupported :
  ~ Spec.supported h ->
  FireFoxInstaller.get_platform_architecture h
  = Raise (RuntimeError "Could not determine geckodriver download URL for this platform.").
Proof.
  intros U. unfold FireFoxInstaller.get_platform_architecture.
  destruct (unsupported_tests h U) as (-> & -> & ->). reflexivity.
Qed.

(** X15. On a platform that is none of 64-bit Linux, macOS and Windows the
    [RuntimeError] of [get_platform_architecture] is what the Chrome and
    Firefox methods built on it raise, with the state untouched:
    [get_download_url] of both, [require_version] and [download] of Chrome
    with no version cached, [download] of Firefox with no driver on
    disk. *)
Theorem unsupported_platform_raises (w : world) :
  ~ Spec.supported h ->
  (self_dict w !! "_require_version" = None ->
     ChromeInstaller.require_version h w
     = (Raise (RuntimeError
                 "Could not determine chromedriver download URL for this platform."), w)
     /\ ChromeInstaller.download h w
        = (Raise (RuntimeError
                    "Could not determine chromedriver download URL for this platform."),
           w))
  /\ ChromeInstaller.get_download_url h w
     = (Raise (RuntimeError
                 "Could not determine chromedriver download URL for this platform."), w)
  /\ FireFoxInstaller.get_download_url h w
     = (Raise (RuntimeError
                 "Could not determine geckodriver download URL for this platform."), w)
  /\ (files w !! Spec.path_in h (FireFoxInstaller.binary_name h) w = None ->
      FireFoxInstaller.download h w
      = (Raise (RuntimeError
                  "Could not determine geckodriver download URL for this platform."),
         w)).
Proof.
  intros U. pose proof (chrome_platform_unsupported U) as C.
  pose proof (firefox_platform_unsupported U) as F.
  assert (G : FireFoxInstaller.get_download_url h w
    = (Raise (RuntimeError
                "Could not determine geckodriver download URL for this platform."), w)).
  { unfold FireFoxInstaller.get_download_url. rewrite F. reflexivity. }
  split; [|split; [|split]].
  - intros N.
    assert (R : ChromeInstaller.require_version h w
      = (Raise (RuntimeError
                  "Could not determine chromedriver download URL for this platform."),
         w)).
    { unfold ChromeInstaller.require_version.
      rewrite (bind_ret _ _ w None w) by (unfold getattr, gets; rewrite N; reflexivity).
      rewrite C. reflexivity. }
    split; [exact R|]. unfold ChromeInstaller.download.
    apply (bind_raise _ _ _ _ _ R).
  - unfold ChromeInstaller.get_download_url. rewrite C. reflexivity.
  - exact G.
  - intros N. unfold FireFoxInstaller.download, FireFoxInstaller.binary_path.
    rewrite (bind_ret _ _ _ _ _ (binary_path_in h _ w)).
    unfold isfile at 1, gets at 1, bind at 1. rewrite N.
    rewrite bool_decide_eq_false_2 by (intros [x X]; discriminate).
    cbn [negb]. rewrite (bind_ret _ _ w true w) by reflexivity.
    apply bind_raise. apply (bind_raise _ _ _ _ _ G).
Qed.

End Failures.

(** X15 on a platform that is none of Linux, macOS and Windows. *)
Lemma unsupported_platform_raises_witness :
  ChromeInstaller.download Scenario.solaris Scenario.empty_disk
  = (Raise (RuntimeError
              "Could not determine chromedriver download URL for this platform."),
     Scenario.empty_disk)
  /\ FireFoxInstaller.download Scenario.solaris Scenario.empty_disk
     = (Raise (RuntimeError
                 "Could not determine geckodriver download URL for this platform."),
        Scenario.empty_disk).
Proof.
  assert (U : ~ Spec.supported Scenario.solaris).
  { intros [[H _]|[H|H]]; vm_compute in H; discriminate. }
  destruct (unsupported_platform_raises Scenario.solaris Scenario.empty_disk U)
    as (C & _ & _ & F).
  split; [apply C; reflexivity|apply F; reflexivity].
Defined.

(** *** The download of the IE driver *)

Section IeDownload.

Variable h : host.




End IeDownload.


(** *** The download of the Chrome driver off Windows *)

Section ChromeOffWindows.

Variable h : host.

(** X17. Off Windows [ChromeInstaller.binary_name] is the empty string, so a
    [download] that gets as far as a zip archive asks it for the member
    [''] and, the archive having none, raises [KeyError] after the
    fetch. *)
Theorem chrome_download_off_windows (w w1 w2 : world) (v url : string)
    (doc : response) (ms : gmap string file) :
  is_win h = false ->
  files w !! Spec.path_in h (ChromeInstaller.binary_name h) w = None ->
  ChromeInstaller.require_version h w = (Ret v, w1) ->
  truthy v = true ->
  ChromeInstaller.get_download_url h w1 = (Ret url, w2) ->
  urlopen h url = Ret doc ->
  getcode doc = 200 ->
  read doc = Zip ms ->
  ChromeInstaller.binary_name h = ""
  /\ (ms !! "" = None ->
      ChromeInstaller.download h w = (Raise (KeyError ""), log_fetch url w2)).
Proof.
  intros W N R T G U C Z.
  assert (B : ChromeInstaller.binary_name h = "").
  { unfold ChromeInstaller.binary_name. unfold is_win in W. rewrite W. reflexivity. }
  split; [exact B|]. intros K.
  assert (Q : Spec.quiet w w1).
  { apply (chrome_require_version_stable h (Spec.quiet w)
             (fun _ _ _ H => H) w _ _ (quiet_refl w) R). }
  unfold ChromeInstaller.download. rewrite (bind_ret _ _ _ _ _ R), T. cbn [negb].
  unfold ChromeInstaller.binary_path.
  rewrite (bind_ret _ _ _ _ _ (binary_path_in h _ w1)).
  unfold isfile at 1, gets at 1, bind at 1.
  rewrite (quiet_path h _ _ _ Q). destruct Q as (Qf & _ & _). rewrite Qf, N.
  rewrite bool_decide_eq_false_2 by (intros [x X]; discriminate).
  cbn [negb]. rewrite (bind_ret _ _ w1 true w1) by reflexivity.
  apply bind_raise. rewrite (bind_ret _ _ _ _ _ G).
  unfold urlopen_, bind at 1. rewrite U. apply Z.eqb_eq in C. rewrite C.
  cbn [negb]. unfold driver_dir, gets, bind, zip_extract. rewrite Z, B, K.
  reflexivity.
Qed.

End ChromeOffWindows.

(** X17 on a Linux machine whose archive holds [chromedriver]. *)
Lemma chrome_download_off_windows_witness :
  ChromeInstaller.binary_name Scenario.linux_chrome = ""
  /\ ChromeInstaller.download Scenario.linux_chrome Scenario.empty_disk
     = (Raise (KeyError ""),
        log_fetch
          "https://chromedriver.storage.googleapis.com/114.0.5735.90/chromedriver_linux64.zip"
          (snd (ChromeInstaller.get_download_url Scenario.linux_chrome
                  (snd (ChromeInstaller.require_version Scenario.linux_chrome
                          Scenario.empty_disk))))).
Proof.
  destruct (chrome_download_off_windows Scenario.linux_chrome Scenario.empty_disk
              (snd (ChromeInstaller.require_version Scenario.linux_chrome
                      Scenario.empty_disk))
              (snd (ChromeInstaller.get_download_url Scenario.linux_chrome
                      (snd (ChromeInstaller.require_version Scenario.linux_chrome
                              Scenario.empty_disk))))
              "114.0.5735.90"
              "https://chromedriver.storage.googleapis.com/114.0.5735.90/chromedriver_linux64.zip"
              (Response 200
                 "https://chromedriver.storage.googleapis.com/114.0.5735.90/chromedriver_linux64.zip"
                 (Zip (<["chromedriver" := Scenario.chrome_driver]> ∅)))
              (<["chromedriver" := Scenario.chrome_driver]> ∅)) as [B D];
    try (vm_compute; reflexivity).
  split; [exact B|]. apply D. vm_compute. reflexivity.
Defined.

(** *** The browser's version on Windows *)

Lemma all_rev_app (cls : ascii -> bool) (a b : string) :
  Spec.all cls (String.rev_app a b) = Spec.all cls a && Spec.all cls b.
Proof.
  revert b. induction a as [|c a IH]; intros b; [reflexivity|].
  cbn. rewrite IH. cbn. destruct (cls c), (Spec.all cls a); reflexivity.
Qed.

Lemma rev_app_nonempty (a b : string) : b <> "" -> String.rev_app a b <> "".
Proof.
  revert b. induction a as [|c a IH]; intros b N; [exact N|].
  cbn. apply IH. discriminate.
Qed.

(** Every word [s.split()] gives is non-empty and free of whitespace. *)
Lemma words_from_words (s cur : string) :
  Spec.all (fun c => negb (isspace c)) cur = true ->
  Forall (fun v => truthy v = true /\ Spec.all (fun c => negb (isspace c)) v = true)
    (words_from cur s).
Proof.
  assert (R : forall cur, cur <> "" ->
            Spec.all (fun c => negb (isspace c)) cur = true ->
            truthy (String.rev cur) = true
            /\ Spec.all (fun c => negb (isspace c)) (String.rev cur) = true).
  { intros [|c k] N A; [congruence|]. split.
    - unfold String.rev. cbn [String.rev_app].
      destruct (String.rev_app k (String c "")) eqn:E; [|reflexivity].
      exfalso. revert E. apply rev_app_nonempty. discriminate.
    - unfold String.rev. rewrite all_rev_app, A. reflexivity. }
  revert cur. induction s as [|c s IH]; intros cur A; cbn [words_from].
  - destruct cur; [constructor|]. constructor; [|constructor].
    apply R; [discriminate|exact A].
  - destruct (isspace c) eqn:S.
    + destruct cur; [apply IH; reflexivity|].
      constructor; [apply R; [discriminate|exact A]|apply IH; reflexivity].
    + apply IH. cbn. rewrite S, A. reflexivity.
Qed.

Lemma last_cases {A} (l : list A) :
  (l = [] /\ last l = Raise IndexError) \/ (exists v, last l = Ret v /\ v ∈ l).
Proof.
  induction l as [|x l IH]; [left; split; reflexivity|]. right.
  destruct IH as [[-> _]|(v & L & I)].
  - exists x. split; [reflexivity|apply list_elem_of_here].
  - exists v. split; [|apply list_elem_of_further, I].
    destruct l; [discriminate|exact L].
Qed.

Section Windows.

Variable h : host.

(** X18. On Windows, with no version cached,
    [ChromeInstaller.require_version] never returns an empty version: when
    the registry query prints only whitespace, the subscript [[-1]] raises
    [IndexError] and the state is untouched; otherwise the result is the
    last word printed, which is non-empty and free of whitespace, and it is
    cached. *)
Theorem chrome_require_version_on_windows (w : world) (out : string) :
  startswith (sys_platform h) "win" = true ->
  self_dict w !! "_require_version" = None ->
  popen h ["reg"; "query"; "HKEY_CURRENT_USER\Software\Google\Chrome\BLBeacon";
           "/v"; "version"] = Ret out ->
  (words (strip out) = []
   /\ ChromeInstaller.require_version h w = (Raise IndexError, w))
  \/ (exists v,
        last (words (strip out)) = Ret v
        /\ truthy v = true
        /\ Spec.all (fun c => negb (isspace c)) v = true
        /\ ChromeInstaller.require_version h w
           = (Ret v, set_self_dict <["_require_version" := v]> w)).
Proof.
  intros W C O.
  assert (G : ChromeInstaller.get_platform_architecture h = Ret ("win", "32")).
  { unfold ChromeInstaller.get_platform_architecture.
    rewrite W, (win_not_darwin _ W).
    destruct (startswith (sys_platform h) "linux") eqn:L; [|reflexivity].
    rewrite (linux_not_win _ L) in W. discriminate. }
  assert (E : ChromeInstaller.require_version h w
              = bind (lift (last (words (strip out))))
                  (fun version =>
                     let* _ := when (truthy version)
                                 (setattr "_require_version" version) in
                     ret version) w).
  { unfold ChromeInstaller.require_version.
    rewrite (bind_ret _ _ w None w) by (unfold getattr, gets; rewrite C; reflexivity).
    rewrite G. unfold lift at 1, bind at 1. cbn [fst].
    unfold ChromeInstaller.query_browser.
    change (String.eqb "win" "linux") with false.
    change (String.eqb "win" "mac") with false.
    change (String.eqb "win" "win") with true. cbv iota.
    rewrite O. unfold lift at 1, bind at 1 2. reflexivity. }
  rewrite E. destruct (last_cases (words (strip out))) as [[N L]|(v & L & I)].
  - left. split; [exact N|]. rewrite L. reflexivity.
  - right. exists v. split; [exact L|].
    pose proof (words_from_words (strip out) "" eq_refl) as F.
    rewrite Forall_forall in F. destruct (F v I) as [T S].
    split; [exact T|]. split; [exact S|].
    rewrite L. unfold lift, bind at 1, when. rewrite T. reflexivity.
Qed.

End Windows.

(** X18 on the Windows machine, whose registry holds 114.0.5735.199. *)
Lemma chrome_require_version_on_windows_witness :
  (words (strip Scenario.reg_query) = []
   /\ ChromeInstaller.require_version Scenario.windows Scenario.no_driver
      = (Raise IndexError, Scenario.no_driver))
  \/ (exists v,
        last (words (strip Scenario.reg_query)) = Ret v
        /\ truthy v = true
        /\ Spec.all (fun c => negb (isspace c)) v = true
        /\ ChromeInstaller.require_version Scenario.windows Scenario.no_driver
           = (Ret v, set_self_dict <["_require_version" := v]> Scenario.no_driver)).
Proof.
  apply (chrome_require_version_on_windows Scenario.windows Scenario.no_driver
           Scenario.reg_query); reflexivity.
Defined.

Example last_word_of_reg_query :
  last (words (strip Scenario.reg_query)) = Ret "114.0.5735.199"
  /\ words (strip "  ") = [].
Proof. split; reflexivity. Qed.

(** *** The download URL of Firefox *)

Section FirefoxUrl.

Variable h : host.

Lemma firefox_require_version_fresh (w : world) (doc : response) (tag : string) :
  self_dict w !! "_require_version" = None ->
  urlopen h "https://github.com/mozilla/geckodriver/releases/latest" = Ret doc ->
  contains (geturl doc) "/tag/" = true ->
  last (split "/" (geturl doc)) = Ret tag ->
  FireFoxInstaller.require_version h w
  = (Ret tag,
     set_self_dict <["_require_version" := tag]>
       (log_fetch "https://github.com/mozilla/geckodriver/releases/latest" w)).
Proof.
  intros C U T L. unfold FireFoxInstaller.require_version.
  rewrite (bind_ret _ _ w None w) by (unfold getattr, gets; rewrite C; reflexivity).
  unfold urlopen_, bind at 1. rewrite U. cbv beta iota. rewrite T, L. reflexivity.
Qed.

(** X19. With no version cached, [FireFoxInstaller.get_download_url] on a
    supported platform fetches the latest-release page once, although it
    reads [require_version] twice: the second read is served by the cache.
    The URL it returns names the release tag twice, then the platform, the
    architecture and the compression ([zip] on Windows, [tar.gz]
    elsewhere). *)
Theorem firefox_get_download_url_one_fetch (w : world) (doc : response)
    (platform architecture : string) :
  self_dict w !! "_require_version" = None ->
  FireFoxInstaller.get_platform_architecture h = Ret (platform, architecture) ->
  urlopen h "https://github.com/mozilla/geckodriver/releases/latest" = Ret doc ->
  contains (geturl doc) "/tag/" = true ->
  exists tag,
    last (split "/" (geturl doc)) = Ret tag
    /\ FireFoxInstaller.get_download_url h w
       = (Ret ("https://github.com/mozilla/geckodriver/releases/download/" +:+ tag
               +:+ "/geckodriver-" +:+ tag +:+ "-" +:+ platform +:+ architecture
               +:+ "." +:+ (if String.eqb platform "win" then "zip" else "tar.gz")),
          set_self_dict <["_require_version" := tag]>
            (log_fetch "https://github.com/mozilla/geckodriver/releases/latest" w))
    /\ fetched (snd (FireFoxInstaller.get_download_url h w))
       = "https://github.com/mozilla/geckodriver/releases/latest" :: fetched w.
Proof.
  intros C G U T. destruct (last_split "/" (geturl doc)) as [tag L].
  exists tag. split; [exact L|].
  assert (E : FireFoxInstaller.get_download_url h w
       = (Ret ("https://github.com/mozilla/geckodriver/releases/download/" +:+ tag
               +:+ "/geckodriver-" +:+ tag +:+ "-" +:+ platform +:+ architecture
               +:+ "." +:+ (if String.eqb platform "win" then "zip" else "tar.gz")),
          set_self_dict <["_require_version" := tag]>
            (log_fetch "https://github.com/mozilla/geckodriver/releases/latest" w))).
  { unfold FireFoxInstaller.get_download_url. rewrite G.
    unfold lift at 1, bind at 1. cbn [fst snd].
    rewrite (bind_ret _ _ _ _ _ (firefox_require_version_fresh w doc tag C U T L)).
    erewrite bind_ret; [reflexivity|].
    apply firefox_require_version_cached. cbn. apply lookup_insert_eq. }
  split; [exact E|]. rewrite E. reflexivity.
Qed.

End FirefoxUrl.

(** X19 on a Linux machine for which the latest release is v0.30.0. *)
Lemma firefox_get_download_url_one_fetch_witness :
  exists tag,
    last (split "/" "https://github.com/mozilla/geckodriver/releases/tag/v0.30.0")
    = Ret tag
    /\ FireFoxInstaller.get_download_url Scenario.firefox_online Scenario.empty_disk
       = (Ret ("https://github.com/mozilla/geckodriver/releases/download/" +:+ tag
               +:+ "/geckodriver-" +:+ tag +:+ "-" +:+ "linux" +:+ "64"
               +:+ "." +:+ "tar.gz"),
          set_self_dict <["_require_version" := tag]>
            (log_fetch "https://github.com/mozilla/geckodriver/releases/latest"
               Scenario.empty_disk))
    /\ fetched (snd (FireFoxInstaller.get_download_url Scenario.firefox_online
                       Scenario.empty_disk))
       = "https://github.com/mozilla/geckodriver/releases/latest"
         :: fetched Scenario.empty_disk.
Proof.
  apply (firefox_get_download_url_one_fetch Scenario.firefox_online Scenario.empty_disk
           (Response 200 "https://github.com/mozilla/geckodriver/releases/tag/v0.30.0"
              Unknown) "linux" "64");
    vm_compute; reflexivity.
Defined.

Example firefox_download_url_linux :
  fst (FireFoxInstaller.get_download_url Scenario.firefox_online Scenario.empty_disk)
  = Ret "https://github.com/mozilla/geckodriver/releases/download/v0.30.0/geckodriver-v0.30.0-linux64.tar.gz".
Proof. vm_compute. reflexivity. Qed.

End InstallerMore.
